(** * GitHub Repo Factory: the wizard state machines and their helpers

    A shallow embedding of the TypeScript sources of the extension:
    - [Validation]: src/utils/validation.ts
    - [Settings]:   src/types.ts and src/utils/settings.ts
    - [Modify]:     src/commands/modify.ts
    - [Create]:     src/commands/create.ts
    - [CreateHelpers]: the helpers of src/commands/create.ts that talk
      to [gh]: [createIssue] and [createBranchLinkedToIssue]
    - [Delete]:     src/commands/delete.ts

    A JavaScript string is modelled by a [string]; one character of the
    model stands for one UTF-16 code unit below 256.  Prompts and remote
    calls are external: their answers are inputs of the model. *)

From Stdlib Require Import Ascii.
From stdpp Require Import strings pretty gmap list.

Open Scope string_scope.

(* ===================================================================== *)
(** ** src/utils/validation.ts *)
(* ===================================================================== *)

Module Validation.

Record ValidationResult := mkResult {
  valid : bool;
  error : option string
}.

Definition ok : ValidationResult := mkResult true None.
Definition reject (msg : string) : ValidationResult := mkResult false (Some msg).

(** The white space and line terminators that [String.prototype.trim]
    removes, among the code units below 256: TAB, LF, VT, FF, CR, SP and
    NBSP. *)
Definition is_ws (c : ascii) : bool :=
  let n := nat_of_ascii c in
  ((n =? 9) || (n =? 10) || (n =? 11) || (n =? 12) || (n =? 13)
   || (n =? 32) || (n =? 160))%nat.

Fixpoint trimStart (s : string) : string :=
  match s with
  | "" => ""
  | String c s' => if is_ws c then trimStart s' else s
  end.

Fixpoint trimEnd (s : string) : string :=
  match s with
  | "" => ""
  | String c s' =>
      match trimEnd s' with
      | "" => if is_ws c then "" else String c ""
      | t => String c t
      end
  end.

Definition trim (s : string) : string := trimEnd (trimStart s).

Definition startsWith (s p : string) : bool := String.prefix p s.

Definition endsWith (s p : string) : bool :=
  String.prefix (String.rev p) (String.rev s).

Fixpoint includes (s sub : string) : bool :=
  String.prefix sub s ||
  match s with
  | "" => false
  | String _ s' => includes s' sub
  end.

Definition in_range (lo hi : nat) (c : ascii) : bool :=
  ((lo <=? nat_of_ascii c) && (nat_of_ascii c <=? hi))%nat.

Definition is_alnum (c : ascii) : bool :=
  in_range 97 122 c || in_range 65 90 c || in_range 48 57 c.

Definition is_char (x : string) (c : ascii) : bool :=
  bool_decide (String c "" = x).

(** The class [[a-zA-Z0-9._/-]] of the branch-name pattern. *)
Definition branch_char (c : ascii) : bool :=
  is_alnum c || is_char "." c || is_char "_" c || is_char "/" c || is_char "-" c.

(** The class [[a-zA-Z0-9._-]] of the repository-name pattern. *)
Definition repo_char (c : ascii) : bool :=
  is_alnum c || is_char "." c || is_char "_" c || is_char "-" c.

Fixpoint all_chars (p : ascii -> bool) (s : string) : bool :=
  match s with
  | "" => true
  | String c s' => p c && all_chars p s'
  end.

(** [/^[cls]+$/.test(s)]: at least one character, all of them in the class. *)
Definition test_plus (cls : ascii -> bool) (s : string) : bool :=
  match s with
  | "" => false
  | _ => all_chars cls s
  end.

Definition lower_char (c : ascii) : ascii :=
  if in_range 65 90 c then ascii_of_nat (nat_of_ascii c + 32) else c.

(** [toLowerCase] on the letters A-Z; it is only applied to a string that
    passed the branch-name pattern. *)
Fixpoint toLowerCase (s : string) : string :=
  match s with
  | "" => ""
  | String c s' => String (lower_char c) (toLowerCase s')
  end.

Definition reservedNames : list string := [".git"; "HEAD"; "refs"].

Definition validateBranchName (branchName : string) : ValidationResult :=
  if bool_decide (branchName = "") || (String.length (trim branchName) =? 0)%nat then
    reject "Branch name cannot be empty"
  else
    let trimmed := trim branchName in
    if (255 <? String.length trimmed)%nat then
      reject "Branch name exceeds maximum length of 255 characters"
    else if startsWith trimmed "." || endsWith trimmed "."
            || startsWith trimmed "/" || endsWith trimmed "/"
            || startsWith trimmed "\" || endsWith trimmed "\" then
      reject "Branch name cannot start or end with . / or \"
    else if includes trimmed ".." then
      reject "Branch name cannot contain consecutive dots (..)"
    else if negb (test_plus branch_char trimmed) then
      reject "Branch name contains invalid characters. Only alphanumeric, -, _, ., and / are allowed"
    else if bool_decide (toLowerCase trimmed ∈ reservedNames) then
      reject ("Branch name '" +:+ trimmed +:+ "' is reserved")
    else ok.

(** The integers that a JavaScript number holds exactly and prints with
    all their decimal digits: up to 2^53 in size.  A larger number is a
    double that is printed rounded, and from 10^21 on with an exponent. *)
Definition safeInteger (n : Z) : bool := (Z.abs n <=? 2 ^ 53)%Z.

(** [issueNumber] is a JavaScript number; the callers pass the number of a
    created issue or nothing, so the model takes an optional integer.  The
    model is the function on the safe integers, for which the template
    literal prints the decimal digits of [pretty]. *)
Definition generateBranchName (issueNumber : option Z) (baseName : string) : string :=
  match issueNumber with
  | Some n => if (0 <? n)%Z then pretty n +:+ "-" +:+ baseName else baseName
  | None => baseName
  end.

Definition validateRepoName (repoName : string) : ValidationResult :=
  if bool_decide (repoName = "") || (String.length (trim repoName) =? 0)%nat then
    reject "Repository name cannot be empty"
  else
    let trimmed := trim repoName in
    if (100 <? String.length trimmed)%nat then
      reject "Repository name exceeds maximum length of 100 characters"
    else if startsWith trimmed "." || endsWith trimmed "." then
      reject "Repository name cannot start or end with a dot"
    else if includes trimmed ".." then
      reject "Repository name cannot contain consecutive dots (..)"
    else if negb (test_plus repo_char trimmed) then
      reject "Repository name contains invalid characters. Only alphanumeric, -, _, and . are allowed"
    else ok.

End Validation.

(* ===================================================================== *)
(** ** The host: prompts, the cancellation token, the trace of effects *)
(* ===================================================================== *)

Module Host.

(** What the user does with one prompt. *)
Inductive Response :=
| Dismiss                 (* the prompt is hidden or Escape is pressed *)
| Accept (i : nat)        (* a pick is accepted with its i-th item active *)
| Text (s : string).      (* an input box is accepted with the text s *)

(** An item of a pick; [value] and [description] are optional properties. *)
Record Item := mkItem {
  label : string;
  value : option string;
  description : option string
}.

Definition backLabel : string := "← Back".

(** [{ label: "← Back", value: "back" }] *)
Definition backItem : Item := mkItem backLabel (Some "back") None.

(** [addBackOption(items, canGoBack)] *)
Definition addBackOption (items : list Item) (canGoBack : bool) : list Item :=
  if canGoBack then backItem :: items else items.

(** A JSON value of a request body. *)
Inductive JsValue :=
| JStr (s : string)
| JBool (b : bool).

Global Instance JsValue_eq_dec : EqDecision JsValue.
Proof. solve_decision. Defined.

(** The effects a flow has on the editor and on the remote system, in the
    order in which they happen. *)
Inductive Event :=
| ShowError (msg : string)
| ShowWarning (msg : string)
| ShowInfo (msg : string)
| OfferExisting (repo : string)      (* Skip / Delete and Recreate / Modify Existing *)
| OfferRollback (repo : string)      (* Keep Repository / Delete Repository *)
| GhCommand (command : string)          (* a [gh] command line run by [executeGhCommand] *)
| GhPatch (endpoint : string) (body : gmap string JsValue)
| GhCreateIssue (repo title body : string)
| GhBranchLinked (repo : string) (issue : Z) (branch : string)
| GhBranch (repo branch : string)
| GhClone (repo : string)
| Scaffold (path : string)
| OpenFolder (path : string).

(** The world a flow runs in: [clock] counts the suspension points passed
    so far, [script] is what the user will answer to the coming prompts
    (every prompt after the last entry is dismissed), [trace] the effects
    so far. *)
Record World := mkWorld {
  clock : nat;
  script : list Response;
  trace : list Event
}.

Definition M (A : Type) : Type := World -> A * World.

Definition ret {A} (a : A) : M A := fun w => (a, w).

Definition bind {A B} (m : M A) (k : A -> M B) : M B :=
  fun w => let (a, w') := m w in k a w'.

Notation "x <~ m ;; k" := (bind m (fun x => k))
  (at level 100, m at next level, right associativity).
Notation "m ;;; k" := (bind m (fun _ => k))
  (at level 100, right associativity).

(** One suspension point passed. *)
Definition tick : M unit :=
  fun w => (tt, mkWorld (S (clock w)) (script w) (trace w)).

Definition emit (e : Event) : M unit :=
  fun w => (tt, mkWorld (clock w) (script w) (trace w ++ [e])).

(** The cancellation token: requested from the suspension point [t] on, or
    never.  [token = None] also stands for a flow called without a token. *)
Definition isCancellationRequested (token : option nat) : M bool :=
  fun w => (match token with
            | Some t => bool_decide (t <= clock w)
            | None => false
            end, w).

(** One prompt answered: the clock moves on and the script loses its head. *)
Definition consume (w : World) : World :=
  mkWorld (S (clock w)) (tail (script w)) (trace w).

(** The next answer of the user. *)
Definition nextResponse : M Response :=
  fun w => (default Dismiss (head (script w)), consume w).

(** A pick shown until the user accepts an item or hides it: the active
    item on accept, or nothing.  An answer that names no item of the pick
    counts as hiding it. *)
Definition showPick (items : list Item) : M (option Item) :=
  r <~ nextResponse ;;
  ret (match r with
       | Accept i => items !! i
       | _ => None
       end).

(** [showInputBox] without a validator: the text, or nothing on Escape. *)
Definition showInputBox : M (option string) :=
  r <~ nextResponse ;;
  ret (match r with
       | Text s => Some s
       | _ => None
       end).

(** [showInputBox] with [validateInput]: a text for which the validator
    reports an error cannot be accepted; the box stays open for the next
    attempt. *)
Fixpoint awaitValid (validate : string -> option string) (rs : list Response)
  : option string * list Response :=
  match rs with
  | [] => (None, [])
  | Text s :: rest =>
      match validate s with
      | None => (Some s, rest)
      | Some _ => awaitValid validate rest
      end
  | _ :: rest => (None, rest)
  end.

Definition showValidatedInputBox (validate : string -> option string)
  : M (option string) :=
  fun w => let (r, rest) := awaitValid validate (script w) in
           (r, mkWorld (S (clock w)) rest (trace w)).

(** [Array.prototype.find] *)
Definition find_item (p : Item -> bool) (items : list Item) : option Item :=
  List.find p items.

Definition has_label (l : string) (it : Item) : bool :=
  bool_decide (label it = l).

(** [sequence.indexOf(step)]: the position of the first occurrence, -1 when
    there is none. *)
Fixpoint indexOf {A} `{EqDecision A} (l : list A) (x : A) : Z :=
  match l with
  | [] => -1
  | y :: l' =>
      if bool_decide (y = x) then 0
      else let i := indexOf l' x in
           if (i <? 0)%Z then -1 else (i + 1)%Z
  end.

(** [str.split("/")] *)
Fixpoint split_slash (s : string) : list string :=
  match s with
  | "" => [""]
  | String c s' =>
      if bool_decide (String c "" = "/") then "" :: split_slash s'
      else match split_slash s' with
           | [] => [String c ""]
           | p :: ps => String c p :: ps
           end
  end.

(** [errors.join(", ")] *)
Definition join (l : list string) : string := String.concat ", " l.

(** How the [gh] process of a command ends: whether it succeeds, what it
    wrote to its two streams, and, for a process that fails, the text
    [String(error)] of the error that [exec] throws. *)
Record Process := mkProcess {
  exit_ok : bool;
  stdout : string;
  stderr : string;
  thrown : string
}.

(** [interface GhCommandResult], without the parsed data *)
Record GhCommandResult := mkGhResult {
  gh_success : bool;
  gh_stdout : string;
  gh_stderr : string;
  gh_cancelled : bool
}.

(** [execError.stderr?.trim() || String(error)] *)
Definition failureText (proc : Process) : string :=
  if bool_decide (Validation.trim (stderr proc) = "") then thrown proc
  else Validation.trim (stderr proc).

(** [executeGhCommand(command, { cancellationToken })]; [proc] is how the
    process ends if it is started.  A cancellation requested while the
    process runs does not stop it; the result only reports it.  Both
    streams are trimmed, and a process that fails with nothing on its error
    stream reports the text of the error. *)
Definition executeGhCommand (token : option nat) (proc : Process) (command : string)
  : M GhCommandResult :=
  c <~ isCancellationRequested token ;;
  if c then ret (mkGhResult false "" "Operation cancelled" true)
  else
    emit (GhCommand command) ;;;
    tick ;;;
    c <~ isCancellationRequested token ;;
    ret (if exit_ok proc then
           if c then
             mkGhResult false (Validation.trim (stdout proc)) (Validation.trim (stderr proc))
               true
           else
             mkGhResult true (Validation.trim (stdout proc)) (Validation.trim (stderr proc))
               false
         else
           if c then mkGhResult false "" "Operation cancelled" true
           else mkGhResult false (Validation.trim (stdout proc)) (failureText proc) false).

End Host.

(* ===================================================================== *)
(** ** src/types.ts and src/utils/settings.ts *)
(* ===================================================================== *)

Module Settings.
Import Host.

Inductive Visibility := public | private | internal.

Global Instance Visibility_eq_dec : EqDecision Visibility.
Proof. solve_decision. Defined.

Definition visibility_name (v : Visibility) : string :=
  match v with
  | public => "public"
  | private => "private"
  | internal => "internal"
  end.

(** [interface RepositorySettings]: every property is optional. *)
Record RepositorySettings := mkSettings {
  description : option string;
  visibility : option Visibility;
  hasWiki : option bool;
  hasIssues : option bool;
  hasProjects : option bool;
  hasDiscussions : option bool;
  allowSquashMerge : option bool;
  allowMergeCommit : option bool;
  allowRebaseMerge : option bool;
  allowAutoMerge : option bool;
  deleteBranchOnMerge : option bool;
  allowUpdateBranch : option bool;
  webCommitSignoffRequired : option bool
}.

Global Instance RepositorySettings_eq_dec : EqDecision RepositorySettings.
Proof. solve_decision. Defined.

(** [{}] *)
Definition noSettings : RepositorySettings :=
  mkSettings None None None None None None None None None None None None None.

(** [Object.keys(settings).length]: the properties that are set. *)
Definition keyCount (s : RepositorySettings) : nat :=
  let c {A} (o : option A) := match o with Some _ => 1 | None => 0 end in
  c (description s) + c (visibility s) + c (hasWiki s) + c (hasIssues s)
  + c (hasProjects s) + c (hasDiscussions s) + c (allowSquashMerge s)
  + c (allowMergeCommit s) + c (allowRebaseMerge s) + c (allowAutoMerge s)
  + c (deleteBranchOnMerge s) + c (allowUpdateBranch s)
  + c (webCommitSignoffRequired s).

(** [settings.key = v], one per property *)
Definition set_description v (s : RepositorySettings) :=
  mkSettings (Some v) (visibility s) (hasWiki s) (hasIssues s) (hasProjects s)
    (hasDiscussions s) (allowSquashMerge s) (allowMergeCommit s) (allowRebaseMerge s)
    (allowAutoMerge s) (deleteBranchOnMerge s) (allowUpdateBranch s)
    (webCommitSignoffRequired s).
Definition set_visibility v (s : RepositorySettings) :=
  mkSettings (description s) (Some v) (hasWiki s) (hasIssues s) (hasProjects s)
    (hasDiscussions s) (allowSquashMerge s) (allowMergeCommit s) (allowRebaseMerge s)
    (allowAutoMerge s) (deleteBranchOnMerge s) (allowUpdateBranch s)
    (webCommitSignoffRequired s).
Definition set_hasWiki v (s : RepositorySettings) :=
  mkSettings (description s) (visibility s) (Some v) (hasIssues s) (hasProjects s)
    (hasDiscussions s) (allowSquashMerge s) (allowMergeCommit s) (allowRebaseMerge s)
    (allowAutoMerge s) (deleteBranchOnMerge s) (allowUpdateBranch s)
    (webCommitSignoffRequired s).
Definition set_hasIssues v (s : RepositorySettings) :=
  mkSettings (description s) (visibility s) (hasWiki s) (Some v) (hasProjects s)
    (hasDiscussions s) (allowSquashMerge s) (allowMergeCommit s) (allowRebaseMerge s)
    (allowAutoMerge s) (deleteBranchOnMerge s) (allowUpdateBranch s)
    (webCommitSignoffRequired s).
Definition set_hasProjects v (s : RepositorySettings) :=
  mkSettings (description s) (visibility s) (hasWiki s) (hasIssues s) (Some v)
    (hasDiscussions s) (allowSquashMerge s) (allowMergeCommit s) (allowRebaseMerge s)
    (allowAutoMerge s) (deleteBranchOnMerge s) (allowUpdateBranch s)
    (webCommitSignoffRequired s).
Definition set_hasDiscussions v (s : RepositorySettings) :=
  mkSettings (description s) (visibility s) (hasWiki s) (hasIssues s) (hasProjects s)
    (Some v) (allowSquashMerge s) (allowMergeCommit s) (allowRebaseMerge s)
    (allowAutoMerge s) (deleteBranchOnMerge s) (allowUpdateBranch s)
    (webCommitSignoffRequired s).
Definition set_allowSquashMerge v (s : RepositorySettings) :=
  mkSettings (description s) (visibility s) (hasWiki s) (hasIssues s) (hasProjects s)
    (hasDiscussions s) (Some v) (allowMergeCommit s) (allowRebaseMerge s)
    (allowAutoMerge s) (deleteBranchOnMerge s) (allowUpdateBranch s)
    (webCommitSignoffRequired s).
Definition set_allowMergeCommit v (s : RepositorySettings) :=
  mkSettings (description s) (visibility s) (hasWiki s) (hasIssues s) (hasProjects s)
    (hasDiscussions s) (allowSquashMerge s) (Some v) (allowRebaseMerge s)
    (allowAutoMerge s) (deleteBranchOnMerge s) (allowUpdateBranch s)
    (webCommitSignoffRequired s).
Definition set_allowRebaseMerge v (s : RepositorySettings) :=
  mkSettings (description s) (visibility s) (hasWiki s) (hasIssues s) (hasProjects s)
    (hasDiscussions s) (allowSquashMerge s) (allowMergeCommit s) (Some v)
    (allowAutoMerge s) (deleteBranchOnMerge s) (allowUpdateBranch s)
    (webCommitSignoffRequired s).
Definition set_allowAutoMerge v (s : RepositorySettings) :=
  mkSettings (description s) (visibility s) (hasWiki s) (hasIssues s) (hasProjects s)
    (hasDiscussions s) (allowSquashMerge s) (allowMergeCommit s) (allowRebaseMerge s)
    (Some v) (deleteBranchOnMerge s) (allowUpdateBranch s)
    (webCommitSignoffRequired s).
Definition set_deleteBranchOnMerge v (s : RepositorySettings) :=
  mkSettings (description s) (visibility s) (hasWiki s) (hasIssues s) (hasProjects s)
    (hasDiscussions s) (allowSquashMerge s) (allowMergeCommit s) (allowRebaseMerge s)
    (allowAutoMerge s) (Some v) (allowUpdateBranch s)
    (webCommitSignoffRequired s).
Definition set_allowUpdateBranch v (s : RepositorySettings) :=
  mkSettings (description s) (visibility s) (hasWiki s) (hasIssues s) (hasProjects s)
    (hasDiscussions s) (allowSquashMerge s) (allowMergeCommit s) (allowRebaseMerge s)
    (allowAutoMerge s) (deleteBranchOnMerge s) (Some v)
    (webCommitSignoffRequired s).
Definition set_webCommitSignoffRequired v (s : RepositorySettings) :=
  mkSettings (description s) (visibility s) (hasWiki s) (hasIssues s) (hasProjects s)
    (hasDiscussions s) (allowSquashMerge s) (allowMergeCommit s) (allowRebaseMerge s)
    (allowAutoMerge s) (deleteBranchOnMerge s) (allowUpdateBranch s)
    (Some v).

(** [currentSettings === undefined || currentSettings.f !== v] *)
Definition differs {A} `{EqDecision A} (currentSettings : option RepositorySettings)
    (f : RepositorySettings -> option A) (v : A) : bool :=
  match currentSettings with
  | None => true
  | Some c => bool_decide (f c ≠ Some v)
  end.

(** One block of [applyRepositorySettings]: the property [f] goes into the
    request under [key] when it is set and differs from the current one. *)
Definition include {A} `{EqDecision A} (key : string) (inj : A -> JsValue)
    (f : RepositorySettings -> option A)
    (settings : RepositorySettings) (currentSettings : option RepositorySettings)
    (apiSettings : gmap string JsValue) : gmap string JsValue :=
  match f settings with
  | Some v => if differs currentSettings f v then <[key := inj v]> apiSettings
              else apiSettings
  | None => apiSettings
  end.

Definition JVis (v : Visibility) : JsValue := JStr (visibility_name v).

(** The request body built by [applyRepositorySettings]. *)
Definition buildApiSettings (settings : RepositorySettings)
    (currentSettings : option RepositorySettings) : gmap string JsValue :=
  let step {A} `{EqDecision A} key (inj : A -> JsValue) f api :=
    include key inj f settings currentSettings api in
  step "web_commit_signoff_required" JBool webCommitSignoffRequired
  (step "allow_update_branch" JBool allowUpdateBranch
  (step "delete_branch_on_merge" JBool deleteBranchOnMerge
  (step "allow_auto_merge" JBool allowAutoMerge
  (step "allow_rebase_merge" JBool allowRebaseMerge
  (step "allow_merge_commit" JBool allowMergeCommit
  (step "allow_squash_merge" JBool allowSquashMerge
  (step "has_discussions" JBool hasDiscussions
  (step "has_projects" JBool hasProjects
  (step "has_issues" JBool hasIssues
  (step "has_wiki" JBool hasWiki
  (step "visibility" JVis visibility
  (step "description" JStr description ∅)))))))))))).

(** [repos/${owner}/${repo}] or [repos/${repo}] *)
Definition endpointOf (repoName : string) : string :=
  let parts := split_slash repoName in
  let owner := if bool_decide (1 < length parts) then parts !! 0 else None in
  let repo := default "" (if bool_decide (1 < length parts) then parts !! 1 else parts !! 0) in
  match owner with
  | Some o => if bool_decide (o = "") then "repos/" +:+ repo
              else "repos/" +:+ o +:+ "/" +:+ repo
  | None => "repos/" +:+ repo
  end.

(** The outcome of [executeGhApi]: it catches every failure of its own. *)
Record ApiResult := mkApiResult {
  api_success : bool;
  api_stderr : string
}.

Record ApplyResult := mkApplyResult {
  success : bool;
  errors : list string;
  noChanges : bool
}.

(** [applyRepositorySettings(repoName, settings, currentSettings)];
    [patch] is the outcome of the PATCH request, should it be sent. *)
Definition applyRepositorySettings (patch : ApiResult) (repoName : string)
    (settings : RepositorySettings) (currentSettings : option RepositorySettings)
  : M ApplyResult :=
  let apiSettings := buildApiSettings settings currentSettings in
  if bool_decide (size apiSettings = 0) then
    ret (mkApplyResult true [] true)
  else
    emit (GhPatch (endpointOf repoName) apiSettings) ;;;
    tick ;;;
    let errors :=
      if api_success patch then []
      else ["Failed to apply repository settings: " +:+ api_stderr patch] in
    ret (mkApplyResult (bool_decide (length errors = 0)) errors false).

End Settings.

(* ===================================================================== *)
(** ** src/commands/modify.ts *)
(* ===================================================================== *)

Module Modify.
Import Host Settings.

(** [enum Step] of [collectModifications] *)
Inductive Step :=
| CATEGORY
| BASIC_DESCRIPTION | BASIC_VISIBILITY
| FEATURES_WIKI | FEATURES_ISSUES | FEATURES_PROJECTS | FEATURES_DISCUSSIONS
| PR_SQUASH | PR_MERGE | PR_REBASE | PR_AUTO | PR_DELETE_BRANCH | PR_UPDATE_BRANCH
| GENERAL_SIGNOFF
| DONE.

Global Instance Step_eq_dec : EqDecision Step.
Proof. solve_decision. Defined.

Definition getStepSequence (category : option string) : list Step :=
  match category with
  | None => [CATEGORY; DONE]
  | Some c =>
      if bool_decide (c = "") then [CATEGORY; DONE]
      else if bool_decide (c = "basic") then
        [CATEGORY; BASIC_DESCRIPTION; BASIC_VISIBILITY; DONE]
      else if bool_decide (c = "features") then
        [CATEGORY; FEATURES_WIKI; FEATURES_ISSUES; FEATURES_PROJECTS;
         FEATURES_DISCUSSIONS; DONE]
      else if bool_decide (c = "pr") then
        [CATEGORY; PR_SQUASH; PR_MERGE; PR_REBASE; PR_AUTO; PR_DELETE_BRANCH;
         PR_UPDATE_BRANCH; DONE]
      else if bool_decide (c = "general") then
        [CATEGORY; GENERAL_SIGNOFF; DONE]
      else if bool_decide (c = "all") then
        [CATEGORY; BASIC_DESCRIPTION; BASIC_VISIBILITY;
         FEATURES_WIKI; FEATURES_ISSUES; FEATURES_PROJECTS; FEATURES_DISCUSSIONS;
         PR_SQUASH; PR_MERGE; PR_REBASE; PR_AUTO; PR_DELETE_BRANCH;
         PR_UPDATE_BRANCH; GENERAL_SIGNOFF; DONE]
      else [CATEGORY; DONE]
  end.

(** The variables of [collectModifications] that the loop updates. *)
Record Wizard := mkWizard {
  modifications : RepositorySettings;
  currentStep : Step;
  selectedCategory : option string
}.

Definition getNextStep (wz : Wizard) : Step :=
  let sequence := getStepSequence (selectedCategory wz) in
  let currentIndex := indexOf sequence (currentStep wz) in
  if (0 <=? currentIndex)%Z && (currentIndex <? Z.of_nat (length sequence) - 1)%Z then
    default DONE (sequence !! Z.to_nat (currentIndex + 1))
  else DONE.

Definition moveTo (s : Step) (wz : Wizard) : Wizard :=
  mkWizard (modifications wz) s (selectedCategory wz).

Definition moveToNextStep (wz : Wizard) : Wizard := moveTo (getNextStep wz) wz.

Definition moveToPreviousStep (wz : Wizard) : Wizard :=
  let sequence := getStepSequence (selectedCategory wz) in
  let currentIndex := indexOf sequence (currentStep wz) in
  if (0 <? currentIndex)%Z then
    moveTo (default (currentStep wz) (sequence !! Z.to_nat (currentIndex - 1))) wz
  else wz.

Definition store (f : RepositorySettings -> RepositorySettings) (wz : Wizard) : Wizard :=
  mkWizard (f (modifications wz)) (currentStep wz) (selectedCategory wz).

Definition yesNo (b : bool) : string := if b then "Yes" else "No".

(** [promptBooleanSetting(settingName, currentValue, canGoBack)]: the chosen
    value, or nothing for back, a hidden pick or a requested cancellation.
    The first option carries the current value. *)
Definition promptBooleanSetting (token : option nat) (currentValue canGoBack : bool)
  : M (option bool) :=
  c <~ isCancellationRequested token ;;
  if c then ret None
  else
    let options :=
      [ (mkItem (yesNo currentValue) None
           (Some ("Current: " +:+ yesNo currentValue)), currentValue);
        (mkItem (yesNo (negb currentValue)) None
           (Some (if currentValue then "Disable" else "Enable")), negb currentValue) ] in
    let allOptions :=
      if canGoBack then mkItem backLabel None None :: map fst options
      else map fst options in
    selected <~ showPick allOptions ;;
    ret (match selected with
         | None => None
         | Some it =>
             if bool_decide (label it = backLabel) then None
             else snd <$> List.find (fun o => bool_decide (label (fst o) = label it)) options
         end).

Definition categoryOptions : list Item :=
  [ mkItem "Basic Settings" (Some "basic") (Some "Description and visibility");
    mkItem "Features" (Some "features") (Some "Wiki, Issues, Projects, Discussions");
    mkItem "Pull Request Settings" (Some "pr") (Some "Merge options and PR settings");
    mkItem "General Settings" (Some "general") (Some "Web commit signoff");
    mkItem "All Settings" (Some "all") (Some "Modify all settings") ].

Definition visibilityOptions : list (Item * Visibility) :=
  [ (mkItem "Public" (Some "public") (Some "Visible to everyone"), public);
    (mkItem "Private" (Some "private") (Some "Only you and collaborators"), private);
    (mkItem "Internal" (Some "internal") (Some "Visible to organization members"), internal) ].

(** What one turn of the navigation loop decides. *)
Inductive Outcome :=
| Continue (wz : Wizard)
| Return (r : option RepositorySettings).

Definition category_in (wz : Wizard) (l : list string) : bool :=
  bool_decide (selectedCategory wz ∈ map Some l).

(** A yes/no step: back or a hidden pick rewinds, an answer is stored. *)
Definition booleanStep (token : option nat) (currentValue : bool)
    (set : bool -> RepositorySettings -> RepositorySettings) (wz : Wizard) : M Outcome :=
  result <~ promptBooleanSetting token currentValue true ;;
  ret (match result with
       | None => Continue (moveToPreviousStep wz)
       | Some v => Continue (moveToNextStep (store (set v) wz))
       end).

(** The body of the navigation loop. *)
Definition iteration (token : option nat) (currentSettings : RepositorySettings)
    (wz : Wizard) : M Outcome :=
  c <~ isCancellationRequested token ;;
  if c then ret (Return None)
  else
    let skip := ret (Continue (moveToNextStep wz)) in
    let bool_step (cats : list string) cur dflt set :=
      if category_in wz cats then booleanStep token (default dflt cur) set wz
      else skip in
    match currentStep wz with
    | CATEGORY =>
        selected <~ showPick (addBackOption categoryOptions false) ;;
        let category :=
          match selected with
          | None => None
          | Some it =>
              if bool_decide (label it = backLabel) then None
              else find_item (has_label (label it)) categoryOptions
          end in
        ret (match category with
             | None => Return None
             | Some it =>
                 Continue (moveToNextStep
                   (mkWizard (modifications wz) (currentStep wz) (value it)))
             end)
    | BASIC_DESCRIPTION =>
        if category_in wz ["basic"; "all"] then
          description <~ showInputBox ;;
          ret (match description with
               | None => Continue (moveToPreviousStep wz)
               | Some d => Continue (moveToNextStep (store (set_description d) wz))
               end)
        else skip
    | BASIC_VISIBILITY =>
        if category_in wz ["basic"; "all"] then
          selected <~ showPick (addBackOption (map fst visibilityOptions) true) ;;
          let visibility :=
            match selected with
            | None => None
            | Some it =>
                if bool_decide (label it = backLabel) then None
                else List.find (fun o => bool_decide (label (fst o) = label it))
                       visibilityOptions
            end in
          ret (match visibility with
               | None => Continue (moveToPreviousStep wz)
               | Some o => Continue (moveToNextStep (store (set_visibility (snd o)) wz))
               end)
        else skip
    | FEATURES_WIKI =>
        bool_step ["features"; "all"] (hasWiki currentSettings) true set_hasWiki
    | FEATURES_ISSUES =>
        bool_step ["features"; "all"] (hasIssues currentSettings) true set_hasIssues
    | FEATURES_PROJECTS =>
        bool_step ["features"; "all"] (hasProjects currentSettings) true set_hasProjects
    | FEATURES_DISCUSSIONS =>
        bool_step ["features"; "all"] (hasDiscussions currentSettings) false
          set_hasDiscussions
    | PR_SQUASH =>
        bool_step ["pr"; "all"] (allowSquashMerge currentSettings) true
          set_allowSquashMerge
    | PR_MERGE =>
        bool_step ["pr"; "all"] (allowMergeCommit currentSettings) true
          set_allowMergeCommit
    | PR_REBASE =>
        bool_step ["pr"; "all"] (allowRebaseMerge currentSettings) true
          set_allowRebaseMerge
    | PR_AUTO =>
        bool_step ["pr"; "all"] (allowAutoMerge currentSettings) false
          set_allowAutoMerge
    | PR_DELETE_BRANCH =>
        bool_step ["pr"; "all"] (deleteBranchOnMerge currentSettings) false
          set_deleteBranchOnMerge
    | PR_UPDATE_BRANCH =>
        bool_step ["pr"; "all"] (allowUpdateBranch currentSettings) false
          set_allowUpdateBranch
    | GENERAL_SIGNOFF =>
        bool_step ["general"; "all"] (webCommitSignoffRequired currentSettings) false
          set_webCommitSignoffRequired
    | DONE => skip
    end.

(** [while (currentStep !== Step.DONE) { ... }] followed by the final
    [return]; the outer [None] means that [fuel] turns were not enough. *)
Fixpoint loop (fuel : nat) (token : option nat) (currentSettings : RepositorySettings)
    (wz : Wizard) : M (option (option RepositorySettings)) :=
  match fuel with
  | 0 => ret None
  | S fuel' =>
      if bool_decide (currentStep wz = DONE) then
        ret (Some (if bool_decide (0 < keyCount (modifications wz))
                   then Some (modifications wz) else None))
      else
        o <~ iteration token currentSettings wz ;;
        match o with
        | Continue wz' => loop fuel' token currentSettings wz'
        | Return r => ret (Some r)
        end
  end.

Definition start : Wizard := mkWizard noSettings CATEGORY None.

(** Turns that are always enough: one per answer of the script, and the
    way back to the category step once the script is used up. *)
Definition enough (w : World) : nat := length (script w) + 17.

Definition collectModifications (token : option nat)
    (currentSettings : RepositorySettings) : M (option RepositorySettings) :=
  c <~ isCancellationRequested token ;;
  if c then ret None
  else fun w =>
    let (r, w') := loop (enough w) token currentSettings start w in
    (default None r, w').

(** [interface RepositoryInfo], as far as the flow reads it *)
Record RepositoryInfo := mkRepositoryInfo {
  fullName : string;
  repoDescription : string;
  repoVisibility : string
}.

(** What the surroundings of one run of the flow answer. *)
Record Env := mkEnv {
  token : option nat;                       (* when cancellation is requested *)
  repositories : list RepositoryInfo;       (* the repositories listed for selection *)
  fetched : option RepositorySettings;      (* [getRepositorySettings] *)
  patched : ApiResult                       (* the PATCH request, if sent *)
}.

(** The selection of the repository when none is given. *)
Definition selectRepository (env : Env) : M (option string) :=
  tick ;;;
  if bool_decide (length (repositories env) = 0) then
    emit (ShowWarning "No repositories found. Make sure you have access to at least one repository.") ;;;
    ret None
  else
    let items := map (fun r =>
      mkItem (fullName r) None (Some (repoDescription r))) (repositories env) in
    selected <~ showPick items ;;
    ret (label <$> selected).

Definition modifyRepository (env : Env) (repoName : option string) : M unit :=
  targetRepo <~ match repoName with
                | Some r => if bool_decide (r = "") then selectRepository env
                            else ret (Some r)
                | None => selectRepository env
                end ;;
  match targetRepo with
  | None => ret tt
  | Some targetRepo =>
      c <~ isCancellationRequested (token env) ;;
      if c then ret tt
      else if bool_decide (targetRepo = "") then ret tt
      else
        tick ;;;
        match fetched env with
        | None => emit (ShowError "Failed to fetch repository settings.")
        | Some currentSettings =>
            c <~ isCancellationRequested (token env) ;;
            if c then ret tt
            else
              modifications <~ collectModifications (token env) currentSettings ;;
              match modifications with
              | None => ret tt
              | Some modifications =>
                  if bool_decide (keyCount modifications = 0) then
                    emit (ShowInfo "No changes to apply. Repository settings are already as specified.")
                  else
                    c <~ isCancellationRequested (token env) ;;
                    if c then ret tt
                    else
                      result <~ applyRepositorySettings (patched env) targetRepo
                                  modifications (Some currentSettings) ;;
                      if noChanges result then
                        emit (ShowInfo "No changes detected. All selected settings are already set to the specified values.")
                      else if negb (success result) then
                        emit (ShowError ("Failed to apply modifications: " +:+ join (errors result)))
                      else
                        emit (ShowInfo ("Repository " +:+ targetRepo +:+ " modified successfully."))
              end
        end
  end.

End Modify.


(* ===================================================================== *)
(** ** src/commands/create.ts: the wizard *)
(* ===================================================================== *)

Module Create.
Import Host Settings Validation.

(** [enum Step] of [collectUserInputs] *)
Inductive Step :=
| OWNER | NAME | DESCRIPTION | VISIBILITY | TEMPLATE | README | LICENSE
| ISSUE | BRANCH | WORKSPACE | ADVANCED | DONE.

Global Instance Step_eq_dec : EqDecision Step.
Proof. solve_decision. Defined.

(** [interface StepState]: the values collected so far.  A stored pick is
    the item object itself. *)
Record StepState := mkState {
  selectedOwner : option Item;
  name : option string;
  description : option string;
  visibility : option string;
  useTemplate : option Item;
  template : option string;
  addReadme : option Item;
  license : option string;
  createIssue : option Item;
  issueTitle : option string;
  issueBody : option string;
  createBranch : option Item;
  branchName : option string;
  setupWorkspace : option Item;
  advancedConfig : option Item;
  settings : option RepositorySettings
}.

(** [state.key = v], one per property *)
Definition set_selectedOwner (v : option Item) (s : StepState) : StepState :=
  mkState v (name s) (description s) (visibility s) (useTemplate s) (template s)
    (addReadme s) (license s) (createIssue s) (issueTitle s) (issueBody s) (createBranch
    s) (branchName s) (setupWorkspace s) (advancedConfig s) (settings s).
Definition set_name (v : option string) (s : StepState) : StepState :=
  mkState (selectedOwner s) v (description s) (visibility s) (useTemplate s) (template
    s) (addReadme s) (license s) (createIssue s) (issueTitle s) (issueBody s)
    (createBranch s) (branchName s) (setupWorkspace s) (advancedConfig s) (settings s).
Definition set_description (v : option string) (s : StepState) : StepState :=
  mkState (selectedOwner s) (name s) v (visibility s) (useTemplate s) (template s)
    (addReadme s) (license s) (createIssue s) (issueTitle s) (issueBody s) (createBranch
    s) (branchName s) (setupWorkspace s) (advancedConfig s) (settings s).
Definition set_visibility (v : option string) (s : StepState) : StepState :=
  mkState (selectedOwner s) (name s) (description s) v (useTemplate s) (template s)
    (addReadme s) (license s) (createIssue s) (issueTitle s) (issueBody s) (createBranch
    s) (branchName s) (setupWorkspace s) (advancedConfig s) (settings s).
Definition set_useTemplate (v : option Item) (s : StepState) : StepState :=
  mkState (selectedOwner s) (name s) (description s) (visibility s) v (template s)
    (addReadme s) (license s) (createIssue s) (issueTitle s) (issueBody s) (createBranch
    s) (branchName s) (setupWorkspace s) (advancedConfig s) (settings s).
Definition set_template (v : option string) (s : StepState) : StepState :=
  mkState (selectedOwner s) (name s) (description s) (visibility s) (useTemplate s) v
    (addReadme s) (license s) (createIssue s) (issueTitle s) (issueBody s) (createBranch
    s) (branchName s) (setupWorkspace s) (advancedConfig s) (settings s).
Definition set_addReadme (v : option Item) (s : StepState) : StepState :=
  mkState (selectedOwner s) (name s) (description s) (visibility s) (useTemplate s)
    (template s) v (license s) (createIssue s) (issueTitle s) (issueBody s)
    (createBranch s) (branchName s) (setupWorkspace s) (advancedConfig s) (settings s).
Definition set_license (v : option string) (s : StepState) : StepState :=
  mkState (selectedOwner s) (name s) (description s) (visibility s) (useTemplate s)
    (template s) (addReadme s) v (createIssue s) (issueTitle s) (issueBody s)
    (createBranch s) (branchName s) (setupWorkspace s) (advancedConfig s) (settings s).
Definition set_createIssue (v : option Item) (s : StepState) : StepState :=
  mkState (selectedOwner s) (name s) (description s) (visibility s) (useTemplate s)
    (template s) (addReadme s) (license s) v (issueTitle s) (issueBody s) (createBranch
    s) (branchName s) (setupWorkspace s) (advancedConfig s) (settings s).
Definition set_issueTitle (v : option string) (s : StepState) : StepState :=
  mkState (selectedOwner s) (name s) (description s) (visibility s) (useTemplate s)
    (template s) (addReadme s) (license s) (createIssue s) v (issueBody s) (createBranch
    s) (branchName s) (setupWorkspace s) (advancedConfig s) (settings s).
Definition set_issueBody (v : option string) (s : StepState) : StepState :=
  mkState (selectedOwner s) (name s) (description s) (visibility s) (useTemplate s)
    (template s) (addReadme s) (license s) (createIssue s) (issueTitle s) v
    (createBranch s) (branchName s) (setupWorkspace s) (advancedConfig s) (settings s).
Definition set_createBranch (v : option Item) (s : StepState) : StepState :=
  mkState (selectedOwner s) (name s) (description s) (visibility s) (useTemplate s)
    (template s) (addReadme s) (license s) (createIssue s) (issueTitle s) (issueBody s)
    v (branchName s) (setupWorkspace s) (advancedConfig s) (settings s).
Definition set_branchName (v : option string) (s : StepState) : StepState :=
  mkState (selectedOwner s) (name s) (description s) (visibility s) (useTemplate s)
    (template s) (addReadme s) (license s) (createIssue s) (issueTitle s) (issueBody s)
    (createBranch s) v (setupWorkspace s) (advancedConfig s) (settings s).
Definition set_setupWorkspace (v : option Item) (s : StepState) : StepState :=
  mkState (selectedOwner s) (name s) (description s) (visibility s) (useTemplate s)
    (template s) (addReadme s) (license s) (createIssue s) (issueTitle s) (issueBody s)
    (createBranch s) (branchName s) v (advancedConfig s) (settings s).
Definition set_advancedConfig (v : option Item) (s : StepState) : StepState :=
  mkState (selectedOwner s) (name s) (description s) (visibility s) (useTemplate s)
    (template s) (addReadme s) (license s) (createIssue s) (issueTitle s) (issueBody s)
    (createBranch s) (branchName s) (setupWorkspace s) v (settings s).
Definition set_settings (v : option RepositorySettings) (s : StepState) : StepState :=
  mkState (selectedOwner s) (name s) (description s) (visibility s) (useTemplate s)
    (template s) (addReadme s) (license s) (createIssue s) (issueTitle s) (issueBody s)
    (createBranch s) (branchName s) (setupWorkspace s) (advancedConfig s) v.

Definition emptyState : StepState :=
  mkState None None None None None None None None None None None None None None
    None None.

(** A string in a condition: [undefined] and the empty string are falsy. *)
Definition truthy (o : option string) : bool :=
  match o with
  | Some s => negb (bool_decide (s = ""))
  | None => false
  end.

(** [x || d] *)
Definition orElse (o : option string) (d : string) : string :=
  if truthy o then default d o else d.

Definition baseSteps : list Step := [OWNER; NAME; DESCRIPTION; VISIBILITY; TEMPLATE].

Definition getStepSequence (state : StepState) : list Step :=
  if truthy (template state) then
    baseSteps ++ [ISSUE; BRANCH; WORKSPACE; ADVANCED; DONE]
  else
    baseSteps ++ [README; LICENSE; ISSUE; BRANCH; WORKSPACE; ADVANCED; DONE].

(** The variables of [collectUserInputs] that the loop updates. *)
Record Wizard := mkWizard {
  state : StepState;
  currentStep : Step
}.

Definition getCurrentStepNumber (wz : Wizard) : Z :=
  let sequence := getStepSequence (state wz) in
  let index := indexOf sequence (currentStep wz) in
  if (0 <=? index)%Z then (index + 1)%Z else 1%Z.

Definition getTotalSteps (wz : Wizard) : Z :=
  (Z.of_nat (length (getStepSequence (state wz))) - 1)%Z.

Definition getNextStep (wz : Wizard) : Step :=
  let sequence := getStepSequence (state wz) in
  let currentIndex := indexOf sequence (currentStep wz) in
  if (0 <=? currentIndex)%Z && (currentIndex <? Z.of_nat (length sequence) - 1)%Z then
    default DONE (sequence !! Z.to_nat (currentIndex + 1))
  else DONE.

Definition moveToNextStep (wz : Wizard) : Wizard :=
  mkWizard (state wz) (getNextStep wz).

Definition moveToPreviousStep (wz : Wizard) : Wizard :=
  let sequence := getStepSequence (state wz) in
  let currentIndex := indexOf sequence (currentStep wz) in
  if (0 <? currentIndex)%Z then
    mkWizard (state wz)
      (default (currentStep wz) (sequence !! Z.to_nat (currentIndex - 1)))
  else wz.

(** [state.key = v] on the wizard *)
Definition store (f : StepState -> StepState) (wz : Wizard) : Wizard :=
  mkWizard (f (state wz)) (currentStep wz).

(** [currentStep = s] *)
Definition goto (s : Step) (wz : Wizard) : Wizard := mkWizard (state wz) s.

(** [interface CreateRepoOptions], as [collectUserInputs] fills it *)
Record CreateRepoOptions := mkOptions {
  o_name : string;
  o_description : string;
  o_visibility : string;
  o_owner : option string;
  o_template : option string;
  o_addReadme : bool;
  o_license : option string;
  o_createIssue : bool;
  o_issueTitle : option string;
  o_issueBody : option string;
  o_createBranch : bool;
  o_branchName : option string;
  o_setupWorkspace : bool;
  o_settings : option RepositorySettings
}.

(** What the surroundings answer to the wizard. *)
Record WizardEnv := mkWizardEnv {
  token : option nat;                 (* when cancellation is requested *)
  currentUser : option string;        (* [getCurrentUser] *)
  organizations : list string;        (* [getUserOrganizations] *)
  repoExists : string -> bool         (* [checkRepoExists] *)
}.

Definition ownerOptions (env : WizardEnv) : list Item :=
  (if truthy (currentUser env) then
     [mkItem (default "" (currentUser env) +:+ " (Personal)") (currentUser env)
        (Some "Your personal account")]
   else [])
  ++ map (fun org => mkItem org (Some org) (Some "Organization")) (organizations env).

(** The pick of the choice steps: accepting the back item resolves to the
    step's default item, when that item exists. *)
Definition pickOrDefault (allOptions : list Item) (defaultOption : option Item)
  : M (option Item) :=
  selected <~ showPick allOptions ;;
  ret (match selected, defaultOption with
       | Some it, Some d => Some (if bool_decide (label it = backLabel) then d else it)
       | _, _ => selected
       end).

Definition canGoBack (wz : Wizard) : bool := (1 <? getCurrentStepNumber wz)%Z.

(** [validateInput] of the repository-name box *)
Definition validateNameInput (env : WizardEnv) (owner value : string) : option string :=
  if bool_decide (value = "") || (String.length (trim value) =? 0)%nat then
    Some "Repository name is required"
  else
    let validation := validateRepoName value in
    if negb (valid validation) then
      Some (orElse (error validation) "Invalid repository name")
    else
      let fullRepoName := owner +:+ "/" +:+ value in
      if repoExists env fullRepoName then
        Some ("Repository " +:+ fullRepoName
              +:+ " already exists. Please choose a different name.")
      else None.

(** [validateInput] of the branch-name box *)
Definition validateBranchInput (value : string) : option string :=
  if bool_decide (value = "") || (String.length (trim value) =? 0)%nat then
    Some "Branch name is required"
  else
    let validation := validateBranchName value in
    if valid validation then None else Some (default "" (error validation)).

Definition visibilityOptions : list Item :=
  [ mkItem "Private" (Some "private") (Some "Only you and collaborators");
    mkItem "Public" (Some "public") (Some "Visible to everyone");
    mkItem "Internal" (Some "internal") (Some "Visible to organization members") ].

Definition templateOptions : list Item :=
  [ mkItem "No" None (Some "Create empty repository");
    mkItem "Yes" None (Some "Create from a template repository") ].

Definition readmeOptions : list Item :=
  [ mkItem "No" None (Some "Skip README creation");
    mkItem "Yes" None (Some "Add a README file") ].

Definition licenseOptions : list Item :=
  [ mkItem "None" (Some "none") (Some "No license");
    mkItem "MIT" (Some "mit") (Some "MIT License");
    mkItem "Apache-2.0" (Some "apache-2.0") (Some "Apache License 2.0");
    mkItem "GPL-3.0" (Some "gpl-3.0") (Some "GNU General Public License v3.0");
    mkItem "BSD-3-Clause" (Some "bsd-3-clause") (Some "BSD 3-Clause License");
    mkItem "BSD-2-Clause" (Some "bsd-2-clause") (Some "BSD 2-Clause License");
    mkItem "LGPL-3.0" (Some "lgpl-3.0") (Some "GNU Lesser General Public License v3.0");
    mkItem "AGPL-3.0" (Some "agpl-3.0") (Some "GNU Affero General Public License v3.0");
    mkItem "MPL-2.0" (Some "mpl-2.0") (Some "Mozilla Public License 2.0");
    mkItem "Unlicense" (Some "unlicense") (Some "The Unlicense") ].

Definition issueOptions : list Item :=
  [ mkItem "No" None (Some "Skip issue creation");
    mkItem "Yes" None (Some "Create a 'First Release' issue") ].

Definition branchOptions : list Item :=
  [ mkItem "Yes" None (Some "Create a new branch (e.g., first-release)");
    mkItem "No" None (Some "Skip branch creation") ].

Definition workspaceOptions : list Item :=
  [ mkItem "No" None (Some "Skip workspace setup (recommended)");
    mkItem "Yes" None (Some "Create .code-workspace file and context directories") ].

Definition advancedOptions : list Item :=
  [ mkItem "No" None (Some "Use default settings");
    mkItem "Yes" None (Some "Enable issues, projects, merge options, etc.") ].

(** [{ label: "No" }] *)
Definition noLabel : Item := mkItem "No" None None.

Definition label_is (o : option Item) (l : string) : bool :=
  match o with
  | Some it => bool_decide (label it = l)
  | None => false
  end.

Definition has_description (it : Item) : bool :=
  match Host.description it with Some _ => true | None => false end.

Definition yesNo (b : bool) : string := if b then "Yes" else "No".

(** [promptBooleanSetting(settingName, description, defaultValue, canGoBack)]
    of the advanced step: the chosen value, or nothing for back, a hidden
    pick or a requested cancellation. *)
Definition promptBooleanSetting (token : option nat) (defaultValue canGoBack : bool)
  : M (option bool) :=
  c <~ isCancellationRequested token ;;
  if c then ret None
  else
    let options :=
      [ (mkItem (yesNo defaultValue) None
           (Some ("Default: " +:+ yesNo defaultValue)), defaultValue);
        (mkItem (yesNo (negb defaultValue)) None
           (Some (if defaultValue then "Disable" else "Enable")), negb defaultValue) ] in
    let allOptions :=
      if canGoBack then mkItem backLabel None None :: map fst options
      else map fst options in
    selected <~ showPick allOptions ;;
    ret (match selected with
         | None => None
         | Some it =>
             if bool_decide (label it = backLabel) then None
             else snd <$> List.find (fun o => bool_decide (label (fst o) = label it)) options
         end).

(** One entry of [settingPrompts]: the default and the property it sets. *)
Record SettingPrompt := mkPrompt {
  promptName : string;
  defaultValue : bool;
  setKey : bool -> RepositorySettings -> RepositorySettings
}.

Definition settingPrompts : list SettingPrompt :=
  [ mkPrompt "Enable Issues" true set_hasIssues;
    mkPrompt "Enable Projects" true set_hasProjects;
    mkPrompt "Enable Wiki" true set_hasWiki;
    mkPrompt "Enable Discussions" false set_hasDiscussions;
    mkPrompt "Allow Squash Merge" true set_allowSquashMerge;
    mkPrompt "Allow Merge Commit" true set_allowMergeCommit;
    mkPrompt "Allow Rebase Merge" true set_allowRebaseMerge;
    mkPrompt "Allow Auto Merge" false set_allowAutoMerge;
    mkPrompt "Delete Branch on Merge" false set_deleteBranchOnMerge;
    mkPrompt "Allow Update Branch" false set_allowUpdateBranch;
    mkPrompt "Require Web Commit Signoff" false set_webCommitSignoffRequired ].

(** [while (settingIndex < settingPrompts.length) { ... }]: the settings
    when every prompt is answered, nothing when the user backs out of the
    first prompt; the outer [None] means that [fuel] turns were not enough. *)
Fixpoint settingsLoop (fuel : nat) (token : option nat) (settingIndex : nat)
    (settings : RepositorySettings) : M (option (option RepositorySettings)) :=
  match fuel with
  | 0 => ret None
  | S fuel' =>
      match settingPrompts !! settingIndex with
      | None => ret (Some (Some settings))
      | Some prompt =>
          result <~ promptBooleanSetting token (defaultValue prompt) true ;;
          match result with
          | None =>
              match settingIndex with
              | S i => settingsLoop fuel' token i settings
              | 0 => ret (Some None)
              end
          | Some v => settingsLoop fuel' token (S settingIndex) (setKey prompt v settings)
          end
      end
  end.

(** Turns that are always enough for the settings prompts. *)
Definition enoughSettings (w : World) : nat := 2 * length (script w) + 1.

(** The object returned once the advanced step is over. *)
Definition buildResult (state : StepState) : option CreateRepoOptions :=
  if negb (truthy (name state))
     || negb (bool_decide (is_Some (selectedOwner state)))
     || negb (truthy (visibility state)) then None
  else
    Some (mkOptions
      (default "" (name state))
      (orElse (description state) "")
      (default "" (visibility state))
      (selectedOwner state ≫= value)
      (template state)
      (label_is (addReadme state) "Yes")
      (license state)
      (label_is (createIssue state) "Yes")
      (issueTitle state)
      (issueBody state)
      (label_is (createBranch state) "Yes")
      (branchName state)
      (label_is (setupWorkspace state) "Yes")
      (settings state)).

(** What one turn of the navigation loop decides. *)
Inductive Outcome :=
| Continue (wz : Wizard)
| Return (r : option CreateRepoOptions).

(** A step that starts by polling the token. *)
Definition polled (token : option nat) (k : M Outcome) : M Outcome :=
  c <~ isCancellationRequested token ;;
  if c then ret (Return None) else k.

(** A choice step: a hidden pick ends the wizard, the back item rewinds,
    any other item goes to [k]. *)
Definition choice (wz : Wizard) (options : list Item) (defaultLabel : Item -> bool)
    (k : Item -> M Outcome) : M Outcome :=
  let allOptions := addBackOption options (canGoBack wz) in
  picked <~ pickOrDefault allOptions (find_item defaultLabel allOptions) ;;
  match picked with
  | None => ret (Return None)
  | Some it =>
      if bool_decide (label it = backLabel) then ret (Continue (moveToPreviousStep wz))
      else k it
  end.

Definition stepOwner (env : WizardEnv) (wz : Wizard) : M Outcome :=
  selectedOwner <~ showPick (ownerOptions env) ;;
  ret (match selectedOwner with
       | None => Return None
       | Some it => Continue (moveToNextStep (store (set_selectedOwner (Some it)) wz))
       end).

(** The name step.  The box cannot be accepted with an empty text (the
    validator rejects it), so the source's re-prompt on an empty result is
    a turn that stays on the step. *)
Definition stepName (env : WizardEnv) (wz : Wizard) : M Outcome :=
  let owner := selectedOwner (state wz) ≫= value in
  if negb (truthy owner) then
    emit (ShowError "Owner not selected. Please go back and select an owner.") ;;;
    ret (Continue (moveToPreviousStep wz))
  else
    name <~ showValidatedInputBox (validateNameInput env (default "" owner)) ;;
    ret (match name with
         | None => Return None
         | Some n =>
             if bool_decide (n = "") then Continue wz
             else Continue (moveToNextStep (store (set_name (Some n)) wz))
         end).

Definition stepDescription (env : WizardEnv) (wz : Wizard) : M Outcome :=
  polled (token env) (
    description <~ showInputBox ;;
    ret (match description with
         | None => Return None
         | Some d => Continue (moveToNextStep (store (set_description (Some d)) wz))
         end)).

Definition stepVisibility (env : WizardEnv) (wz : Wizard) : M Outcome :=
  polled (token env) (
    choice wz visibilityOptions (fun it => bool_decide (value it = Some "private"))
      (fun visibility =>
         let wz' := if truthy (value visibility)
                    then store (set_visibility (value visibility)) wz else wz in
         ret (Continue (moveToNextStep wz')))).

Definition stepTemplate (env : WizardEnv) (wz : Wizard) : M Outcome :=
  polled (token env) (
    choice wz templateOptions (has_label "No")
      (fun useTemplate =>
         let wz1 := store (set_useTemplate (Some useTemplate)) wz in
         if bool_decide (label useTemplate = "Yes") then
           templateInput <~ showInputBox ;;
           ret (match templateInput with
                | None => Continue wz1
                | Some t =>
                    Continue (goto ISSUE
                      (store (set_license None)
                        (store (set_addReadme (Some noLabel))
                          (store (set_template (Some t)) wz1))))
                end)
         else
           ret (Continue (goto README (store (set_template None) wz1))))).

Definition stepReadme (env : WizardEnv) (wz : Wizard) : M Outcome :=
  polled (token env) (
    choice wz readmeOptions (has_label "No")
      (fun addReadme =>
         ret (Continue (moveToNextStep (store (set_addReadme (Some addReadme)) wz))))).

Definition stepLicense (env : WizardEnv) (wz : Wizard) : M Outcome :=
  choice wz licenseOptions (fun it => bool_decide (value it = Some "none"))
    (fun license =>
       let selectedLicense := value license in
       let wz' :=
         if truthy selectedLicense && negb (bool_decide (selectedLicense = Some "none"))
         then store (set_license selectedLicense) wz
         else store (set_license None) wz in
       ret (Continue (moveToNextStep wz'))).

Definition stepIssue (env : WizardEnv) (wz : Wizard) : M Outcome :=
  polled (token env) (
    choice wz issueOptions (has_label "No")
      (fun createIssue =>
         let wz1 := if has_description createIssue
                    then store (set_createIssue (Some createIssue)) wz else wz in
         if bool_decide (label createIssue = "Yes") then
           issueTitle <~ showInputBox ;;
           match issueTitle with
           | None => ret (Continue wz1)
           | Some title =>
               let wz2 := store (set_issueTitle (Some title)) wz1 in
               issueBody <~ showInputBox ;;
               ret (match issueBody with
                    | None => Continue wz2
                    | Some body =>
                        Continue (moveToNextStep (store (set_issueBody (Some body)) wz2))
                    end)
           end
         else
           ret (Continue (moveToNextStep
                  (store (set_issueBody None) (store (set_issueTitle None) wz1)))))).

Definition stepBranch (env : WizardEnv) (wz : Wizard) : M Outcome :=
  polled (token env) (
    if label_is (createIssue (state wz)) "No" then
      ret (Continue (goto WORKSPACE
             (store (set_branchName None) (store (set_createBranch (Some noLabel)) wz))))
    else
      choice wz branchOptions (has_label "Yes")
        (fun createBranch =>
           let wz1 := if has_description createBranch
                      then store (set_createBranch (Some createBranch)) wz else wz in
           if bool_decide (label createBranch = "Yes") then
             branchName <~ showValidatedInputBox validateBranchInput ;;
             ret (match branchName with
                  | None => Continue wz1
                  | Some b => Continue (moveToNextStep (store (set_branchName (Some b)) wz1))
                  end)
           else
             ret (Continue (moveToNextStep (store (set_branchName None) wz1))))).

Definition stepWorkspace (env : WizardEnv) (wz : Wizard) : M Outcome :=
  polled (token env) (
    choice wz workspaceOptions (has_label "No")
      (fun setupWorkspace =>
         let wz' := if has_description setupWorkspace
                    then store (set_setupWorkspace (Some setupWorkspace)) wz else wz in
         ret (Continue (moveToNextStep wz')))).

Definition stepAdvanced (env : WizardEnv) (wz : Wizard) : M Outcome :=
  polled (token env) (
    choice wz advancedOptions (has_label "No")
      (fun advancedConfig =>
         let wz1 := if has_description advancedConfig
                    then store (set_advancedConfig (Some advancedConfig)) wz else wz in
         if bool_decide (label advancedConfig = "Yes") then
           fun w =>
             let (r, w') := settingsLoop (enoughSettings w) (token env) 0 noSettings w in
             match default None r with
             | Some settings =>
                 (Return (buildResult (set_settings (Some settings) (state wz1))), w')
             | None =>
                 (Return (buildResult
                    (set_settings None (set_advancedConfig (Some noLabel) (state wz1)))), w')
             end
         else
           ret (Return (buildResult (set_settings None (state wz1)))))).

(** The body of the navigation loop. *)
Definition iteration (env : WizardEnv) (wz : Wizard) : M Outcome :=
  polled (token env)
    match currentStep wz with
    | OWNER => stepOwner env wz
    | NAME => stepName env wz
    | DESCRIPTION => stepDescription env wz
    | VISIBILITY => stepVisibility env wz
    | TEMPLATE => stepTemplate env wz
    | README => stepReadme env wz
    | LICENSE => stepLicense env wz
    | ISSUE => stepIssue env wz
    | BRANCH => stepBranch env wz
    | WORKSPACE => stepWorkspace env wz
    | ADVANCED => stepAdvanced env wz
    | DONE => ret (Continue wz)
    end.

(** [while (currentStep !== Step.DONE) { ... } return null]; the outer
    [None] means that [fuel] turns were not enough. *)
Fixpoint loop (fuel : nat) (env : WizardEnv) (wz : Wizard)
  : M (option (option CreateRepoOptions)) :=
  match fuel with
  | 0 => ret None
  | S fuel' =>
      if bool_decide (currentStep wz = DONE) then ret (Some None)
      else
        o <~ iteration env wz ;;
        match o with
        | Continue wz' => loop fuel' env wz'
        | Return r => ret (Some r)
        end
  end.

Definition start : Wizard := mkWizard emptyState OWNER.

(** Turns that are always enough: at most two per answer of the script. *)
Definition enough (w : World) : nat := 2 * length (script w) + 4.

Definition collectUserInputs (env : WizardEnv) : M (option CreateRepoOptions) :=
  c <~ isCancellationRequested (token env) ;;
  if c then ret None
  else
    tick ;;; tick ;;;
    c <~ isCancellationRequested (token env) ;;
    if c then ret None
    else fun w =>
      let (r, w') := loop (enough w) env start w in
      (default None r, w').


(* --------------------------------------------------------------------- *)
(** *** src/commands/delete.ts, called with the name of the repository *)
(* --------------------------------------------------------------------- *)

(** [deleteRepository(repoName, true)]: the silent deletion of a named
    repository, with no confirmation and no message. *)
Definition deleteRepositorySilently (proc : Process) (repoName : string) : M bool :=
  result <~ executeGhCommand None proc ("gh repo delete " +:+ repoName +:+ " --yes") ;;
  ret (gh_success result).

(* --------------------------------------------------------------------- *)
(** *** src/commands/create.ts: the orchestration *)
(* --------------------------------------------------------------------- *)

(** [interface IssueResult] *)
Record IssueResult := mkIssue {
  number : Z;
  url : string
}.

(** What the helpers of the later stages return.  They catch their own
    failures, so each one returns a value. *)
Record IssueOutcome := mkIssueOutcome {
  issue_result : option IssueResult;
  issue_error : option string
}.

Record BranchOutcome := mkBranchOutcome {
  branch_success : bool;
  branch_error : option string
}.

Record CloneOutcome := mkCloneOutcome {
  clone_path : option string;
  clone_error : option string
}.

(** What the surroundings answer to one run of the creation flow. *)
Record Env := mkEnv {
  wizard : WizardEnv;
  ghInstalled : bool;                 (* [checkGhCliInstalled] *)
  ghAuthenticated : bool;             (* [checkGhAuthenticated] *)
  existsNow : bool;                   (* [checkRepoExists(fullRepoName)] *)
  existingAction : option string;     (* the button pressed on "already exists" *)
  deleteExisting : Process;           (* [gh repo delete] for Delete and Recreate *)
  modifyEnv : Modify.Env;             (* the run of Modify Existing *)
  createProcess : Process;            (* [gh repo create] *)
  patched : ApiResult;                (* the PATCH request of the settings *)
  issued : IssueOutcome;              (* [createIssue] *)
  branchedLinked : BranchOutcome;     (* [createBranchLinkedToIssue] *)
  branched : BranchOutcome;           (* [createBranch] *)
  cloned : CloneOutcome;              (* [cloneRepository] *)
  scaffolded : string + string;       (* the workspace file written, or the error thrown *)
  opened : option string;             (* the error thrown by [vscode.openFolder], if any *)
  rollbackAction : option string;     (* the button pressed on the rollback offer *)
  deleteCreated : Process             (* [gh repo delete] for the rollback *)
}.

Definition cancelRequested (env : Env) : M bool :=
  isCancellationRequested (token (wizard env)).

(** [handleCancellationAfterCreation(fullRepoName)] *)
Definition handleCancellationAfterCreation (env : Env) (fullRepoName : string) : M unit :=
  emit (OfferRollback fullRepoName) ;;;
  tick ;;;
  if bool_decide (rollbackAction env = Some "Delete Repository") then
    deleted <~ deleteRepositorySilently (deleteCreated env) fullRepoName ;;
    if deleted then
      emit (ShowInfo ("Repository " +:+ fullRepoName +:+ " has been deleted."))
    else
      emit (ShowWarning ("Failed to delete repository " +:+ fullRepoName
                         +:+ ". You may need to delete it manually."))
  else
    emit (ShowInfo ("Repository " +:+ fullRepoName +:+ " has been kept.")).

(** [const repositoryCreated = true] *)
Definition repositoryCreated : bool := true.

(** [if (token.isCancellationRequested) { if (repositoryCreated) { await
    handleCancellationAfterCreation(fullRepoName); } return; }] in front of
    a stage [k]. *)
Definition unlessCancelled (env : Env) (fullRepoName : string) (k : M unit) : M unit :=
  c <~ cancelRequested env ;;
  if c then
    if repositoryCreated then handleCancellationAfterCreation env fullRepoName
    else ret tt
  else k.

(** The last message when no workspace is opened. *)
Definition reportStandard (fullRepoName : string) (errors : list string) : M unit :=
  if bool_decide (0 < length errors) then
    emit (ShowWarning ("Repository " +:+ fullRepoName
            +:+ " created successfully, but some operations failed: " +:+ join errors))
  else
    emit (ShowInfo ("Repository " +:+ fullRepoName +:+ " created successfully!")).

(** [// Setup workspace (optional)] *)
Definition stageSetup (env : Env) (options : CreateRepoOptions) (fullRepoName : string)
    (repoPath : option string) (errors : list string) : M unit :=
  if o_setupWorkspace options && truthy repoPath then
    c <~ cancelRequested env ;;
    if c then ret tt
    else
      emit (Scaffold (default "" repoPath)) ;;;
      tick ;;; tick ;;;
      match scaffolded env with
      | inr thrown => emit (ShowError ("Error creating repository: " +:+ thrown))
      | inl workspacePath =>
          emit (OpenFolder workspacePath) ;;;
          tick ;;;
          match opened env with
          | None => ret tt
          | Some thrown =>
              let errors := (errors ++ ["Failed to open workspace: " +:+ thrown])%list in
              if bool_decide (0 < length errors) then
                emit (ShowWarning ("Repository " +:+ fullRepoName
                        +:+ " created successfully! Workspace file created at: "
                        +:+ workspacePath
                        +:+ ". You can open it manually. Some operations failed: "
                        +:+ join errors))
              else
                emit (ShowInfo ("Repository " +:+ fullRepoName
                        +:+ " created successfully! Workspace file created at: "
                        +:+ workspacePath +:+ ". You can open it manually."))
          end
      end
  else reportStandard fullRepoName errors.

(** [// Clone repository only if workspace setup is requested] *)
Definition stageClone (env : Env) (options : CreateRepoOptions) (fullRepoName : string)
    (errors : list string) : M unit :=
  if o_setupWorkspace options then
    unlessCancelled env fullRepoName (
      emit (GhClone fullRepoName) ;;;
      tick ;;;
      let cloneResult := cloned env in
      if truthy (clone_path cloneResult) then
        stageSetup env options fullRepoName (clone_path cloneResult) errors
      else
        let errorMsg :=
          if truthy (clone_error cloneResult)
          then "Failed to clone repository: " +:+ default "" (clone_error cloneResult)
          else "Failed to clone repository for workspace setup" in
        stageSetup env options fullRepoName None (errors ++ [errorMsg])%list)
  else stageSetup env options fullRepoName None errors.

Definition branchFailure (r : BranchOutcome) : string :=
  "Failed to create branch: " +:+ orElse (branch_error r) "Unknown error".

(** [str.slice(n)] *)
Fixpoint dropChars (n : nat) (s : string) : string :=
  match n, s with
  | S n', String _ s' => dropChars n' s'
  | _, _ => s
  end.

(** [str.replace(/\.git$/, "")] *)
Definition dropGitSuffix (s : string) : string :=
  if endsWith s ".git" then String.rev (dropChars 4 (String.rev s)) else s.

(** [str.replace(/^https?:\/\/github\.com\//, "")] *)
Definition dropGithubPrefix (s : string) : string :=
  if startsWith s "https://github.com/" then dropChars 19 s
  else if startsWith s "http://github.com/" then dropChars 18 s
  else s.

(** [// Create branch if requested] *)
Definition stageBranch (env : Env) (options : CreateRepoOptions) (fullRepoName : string)
    (issueNumber : option Z) (errors : list string) : M unit :=
  if o_createBranch options then
    let checked :=
      match issueNumber with
      | Some n =>
          if (n <=? 0)%Z then (None, (errors ++ ["Invalid issue number: " +:+ pretty n])%list)
          else (Some n, errors)
      | None => (None, errors)
      end in
    let validIssueNumber := fst checked in
    let errors := snd checked in
    match validIssueNumber with
    | Some n =>
        unlessCancelled env fullRepoName (
          let branchName :=
            generateBranchName (Some n) (orElse (o_branchName options) "first-release") in
          let branchValidation := validateBranchName branchName in
          if negb (valid branchValidation) then
            stageClone env options fullRepoName
              (errors ++ ["Invalid branch name: " +:+ default "undefined" (error branchValidation)])%list
          else
            let cleanRepoName := dropGithubPrefix (dropGitSuffix fullRepoName) in
            emit (GhBranchLinked cleanRepoName n branchName) ;;;
            tick ;;;
            let branchResult := branchedLinked env in
            if negb (branch_success branchResult) then
              stageClone env options fullRepoName (errors ++ [branchFailure branchResult])%list
            else stageClone env options fullRepoName errors)
    | None =>
        unlessCancelled env fullRepoName (
          let branchName := orElse (o_branchName options) "first-release" in
          let branchValidation := validateBranchName branchName in
          if negb (valid branchValidation) then
            stageClone env options fullRepoName
              (errors ++ ["Invalid branch name: " +:+ default "undefined" (error branchValidation)])%list
          else
            emit (GhBranch fullRepoName branchName) ;;;
            tick ;;;
            let branchResult := branched env in
            if negb (branch_success branchResult) then
              stageClone env options fullRepoName (errors ++ [branchFailure branchResult])%list
            else stageClone env options fullRepoName errors)
    end
  else stageClone env options fullRepoName errors.

(** [// Create issue if requested] *)
Definition stageIssue (env : Env) (options : CreateRepoOptions) (fullRepoName : string)
    (errors : list string) : M unit :=
  if o_createIssue options then
    unlessCancelled env fullRepoName (
      emit (GhCreateIssue fullRepoName
              (orElse (o_issueTitle options) "First Release")
              (orElse (o_issueBody options) "First Release")) ;;;
      tick ;;;
      let issueResult := issued env in
      match issue_result issueResult with
      | Some r => stageBranch env options fullRepoName (Some (number r)) errors
      | None =>
          let errorMsg :=
            if truthy (issue_error issueResult)
            then "Failed to create issue: " +:+ default "" (issue_error issueResult)
            else "Failed to create issue" in
          stageBranch env options fullRepoName None (errors ++ [errorMsg])%list
      end)
  else stageBranch env options fullRepoName None errors.

(** [// Apply advanced settings if configured] *)
Definition stageSettings (env : Env) (options : CreateRepoOptions) (fullRepoName : string)
    (errors : list string) : M unit :=
  match o_settings options with
  | Some settings =>
      unlessCancelled env fullRepoName (
        settingsResult <~ applyRepositorySettings (patched env) fullRepoName settings None ;;
        if negb (success settingsResult)
           && bool_decide (0 < length (Settings.errors settingsResult)) then
          stageIssue env options fullRepoName (errors ++ Settings.errors settingsResult)%list
        else stageIssue env options fullRepoName errors)
  | None => stageIssue env options fullRepoName errors
  end.

(** The line feed *)
Definition newline : string := String (ascii_of_nat 10) "".

(** The double-quote character *)
Definition dquote : string := String (ascii_of_nat 34) "".

Definition createCommand (options : CreateRepoOptions) (fullRepoName : string) : string :=
  let base :=
    "gh repo create " +:+ fullRepoName +:+ " --" +:+ o_visibility options
    +:+ " --description " +:+ dquote +:+ o_description options +:+ dquote in
  if truthy (o_template options) then
    base +:+ " --template " +:+ default "" (o_template options)
  else
    let withReadme := if o_addReadme options then base +:+ " --add-readme" else base in
    if truthy (o_license options) && negb (bool_decide (o_license options = Some "none"))
    then withReadme +:+ " --license " +:+ default "" (o_license options)
    else withReadme.

(** [// Create repository] *)
Definition stageCreate (env : Env) (options : CreateRepoOptions) (fullRepoName : string)
  : M unit :=
  c <~ cancelRequested env ;;
  if c then ret tt
  else
    createResult <~ executeGhCommand (token (wizard env)) (createProcess env)
                      (createCommand options fullRepoName) ;;
    c <~ cancelRequested env ;;
    if gh_cancelled createResult || c then
      emit (ShowInfo "Repository creation cancelled.")
    else if negb (gh_success createResult) then
      emit (ShowError ("Failed to create repository: " +:+ gh_stderr createResult))
    else
      stageSettings env options fullRepoName [].

(** [// Check if repository exists] *)
Definition stageExists (env : Env) (options : CreateRepoOptions) (fullRepoName : string)
  : M unit :=
  c <~ cancelRequested env ;;
  if c then ret tt
  else
    tick ;;;
    if existsNow env then
      emit (OfferExisting fullRepoName) ;;;
      tick ;;;
      let action := existingAction env in
      if negb (truthy action) || bool_decide (action = Some "Skip") then
        emit (ShowInfo "Repository creation cancelled.")
      else if bool_decide (action = Some "Delete and Recreate") then
        deleted <~ deleteRepositorySilently (deleteExisting env) fullRepoName ;;
        if negb deleted then emit (ShowError "Failed to delete existing repository.")
        else stageCreate env options fullRepoName
      else if bool_decide (action = Some "Modify Existing") then
        Modify.modifyRepository (modifyEnv env) (Some fullRepoName)
      else stageCreate env options fullRepoName
    else stageCreate env options fullRepoName.

Definition createRepository (env : Env) : M unit :=
  c <~ cancelRequested env ;;
  if c then ret tt
  else
    tick ;;;
    if negb (ghInstalled env) then
      emit (ShowError "GitHub CLI (gh) is not installed. Please install it from https://cli.github.com/")
    else
      tick ;;;
      if negb (ghAuthenticated env) then
        emit (ShowError ("GitHub CLI is not authenticated. Please run: gh auth login"
                         +:+ newline
                         +:+ "(You can use SSH keys by selecting the SSH option during authentication)"))
      else
        c <~ cancelRequested env ;;
        if c then ret tt
        else
          options <~ collectUserInputs (wizard env) ;;
          match options with
          | None => ret tt
          | Some options =>
              c <~ cancelRequested env ;;
              if c then ret tt
              else
                let repoValidation := validateRepoName (o_name options) in
                if negb (valid repoValidation) then
                  emit (ShowError ("Invalid repository name: "
                                   +:+ default "undefined" (error repoValidation)))
                else
                  let fullRepoName :=
                    if truthy (o_owner options)
                    then default "" (o_owner options) +:+ "/" +:+ o_name options
                    else o_name options in
                  stageExists env options fullRepoName
          end.

End Create.

(* ===================================================================== *)
(** ** Reference definitions, written after the specification's words *)
(* ===================================================================== *)

Module Spec.
Import Host Settings.

(** How often [x] occurs in [l]. *)
Definition occurrences {A} `{EqDecision A} (x : A) (l : list A) : nat :=
  length (filter (fun y => y = x) l).

(** The tie-break policy for a current step that is not in the sequence,
    forward: go on from the first step after it, in the original order,
    that is still in the sequence. *)
Definition nearestAfter {A} `{EqDecision A} (order sequence : list A) (cur : A)
  : option A :=
  List.find (fun s => bool_decide (s ∈ sequence))
    (drop (S (Z.to_nat (indexOf order cur))) order).

(** The same policy, backward: rewind to the last step before it, in the
    original order, that is still in the sequence. *)
Definition nearestBefore {A} `{EqDecision A} (order sequence : list A) (cur : A)
  : option A :=
  List.find (fun s => bool_decide (s ∈ sequence))
    (reverse (take (Z.to_nat (indexOf order cur)) order)).

(** The steps of the creation flow in their original order. *)
Definition createOrder : list Create.Step :=
  [Create.OWNER; Create.NAME; Create.DESCRIPTION; Create.VISIBILITY; Create.TEMPLATE;
   Create.README; Create.LICENSE; Create.ISSUE; Create.BRANCH; Create.WORKSPACE;
   Create.ADVANCED; Create.DONE].

(** The value a settings object holds under the request key [k], if any. *)
Definition settingOf (k : string) (s : RepositorySettings) : option JsValue :=
  if bool_decide (k = "description") then JStr <$> description s
  else if bool_decide (k = "visibility") then JVis <$> visibility s
  else if bool_decide (k = "has_wiki") then JBool <$> hasWiki s
  else if bool_decide (k = "has_issues") then JBool <$> hasIssues s
  else if bool_decide (k = "has_projects") then JBool <$> hasProjects s
  else if bool_decide (k = "has_discussions") then JBool <$> hasDiscussions s
  else if bool_decide (k = "allow_squash_merge") then JBool <$> allowSquashMerge s
  else if bool_decide (k = "allow_merge_commit") then JBool <$> allowMergeCommit s
  else if bool_decide (k = "allow_rebase_merge") then JBool <$> allowRebaseMerge s
  else if bool_decide (k = "allow_auto_merge") then JBool <$> allowAutoMerge s
  else if bool_decide (k = "delete_branch_on_merge") then JBool <$> deleteBranchOnMerge s
  else if bool_decide (k = "allow_update_branch") then JBool <$> allowUpdateBranch s
  else if bool_decide (k = "web_commit_signoff_required")
       then JBool <$> webCommitSignoffRequired s
  else None.






(** The stages after the creation, each one on its own: the call it makes
    and the failures it reports.  A stage that is asked for runs whatever
    the stages before it reported. *)
Definition settingsStage (env : Create.Env) (o : Create.CreateRepoOptions)
    (full : string) : list Event * list string :=
  match Create.o_settings o with
  | Some s =>
      let body := buildApiSettings s None in
      if bool_decide (size body = 0) then ([], [])
      else ([GhPatch (endpointOf full) body],
            if api_success (Create.patched env) then []
            else ["Failed to apply repository settings: "
                  +:+ api_stderr (Create.patched env)])
  | None => ([], [])
  end.

Definition issueStage (env : Create.Env) (o : Create.CreateRepoOptions)
    (full : string) : list Event * list string :=
  if Create.o_createIssue o then
    ([GhCreateIssue full (Create.orElse (Create.o_issueTitle o) "First Release")
        (Create.orElse (Create.o_issueBody o) "First Release")],
     match Create.issue_result (Create.issued env) with
     | Some _ => []
     | None =>
         [if Create.truthy (Create.issue_error (Create.issued env))
          then "Failed to create issue: "
               +:+ default "" (Create.issue_error (Create.issued env))
          else "Failed to create issue"]
     end)
  else ([], []).

(** The number of the issue that the issue stage created, if any. *)
Definition issueNumber (env : Create.Env) (o : Create.CreateRepoOptions) : option Z :=
  if Create.o_createIssue o
  then Create.number <$> Create.issue_result (Create.issued env)
  else None.

(** The branch stage: linked to the issue when its number is positive,
    otherwise not linked. *)
Definition branchStage (env : Create.Env) (o : Create.CreateRepoOptions)
    (full : string) : list Event * list string :=
  if Create.o_createBranch o then
    let base := Create.orElse (Create.o_branchName o) "first-release" in
    let bad :=
      match issueNumber env o with
      | Some n => if (n <=? 0)%Z then ["Invalid issue number: " +:+ pretty n] else []
      | None => []
      end in
    let linked :=
      match issueNumber env o with
      | Some n => if (n <=? 0)%Z then None else Some n
      | None => None
      end in
    let branchName := Validation.generateBranchName linked base in
    let validation := Validation.validateBranchName branchName in
    if negb (Validation.valid validation) then
      ([], (bad ++ ["Invalid branch name: "
                    +:+ default "undefined" (Validation.error validation)])%list)
    else
      match linked with
      | Some n =>
          ([GhBranchLinked (Create.dropGithubPrefix (Create.dropGitSuffix full)) n
              branchName],
           (bad ++ if Create.branch_success (Create.branchedLinked env) then []
                   else [Create.branchFailure (Create.branchedLinked env)])%list)
      | None =>
          ([GhBranch full branchName],
           (bad ++ if Create.branch_success (Create.branched env) then []
                   else [Create.branchFailure (Create.branched env)])%list)
      end
  else ([], []).

Definition cloneStage (env : Create.Env) (o : Create.CreateRepoOptions)
    (full : string) : list Event * list string :=
  if Create.o_setupWorkspace o then
    ([GhClone full],
     if Create.truthy (Create.clone_path (Create.cloned env)) then []
     else [if Create.truthy (Create.clone_error (Create.cloned env))
           then "Failed to clone repository: "
                +:+ default "" (Create.clone_error (Create.cloned env))
           else "Failed to clone repository for workspace setup"])
  else ([], []).

(** The calls of the stages after the creation, in order. *)
Definition laterCalls (env : Create.Env) (o : Create.CreateRepoOptions)
    (full : string) : list Event :=
  (fst (settingsStage env o full) ++ fst (issueStage env o full)
   ++ fst (branchStage env o full) ++ fst (cloneStage env o full))%list.

(** The failures of the stages after the creation, in order. *)
Definition laterFailures (env : Create.Env) (o : Create.CreateRepoOptions)
    (full : string) : list string :=
  (snd (settingsStage env o full) ++ snd (issueStage env o full)
   ++ snd (branchStage env o full) ++ snd (cloneStage env o full))%list.

(** The workspace was asked for and the clone gave its path. *)
Definition workspaceReady (env : Create.Env) (o : Create.CreateRepoOptions) : bool :=
  Create.o_setupWorkspace o && Create.truthy (Create.clone_path (Create.cloned env)).

(** The one message at the end of a run that opens no workspace. *)
Definition finalMessage (full : string) (failures : list string) : Event :=
  match failures with
  | [] => ShowInfo ("Repository " +:+ full +:+ " created successfully!")
  | _ => ShowWarning ("Repository " +:+ full
           +:+ " created successfully, but some operations failed: " +:+ join failures)
  end.

(** Whether an event is a rollback offer. *)
Definition isOffer (e : Event) : bool :=
  match e with OfferRollback _ => true | _ => false end.

(** How many rollback offers a trace holds. *)
Definition rollbackOffers (tr : list Event) : nat := length (List.filter isOffer tr).

(** A computation that makes no rollback offer. *)
Definition quiet {A} (m : M A) : Prop :=
  forall w, rollbackOffers (trace (snd (m w))) = rollbackOffers (trace w).

(** A computation that makes at most one rollback offer. *)
Definition atMostOnce {A} (m : M A) : Prop :=
  forall w, rollbackOffers (trace (snd (m w))) <= rollbackOffers (trace w) + 1.

End Spec.

(* ===================================================================== *)
(** ** Measures for the termination of the navigation loops *)
(* ===================================================================== *)

Module Measure.
Import Host.

(** Modification flow: the position of the current step, counted from one;
    zero when the step is not in the sequence. *)
Definition modifyRank (wz : Modify.Wizard) : nat :=
  Z.to_nat (indexOf (Modify.getStepSequence (Modify.selectedCategory wz))
              (Modify.currentStep wz) + 1).

(** The categories under which a step of the modification flow is shown. *)
Definition applicable (s : Modify.Step) : list string :=
  match s with
  | Modify.BASIC_DESCRIPTION | Modify.BASIC_VISIBILITY => ["basic"; "all"]
  | Modify.FEATURES_WIKI | Modify.FEATURES_ISSUES | Modify.FEATURES_PROJECTS
  | Modify.FEATURES_DISCUSSIONS => ["features"; "all"]
  | Modify.PR_SQUASH | Modify.PR_MERGE | Modify.PR_REBASE | Modify.PR_AUTO
  | Modify.PR_DELETE_BRANCH | Modify.PR_UPDATE_BRANCH => ["pr"; "all"]
  | Modify.GENERAL_SIGNOFF => ["general"; "all"]
  | Modify.CATEGORY | Modify.DONE => []
  end.

(** Creation flow: a turn that goes on either uses up an answer of the
    script, or is one of the two turns that ask nothing (the name step
    without an owner, the branch step without an issue) and leads to a step
    that asks. *)
Definition createProgress (wz : Create.Wizard) (w : World) (o : Create.Outcome)
    (w' : World) : Prop :=
  match o with
  | Create.Return _ => True
  | Create.Continue wz' =>
      length (script w') < length (script w)
      \/ (script w' = script w
          /\ (Create.currentStep wz = Create.NAME
              \/ Create.currentStep wz = Create.BRANCH)
          /\ (Create.currentStep wz' = Create.OWNER
              \/ Create.currentStep wz' = Create.WORKSPACE))
  end.

(** Creation flow: the turns a step may take before an answer is used up. *)
Definition createWeight (s : Create.Step) : nat :=
  if bool_decide (s = Create.NAME \/ s = Create.BRANCH) then 2 else 1.

End Measure.

(* ===================================================================== *)
(** ** Concrete inputs used by the examples below *)
(* ===================================================================== *)

Module Samples.
Import Host Settings.

(** A creation wizard that holds a template and stands on README. *)
Definition onReadmeWithTemplate : Create.Wizard :=
  Create.mkWizard (Create.set_template (Some "o/t") Create.emptyState) Create.README.

(** A creation wizard that holds a template and stands on LICENSE. *)
Definition onLicenseWithTemplate : Create.Wizard :=
  Create.mkWizard (Create.set_template (Some "o/t") Create.emptyState) Create.LICENSE.

(** A modification wizard of category basic that stands on a step of the
    pull-request category. *)
Definition onSquashInBasic : Modify.Wizard :=
  Modify.mkWizard noSettings Modify.PR_SQUASH (Some "basic").

(** A user with one organization; no repository name is taken; no
    cancellation. *)
Definition wizardEnv : Create.WizardEnv :=
  Create.mkWizardEnv None (Some "me") ["org"] (fun _ => false).

Definition onTemplate : Create.Wizard :=
  Create.mkWizard Create.emptyState Create.TEMPLATE.

(** "Yes" at the template step, then the name of the template. *)
Definition templateYes : World := mkWorld 0 [Accept 2; Text "o/t"] [].

(** "No" at a step whose pick starts with the back item. *)
Definition answerNo : World := mkWorld 0 [Accept 1] [].

(** The back item at a step. *)
Definition answerBack : World := mkWorld 0 [Accept 0] [].

Definition itemYes : Item :=
  mkItem "Yes" None (Some "Create from a template repository").


(** The wizard after [templateYes]. *)
Definition afterTemplateYes : Create.Wizard :=
  Create.mkWizard
    (Create.set_license None
       (Create.set_addReadme (Some Create.noLabel)
          (Create.set_template (Some "o/t")
             (Create.set_useTemplate (Some itemYes) Create.emptyState))))
    Create.ISSUE.


Definition onIssue : Create.Wizard := Create.mkWizard Create.emptyState Create.ISSUE.

(** A wizard on the branch step whose issue answer was "No". *)
Definition onBranchWithoutIssue : Create.Wizard :=
  Create.mkWizard
    (Create.set_createIssue (Some (mkItem "No" None (Some "Skip issue creation")))
       Create.emptyState)
    Create.BRANCH.

(** A wizard on the advanced step with the required values stored. *)
Definition onAdvanced : Create.Wizard :=
  Create.mkWizard
    (Create.set_visibility (Some "private")
       (Create.set_name (Some "repo")
          (Create.set_selectedOwner
             (Some (mkItem "me (Personal)" (Some "me") (Some "Your personal account")))
             Create.emptyState)))
    Create.ADVANCED.

(** Advanced "Yes", issues off, projects kept, then back three times. *)
Definition advancedBackOut : World :=
  mkWorld 0 [Accept 2; Accept 2; Accept 1; Accept 0; Accept 0; Accept 0] [].

Definition advancedYes : Item :=
  mkItem "Yes" None (Some "Enable issues, projects, merge options, etc.").

Definition advancedNo : Item := mkItem "No" None (Some "Use default settings").

(** The settings of the remote repository. *)
Definition remote : RepositorySettings :=
  mkSettings (Some "demo") (Some public) (Some true) (Some true) (Some true) (Some false)
    (Some true) (Some true) (Some true) (Some false) (Some false) (Some false)
    (Some false).

(** Features, wiki off, back from issues, back from wiki, then General and
    its one setting as it is. *)
Definition throughFeatures : World :=
  mkWorld 0 [Accept 1; Accept 2; Accept 0; Accept 0; Accept 3; Accept 1] [].

(** General and its one setting as it is. *)
Definition generalOnly : World := mkWorld 0 [Accept 3; Accept 1] [].

(** Features, wiki off, the other three as they are. *)
Definition wikiOff : World :=
  mkWorld 0 [Accept 1; Accept 2; Accept 1; Accept 1; Accept 1] [].

(** A modification wizard on the first step of the features category, with
    a description already entered. *)
Definition onWiki : Modify.Wizard :=
  Modify.mkWizard (set_description "new" noSettings) Modify.FEATURES_WIKI
    (Some "features").

(** A run of the modification flow on the repository [remote]. *)
Definition modifyEnv : Modify.Env :=
  Modify.mkEnv None [] (Some remote) (mkApiResult true "").

Definition fine : Process := mkProcess true "" "" "".

Definition failed : Process :=
  mkProcess false "" "name already exists" "Error: Command failed: gh repo create".

(** Owner, name, description, private, no template, no README, no license,
    an issue with the proposed title and body, no branch, a workspace, no
    advanced settings. *)
Definition answers : list Response :=
  [Accept 0; Text "repo"; Text "demo"; Accept 1; Accept 1; Accept 1; Accept 1;
   Accept 2; Text "First Release"; Text "First Release"; Accept 2; Accept 2; Accept 1].

Definition flowWorld : World := mkWorld 0 answers [].

(** The options that the wizard returns on [answers]. *)
Definition flowOptions : Create.CreateRepoOptions :=
  Create.mkOptions "repo" "demo" "private" (Some "me") None false None true
    (Some "First Release") (Some "First Release") false None true None.

(** The same options without the workspace. *)
Definition plainOptions : Create.CreateRepoOptions :=
  Create.mkOptions "repo" "demo" "private" (Some "me") None false None true
    (Some "First Release") (Some "First Release") false None false None.

(** A run of the creation flow: every remote call succeeds, except the
    creation of the issue when [issueFails] and the opening of the workspace
    when [openFails]; cancellation is requested at [token]. *)
Definition flowEnv (token : option nat) (issueFails openFails : bool) : Create.Env :=
  Create.mkEnv
    (Create.mkWizardEnv token (Some "me") [] (fun _ => false))
    true true false None fine
    (Modify.mkEnv None [] None (mkApiResult true ""))
    fine (mkApiResult true "")
    (if issueFails then Create.mkIssueOutcome None (Some "boom")
     else Create.mkIssueOutcome
            (Some (Create.mkIssue 1 "https://github.com/me/repo/issues/1")) None)
    (Create.mkBranchOutcome true None) (Create.mkBranchOutcome true None)
    (Create.mkCloneOutcome (Some "/home/me/workspace/repo") None)
    (inl "/home/me/workspace/repo/repo.code-workspace")
    (if openFails then Some "no window" else None)
    (Some "Delete Repository") fine.

(** The same run with a creation that fails. *)
Definition refusedEnv : Create.Env :=
  Create.mkEnv
    (Create.mkWizardEnv None (Some "me") [] (fun _ => false))
    true true false None fine
    (Modify.mkEnv None [] None (mkApiResult true ""))
    failed (mkApiResult true "")
    (Create.mkIssueOutcome None (Some "boom"))
    (Create.mkBranchOutcome true None) (Create.mkBranchOutcome true None)
    (Create.mkCloneOutcome (Some "/home/me/workspace/repo") None)
    (inl "/home/me/workspace/repo/repo.code-workspace") None
    (Some "Delete Repository") fine.

End Samples.

(* ===================================================================== *)
(** ** src/commands/create.ts: the helpers of the later stages *)
(* ===================================================================== *)

Module CreateHelpers.
Import Validation Host Create.

(** [a || b] on two strings: [a] unless it is empty. *)
Definition either (a b : string) : string :=
  if bool_decide (a = "") then b else a.

(** The class [\d]. *)
Definition is_digit (c : ascii) : bool := in_range 48 57 c.

(** The class [[^\s]]. *)
Definition not_space (c : ascii) : bool := negb (is_ws c).

(** What is left of [s] behind the literal [lit], when [s] starts with it. *)
Fixpoint stripPrefix (lit s : string) : option string :=
  match lit, s with
  | "", _ => Some s
  | String a lit', String b s' =>
      if bool_decide (a = b) then stripPrefix lit' s' else None
  | String _ _, "" => None
  end.

(** The longest run of characters of the class at the start of [s]. *)
Fixpoint takeWhile (cls : ascii -> bool) (s : string) : string :=
  match s with
  | "" => ""
  | String c s' => if cls c then String c (takeWhile cls s') else ""
  end.

(** A match of [/lit[cls]+/] at the start of [s]: the run of the class,
    which the greedy [+] takes whole. *)
Definition matchAt (lit : string) (cls : ascii -> bool) (s : string) : option string :=
  match stripPrefix lit s with
  | Some rest =>
      let run := takeWhile cls rest in
      if bool_decide (run = "") then None else Some run
  | None => None
  end.

(** [s.match(/lit[cls]+/)]: the leftmost match. *)
Fixpoint firstMatch (lit : string) (cls : ascii -> bool) (s : string) : option string :=
  match matchAt lit cls s with
  | Some run => Some run
  | None =>
      match s with
      | "" => None
      | String _ s' => firstMatch lit cls s'
      end
  end.

Definition digitValue (c : ascii) : Z := (Z.of_nat (nat_of_ascii c) - 48)%Z.

(** The integer that a string of decimal digits denotes, read from the
    left with the value [acc] of the digits before it. *)
Fixpoint digitsFrom (acc : Z) (digits : string) : Z :=
  match digits with
  | "" => acc
  | String c digits' => digitsFrom (10 * acc + digitValue c)%Z digits'
  end.

Definition mathInt (digits : string) : Z := digitsFrom 0 digits.

(** [parseInt(digits, 10)] on a string of decimal digits.  A number is a
    double: up to 2^53 it is the integer that the digits denote; a larger
    one is rounded, and is left out of the model. *)
Definition parseInt (digits : string) : option Z :=
  let n := mathInt digits in
  if bool_decide (n <= 2 ^ 53)%Z then Some n else None.

(** [`gh issue create --repo ${repoName} --title "${title}" --body "${body}"`] *)
Definition issueCommand (repoName title body : string) : string :=
  "gh issue create --repo " +:+ repoName +:+ " --title " +:+ dquote +:+ title +:+ dquote
  +:+ " --body " +:+ dquote +:+ body +:+ dquote.

(** The error of [createIssue] when the command fails. *)
Definition issueFailure (repoName : string) (result : GhCommandResult) : string :=
  let errorMsg := either (gh_stderr result) (either (gh_stdout result) "Unknown error") in
  if includes errorMsg "disabled" || includes errorMsg "not enabled" then
    "Issues are disabled for repository " +:+ repoName
    +:+ ". Enable issues in repository settings."
  else if includes errorMsg "not found" || includes errorMsg "404" then
    "Repository " +:+ repoName +:+ " not found or you don't have access to it."
  else if includes errorMsg "permission" || includes errorMsg "403" then
    "Permission denied. You may not have permission to create issues in "
    +:+ repoName +:+ "."
  else errorMsg.

Definition issueError (msg : string) : IssueOutcome := mkIssueOutcome None (Some msg).

(** [createIssue(repoName, title, body)], from the [result] of the command
    [issueCommand repoName title body] on.  [latest] is the answer of the
    request for the latest issue, made when the output holds no address: the
    issues it lists (an answer that is no array counts as one issue), or
    nothing when the request fails, has no data or throws.  The result is
    [None] only where [parseInt] leaves the model. *)
Definition createIssue (repoName : string) (result : GhCommandResult)
    (latest : option (list IssueResult)) : option IssueOutcome :=
  if negb (gh_success result) then
    Some (issueError (issueFailure repoName result))
  else
    let output := either (gh_stdout result) (either (gh_stderr result) "") in
    match firstMatch "https://github.com/" not_space output with
    | None =>
        match latest with
        | Some (latestIssue :: _) => Some (mkIssueOutcome (Some latestIssue) None)
        | _ =>
            Some (issueError "Issue created but could not retrieve issue details. Check the repository for the new issue.")
        end
    | Some run =>
        let issueUrl := "https://github.com/" +:+ run in
        match firstMatch "/issues/" is_digit issueUrl with
        | None => Some (issueError "Issue created but could not parse issue number from URL.")
        | Some digits =>
            match parseInt digits with
            | None => None
            | Some issueNumber =>
                if bool_decide (issueNumber = 0%Z) then
                  Some (issueError "Issue created but could not parse issue number from URL.")
                else Some (mkIssueOutcome (Some (mkIssue issueNumber issueUrl)) None)
            end
        end
    end.

(** How [execFileAsync("gh", args)] ends: with the error stream of the
    process, or by throwing an error that may have the properties [stderr],
    [stdout] and [message]. *)
Inductive ExecOutcome :=
| Exited (stderr : string)
| Thrown (stderr stdout message : option string).

Definition branchError (msg : string) : BranchOutcome := mkBranchOutcome false (Some msg).

(** The text of the error that was thrown:
    [execError.stderr || execError.stdout || execError.message || "Unknown error"] *)
Definition thrownText (stderr stdout message : option string) : string :=
  orElse stderr (orElse stdout (orElse message "Unknown error")).

(** [createBranchLinkedToIssue(repoName, issueNumber, branchName)], from the
    end of [gh issue develop <issueNumber> -R <repoName> --name <branchName>]
    on. *)
Definition createBranchLinkedToIssue (exec : ExecOutcome) (repoName : string)
    (issueNumber : Z) (branchName : string) : BranchOutcome :=
  match exec with
  | Exited _ => mkBranchOutcome true None
  | Thrown stderr stdout message =>
      let errorMsg := thrownText stderr stdout message in
      if includes errorMsg "not found" || includes errorMsg "404" then
        branchError ("Issue #" +:+ pretty issueNumber +:+ " not found in repository "
                     +:+ repoName +:+ ": " +:+ errorMsg)
      else if includes errorMsg "permission" || includes errorMsg "403" then
        branchError ("Permission denied. You may not have permission to create branch for issue #"
                     +:+ pretty issueNumber +:+ ": " +:+ errorMsg)
      else if includes errorMsg "disabled" || includes errorMsg "not enabled" then
        branchError ("Issues are disabled for repository " +:+ repoName +:+ ": " +:+ errorMsg)
      else if includes errorMsg "already exists" then
        branchError ("Branch " +:+ branchName +:+ " already exists: " +:+ errorMsg)
      else
        branchError ("Failed to create branch linked to issue: " +:+ errorMsg)
  end.

End CreateHelpers.

(* ===================================================================== *)
(** ** src/commands/delete.ts *)
(* ===================================================================== *)

Module Delete.
Import Host.

(** [interface RepositoryInfo] (src/utils/git.ts) *)
Record RepositoryInfo := mkRepositoryInfo {
  name : string;
  fullName : string;
  description : option string;
  visibility : option string;
  isPrivate : option bool
}.

(** [vscode.QuickPickItem], with the properties that the command sets *)
Record QuickPickItem := mkQuickPickItem {
  label : string;
  itemDescription : string;
  detail : option string
}.

(** What the surroundings of one run of the command answer. *)
Record Env := mkEnv {
  currentUser : option string;                       (* [getCurrentUser()] *)
  organizations : list string;                       (* [getUserOrganizations()] *)
  repositoriesOf : string -> list RepositoryInfo;    (* [getUserRepositories(owner)] *)
  localeCompare : string -> string -> Z;             (* [a.localeCompare(b)] *)
  confirmation : option string;                      (* the button pressed on the confirmation *)
  deleteProcess : Process                            (* [gh repo delete] *)
}.

(** [uniqueRepos.has(fullName)], on the values of the map in the order of
    their insertion *)
Definition has (uniqueRepos : list RepositoryInfo) (key : string) : bool :=
  existsb (fun r => bool_decide (fullName r = key)) uniqueRepos.

(** [if (repo.fullName && !uniqueRepos.has(repo.fullName))
    uniqueRepos.set(repo.fullName, repo)] *)
Definition remember (uniqueRepos : list RepositoryInfo) (repo : RepositoryInfo)
  : list RepositoryInfo :=
  if negb (bool_decide (fullName repo = "")) && negb (has uniqueRepos (fullName repo))
  then (uniqueRepos ++ [repo])%list
  else uniqueRepos.

(** [for (const repo of allRepos) { ... }] from the empty map on *)
Definition deduplicate (allRepos : list RepositoryInfo) : list RepositoryInfo :=
  fold_left remember allRepos [].

(** [Array.prototype.sort] is stable: with a comparator that orders the
    elements consistently, as [localeCompare] does, the result is the one of
    the stable insertion sort, which puts an element in front of the later
    ones that compare equal to it. *)
Fixpoint insertSorted (compare : string -> string -> Z) (r : RepositoryInfo)
    (sorted : list RepositoryInfo) : list RepositoryInfo :=
  match sorted with
  | [] => [r]
  | x :: rest =>
      if bool_decide (compare (fullName r) (fullName x) <= 0)%Z then r :: sorted
      else x :: insertSorted compare r rest
  end.

Definition sortByFullName (compare : string -> string -> Z) (l : list RepositoryInfo)
  : list RepositoryInfo :=
  fold_right (fun r sorted => insertSorted compare r sorted) [] l.

(** [await getUserRepositories(owner)] *)
Definition getUserRepositories (env : Env) (owner : string) : M (list RepositoryInfo) :=
  tick ;;;
  ret (repositoriesOf env owner).

(** [for (const org of organizations) { allRepos.push(...await
    getUserRepositories(org)) }] *)
Fixpoint forOrganizations (env : Env) (orgs : list string)
    (allRepos : list RepositoryInfo) : M (list RepositoryInfo) :=
  match orgs with
  | [] => ret allRepos
  | org :: rest =>
      orgRepos <~ getUserRepositories env org ;;
      forOrganizations env rest (allRepos ++ orgRepos)%list
  end.

(** The repositories of the user and of the organizations, as the progress
    callback returns them. *)
Definition loadRepositories (env : Env) : M (list RepositoryInfo) :=
  tick ;;;
  tick ;;;
  userRepos <~ (if Create.truthy (currentUser env)
                then getUserRepositories env (default "" (currentUser env))
                else ret []) ;;
  allRepos <~ forOrganizations env (organizations env) userRepos ;;
  ret (sortByFullName (localeCompare env) (deduplicate allRepos)).

Definition toItem (repo : RepositoryInfo) : QuickPickItem :=
  mkQuickPickItem (fullName repo)
    (Create.orElse (description repo) "")
    (if Create.truthy (visibility repo)
     then Some ("Visibility: " +:+ default "" (visibility repo)) else None).

(** [vscode.window.showQuickPick(items, ...)]: the item that is accepted,
    or nothing. *)
Definition showQuickPick (items : list QuickPickItem) : M (option QuickPickItem) :=
  r <~ nextResponse ;;
  ret (match r with
       | Accept i => items !! i
       | _ => None
       end).

(** The lower case of the code units below 256: of A-Z and of the capital
    letters of Latin-1. *)
Definition lower_unit (c : ascii) : ascii :=
  let n := nat_of_ascii c in
  if Validation.in_range 65 90 c || Validation.in_range 192 214 c
     || Validation.in_range 216 222 c
  then ascii_of_nat (n + 32) else c.

Fixpoint toLowerCase (s : string) : string :=
  match s with
  | "" => ""
  | String c s' => String (lower_unit c) (toLowerCase s')
  end.

Definition deleteCommand (targetRepo : string) : string :=
  "gh repo delete " +:+ targetRepo +:+ " --yes".

Definition missingScopeMessage : string :=
  "Failed to delete repository: Missing required permissions." +:+ Create.newline +:+ Create.newline
  +:+ "The delete operation requires the " +:+ Create.dquote +:+ "delete_repo"
  +:+ Create.dquote +:+ " scope. To fix this, run:" +:+ Create.newline +:+ Create.newline
  +:+ "gh auth refresh -h github.com -s delete_repo" +:+ Create.newline +:+ Create.newline
  +:+ "Then try deleting the repository again.".

(** The choice of the repository when no name is given. *)
Definition selectRepository (env : Env) : M (option string) :=
  repos <~ loadRepositories env ;;
  if bool_decide (length repos = 0) then
    emit (ShowWarning "No repositories found. Make sure you have access to at least one repository.") ;;;
    ret None
  else
    selected <~ showQuickPick (map toItem repos) ;;
    ret (label <$> selected).

(** The run of the command and its report.  [executeGhCommand] throws
    nothing, so the [catch] of the source is never entered.  The button of
    the message about the missing scope is answered after the command has
    returned. *)
Definition runDelete (env : Env) (targetRepo : string) (silent : bool) : M bool :=
  result <~ executeGhCommand None (deleteProcess env) (deleteCommand targetRepo) ;;
  if negb (gh_success result) then
    (if negb silent then
       let errorText := toLowerCase (gh_stderr result) in
       if Validation.includes errorText "delete_repo"
          || (Validation.includes errorText "403"
              && Validation.includes errorText "admin rights")
       then emit (ShowError missingScopeMessage)
       else emit (ShowError ("Failed to delete repository: " +:+ gh_stderr result))
     else ret tt) ;;;
    ret false
  else
    (if negb silent then
       emit (ShowInfo ("Repository " +:+ targetRepo +:+ " deleted successfully."))
     else ret tt) ;;;
    ret true.

(** [deleteRepository(repoName, silent)] *)
Definition deleteRepository (env : Env) (repoName : option string) (silent : bool)
  : M bool :=
  targetRepo <~ (if Create.truthy repoName then ret repoName else selectRepository env) ;;
  match targetRepo with
  | None => ret false
  | Some targetRepo =>
      confirmed <~ (if negb silent then
                      emit (ShowWarning ("Are you sure you want to delete repository "
                                         +:+ Create.dquote +:+ targetRepo
                                         +:+ Create.dquote
                                         +:+ "? This action cannot be undone.")) ;;;
                      tick ;;;
                      ret (bool_decide (confirmation env = Some "Delete"))
                    else ret true) ;;
      if negb confirmed then ret false
      else runDelete env targetRepo silent
  end.

End Delete.

(* ===================================================================== *)
(** ** Kinds of events and what a computation keeps out of the trace *)
(* ===================================================================== *)

Module Trace.
Import Host.

(** A computation that adds no event of the kind [P] to the trace. *)
Definition avoids {A} (P : Event -> bool) (m : M A) : Prop :=
  forall w, List.filter P (trace (snd (m w))) = List.filter P (trace w).

(** The information message with the text [msg]. *)
Definition isInfo (msg : string) (e : Event) : bool :=
  match e with ShowInfo m => bool_decide (m = msg) | _ => false end.

(** A [gh repo create] command. *)
Definition isCreateCommand (e : Event) : bool :=
  match e with
  | GhCommand command => Validation.startsWith command "gh repo create "
  | _ => false
  end.

(** A [gh repo delete] command. *)
Definition isDeleteCommand (e : Event) : bool :=
  match e with
  | GhCommand command => Validation.startsWith command "gh repo delete "
  | _ => false
  end.

(** The error message about a repository name that is not valid. *)
Definition isInvalidRepoName (e : Event) : bool :=
  match e with
  | ShowError msg => Validation.startsWith msg "Invalid repository name: "
  | _ => false
  end.

(** A call of [createBranch], which links the branch to no issue. *)
Definition isPlainBranch (e : Event) : bool :=
  match e with
  | GhBranch _ _ => true
  | _ => false
  end.

(** A message shown to the user. *)
Definition isMessage (e : Event) : bool :=
  match e with
  | ShowError _ | ShowWarning _ | ShowInfo _ => true
  | _ => false
  end.

End Trace.

(* ===================================================================== *)
(** ** What the remote system answers *)
(* ===================================================================== *)

Module Remote.

(** The address of the issue [n] of the repository [owner/repo], which
    [gh issue create] prints when it has created the issue. *)
Definition issueAddress (owner repo : string) (n : Z) : string :=
  "https://github.com/" +:+ owner +:+ "/" +:+ repo +:+ "/issues/" +:+ pretty n.

(** All that is listed for the deletion: the repositories of the user,
    then the ones of each organization. *)
Definition listedRepositories (env : Delete.Env) : list Delete.RepositoryInfo :=
  ((if Create.truthy (Delete.currentUser env)
    then Delete.repositoriesOf env (default "" (Delete.currentUser env))
    else [])
   ++ flat_map (Delete.repositoriesOf env) (Delete.organizations env))%list.

End Remote.

(* ===================================================================== *)
(** ** What the creation wizard keeps true from turn to turn *)
(* ===================================================================== *)

Module Invariants.
Import Host Create.

(** The branch step is reached with an answer to the issue question only,
    and behind it a branch is wanted only for an issue that is wanted. *)
Definition branchAfterIssue (wz : Wizard) : Prop :=
  match currentStep wz with
  | BRANCH =>
      label_is (createIssue (state wz)) "Yes" = true
      \/ label_is (createIssue (state wz)) "No" = true
  | WORKSPACE | ADVANCED =>
      label_is (createBranch (state wz)) "Yes" = true ->
      label_is (createIssue (state wz)) "Yes" = true
  | _ => True
  end.



End Invariants.

(* ===================================================================== *)
(** ** More runs, for the properties of the helpers and of the wizards *)
(* ===================================================================== *)

Module Runs.
Import Host Settings.

(** Owner, name, description, private, no template, no README, no license,
    an issue with the proposed title and body, a branch with the proposed
    name, a workspace, no advanced settings. *)
Definition branchAnswers : list Response :=
  [Accept 0; Text "repo"; Text "demo"; Accept 1; Accept 1; Accept 1; Accept 1;
   Accept 2; Text "First Release"; Text "First Release"; Accept 1; Text "first-release";
   Accept 2; Accept 1].

Definition branchWorld : World := mkWorld 0 branchAnswers [].

(** The options that the wizard returns on [branchAnswers]. *)
Definition optionsWithBranch : Create.CreateRepoOptions :=
  Create.mkOptions "repo" "demo" "private" (Some "me") None false None true
    (Some "First Release") (Some "First Release") true (Some "first-release") true None.

(** A run of the creation flow on a name that is taken; the user skips. *)
Definition existingEnv : Create.Env :=
  Create.mkEnv
    (Create.mkWizardEnv None (Some "me") [] (fun _ => false))
    true true true (Some "Skip") Samples.fine
    (Modify.mkEnv None [] None (mkApiResult true ""))
    Samples.fine (mkApiResult true "")
    (Create.mkIssueOutcome None (Some "boom"))
    (Create.mkBranchOutcome true None) (Create.mkBranchOutcome true None)
    (Create.mkCloneOutcome (Some "/home/me/workspace/repo") None)
    (inl "/home/me/workspace/repo/repo.code-workspace") None
    (Some "Delete Repository") Samples.fine.

(** The output of [gh issue create] for the issue 12 of octo/demo. *)
Definition issuePrinted : GhCommandResult :=
  mkGhResult true "https://github.com/octo/demo/issues/12" "" false.

(** The same for an address that ends in the number 0. *)
Definition issueZero : GhCommandResult :=
  mkGhResult true "https://github.com/octo/demo/issues/0" "" false.

(** A deletion with nothing listed, in which the user presses the button
    [button] and the command succeeds. *)
Definition deleteEnv (button : option string) : Delete.Env :=
  Delete.mkEnv None [] (fun _ => []) (fun _ _ => 0%Z) button Samples.fine.

Definition idle : World := mkWorld 0 [] [].


(** The answers of [Samples.answers] without the workspace. *)
Definition plainAnswers : list Response :=
  [Accept 0; Text "repo"; Text "demo"; Accept 1; Accept 1; Accept 1; Accept 1;
   Accept 2; Text "First Release"; Text "First Release"; Accept 2; Accept 1; Accept 1].

Definition plainWorld : World := mkWorld 0 plainAnswers [].


End Runs.

(* ===================================================================== *)
(** * Properties *)
(* ===================================================================== *)

Import Host Settings.

(** ** Proof steps shared by the proofs below *)

(** Decide the comparisons of closed terms in the goal by evaluation. *)
Ltac eval_decides :=
  repeat match goal with
    | |- context [@bool_decide ?P ?d] =>
        let b := eval vm_compute in (@bool_decide P d) in
        match b with true => idtac | false => idtac end;
        change (@bool_decide P d) with b
    end.

(** Run a turn of the creation wizard on an answer that is known. *)
Ltac wizard_eval :=
  repeat (progress (cbn; unfold has_label, Create.label_is, Create.has_description,
                      Create.truthy;
                    eval_decides)).

(** The same, with the settings prompts and the rest of the script kept
    folded. *)
Ltac advanced_eval :=
  repeat (progress (cbn -[Create.settingsLoop Create.enoughSettings consume];
                    unfold has_label, Create.label_is, Create.has_description,
                      Create.truthy;
                    eval_decides)).

(** Case analysis on the category of the modification flow: one of the
    five names, the empty name, another name, or none. *)
Ltac by_category cat :=
  let c := fresh "c" in
  destruct cat as [c|];
  [ destruct (decide (c = "")) as [->|?];
    [|destruct (decide (c = "basic")) as [->|?];
    [|destruct (decide (c = "features")) as [->|?];
    [|destruct (decide (c = "pr")) as [->|?];
    [|destruct (decide (c = "general")) as [->|?];
    [|destruct (decide (c = "all")) as [->|?]]]]]]
  | ];
  unfold Modify.getStepSequence;
  repeat match goal with
    | |- context [bool_decide (?x = ?y)] =>
        rewrite (bool_decide_eq_false_2 (x = y)) by congruence
    end.

(** Arithmetic on the length of the script after its head is known. *)
Ltac len_solve :=
  try match goal with H : script ?w = _ |- _ => rewrite ?H in * end;
  cbn [length Nat.pred] in *; lia.


(** ** Validation *)

Section ValidationFacts.
Import Validation.

Lemma trimEnd_idemp s : trimEnd (trimEnd s) = trimEnd s.
Proof.
  induction s as [|c s IH]; [done|].
  cbn [trimEnd]. destruct (trimEnd s) as [|d u] eqn:E.
  - destruct (is_ws c) eqn:W; [done|]. cbn. by rewrite W.
  - cbn [trimEnd] in *. by rewrite IH.
Qed.

Lemma trimStart_head s :
  trimStart s = "" \/ exists c r, trimStart s = String c r /\ is_ws c = false.
Proof.
  induction s as [|c s IH]; [by left|].
  cbn. destruct (is_ws c) eqn:W; [done|]. right. by exists c, s.
Qed.

Lemma trimEnd_head c r :
  is_ws c = false -> exists r', trimEnd (String c r) = String c r'.
Proof.
  intros W. cbn. destruct (trimEnd r); [rewrite W|]; eauto.
Qed.

Lemma trim_idemp s : trim (trim s) = trim s.
Proof.
  unfold trim. destruct (trimStart_head s) as [E|(c & r & E & W)]; rewrite E.
  - done.
  - destruct (trimEnd_head c r W) as [r' E']. rewrite E'.
    cbn [trimStart]. rewrite W, <- E'. apply trimEnd_idemp.
Qed.

Lemma length_zero_empty s : (String.length s =? 0)%nat = bool_decide (s = "").
Proof. by destruct s. Qed.

Lemma empty_test s :
  bool_decide (s = "") || (String.length (trim s) =? 0)%nat
  = bool_decide (trim s = "").
Proof.
  rewrite length_zero_empty. destruct s; [done|].
  rewrite (bool_decide_eq_false_2 (String _ _ = "")); done.
Qed.

Lemma validateRepoName_trim s : validateRepoName (trim s) = validateRepoName s.
Proof.
  unfold validateRepoName. rewrite !empty_test, !trim_idemp. done.
Qed.

Lemma validateBranchName_trim s : validateBranchName (trim s) = validateBranchName s.
Proof.
  unfold validateBranchName. rewrite !empty_test, !trim_idemp. done.
Qed.

End ValidationFacts.

(** C9. [generateBranchName(5, "feature")] is ["5-feature"],
    [generateBranchName(undefined, "main")] is ["main"] and
    [generateBranchName(0, "x")] is ["x"]: a zero issue number counts as
    absent. *)
Theorem generateBranchName_examples :
  Validation.generateBranchName (Some 5%Z) "feature" = "5-feature"
  /\ Validation.generateBranchName None "main" = "main"
  /\ Validation.generateBranchName (Some 0%Z) "x" = "x".
Proof. repeat split; vm_compute; reflexivity. Qed.

(** C10. For every string [s], [validateRepoName] and [validateBranchName]
    answer on [s] exactly what they answer on [s.trim()] (the same valid
    flag, and the same message), and a string whose trimmed form is empty
    (the empty string, or white space only) is rejected as empty. *)
Theorem validators_ignore_surrounding_space (s : string) :
  Validation.validateRepoName s = Validation.validateRepoName (Validation.trim s)
  /\ Validation.validateBranchName s = Validation.validateBranchName (Validation.trim s)
  /\ (Validation.trim s = "" ->
      Validation.validateRepoName s
        = Validation.mkResult false (Some "Repository name cannot be empty")
      /\ Validation.validateBranchName s
        = Validation.mkResult false (Some "Branch name cannot be empty")).
Proof.
  rewrite validateRepoName_trim, validateBranchName_trim.
  split; [done|]. split; [done|]. intros E.
  unfold Validation.validateRepoName, Validation.validateBranchName.
  rewrite !empty_test, E. done.
Qed.

Lemma validators_ignore_surrounding_space_witness :
  Validation.trim "  	 " = ""
  /\ Validation.validateRepoName "  	 "
     = Validation.mkResult false (Some "Repository name cannot be empty")
  /\ Validation.valid (Validation.validateBranchName "  a/b ")
     = Validation.valid (Validation.validateBranchName "a/b").
Proof.
  split; [reflexivity|]. split.
  - apply (proj2 (proj2 (validators_ignore_surrounding_space "  	 "))). reflexivity.
  - rewrite (proj1 (proj2 (validators_ignore_surrounding_space "  a/b "))). reflexivity.
Defined.

(** ** The step sequencers *)

Section SequencerFacts.

Lemma indexOf_lower {A} `{EqDecision A} (l : list A) (x : A) : (-1 <= indexOf l x)%Z.
Proof.
  induction l as [|y l IH]; cbn; [lia|].
  case_bool_decide; [lia|]. destruct (Z.ltb_spec (indexOf l x) 0); lia.
Qed.

Lemma indexOf_absent {A} `{EqDecision A} (l : list A) (x : A) :
  x ∉ l -> indexOf l x = (-1)%Z.
Proof.
  induction l as [|y l IH]; intros Hx; cbn; [done|].
  apply not_elem_of_cons in Hx as [Hne Hx].
  rewrite bool_decide_eq_false_2 by congruence.
  rewrite (IH Hx). done.
Qed.

Lemma indexOf_present {A} `{EqDecision A} (l : list A) (x : A) :
  x ∈ l -> (0 <= indexOf l x)%Z /\ l !! Z.to_nat (indexOf l x) = Some x.
Proof.
  induction l as [|y l IH]; intros Hx; [by apply elem_of_nil in Hx|].
  cbn. case_bool_decide as E; [by subst|].
  apply elem_of_cons in Hx as [->|Hx]; [done|].
  destruct (IH Hx) as [Hpos Hlook].
  destruct (Z.ltb_spec (indexOf l x) 0); [lia|].
  split; [lia|]. replace (Z.to_nat (indexOf l x + 1)) with (S (Z.to_nat (indexOf l x))) by lia.
  done.
Qed.

Lemma indexOf_lookup {A} `{EqDecision A} (l : list A) (i : nat) (x : A) :
  NoDup l -> l !! i = Some x -> indexOf l x = Z.of_nat i.
Proof.
  intros Hnd. revert i. induction Hnd as [|y l Hy Hnd IH]; intros i Hi; [done|].
  destruct i as [|i]; cbn in *.
  - injection Hi as ->. by rewrite bool_decide_eq_true_2.
  - rewrite bool_decide_eq_false_2.
    + rewrite (IH _ Hi). destruct (Z.ltb_spec (Z.of_nat i) 0); lia.
    + intros ->. apply Hy. by eapply list_elem_of_lookup_2.
Qed.

End SequencerFacts.

(** C8. For every wizard state of the creation flow and every category of
    the modification flow, the computed step sequence holds no step twice,
    holds the terminal step [DONE] exactly once, and ends with it. *)
Theorem step_sequences_well_formed :
  (forall st : Create.StepState,
     NoDup (Create.getStepSequence st)
     /\ Spec.occurrences Create.DONE (Create.getStepSequence st) = 1
     /\ last (Create.getStepSequence st) = Some Create.DONE)
  /\ (forall category : option string,
     NoDup (Modify.getStepSequence category)
     /\ Spec.occurrences Modify.DONE (Modify.getStepSequence category) = 1
     /\ last (Modify.getStepSequence category) = Some Modify.DONE).
Proof.
  split.
  - intros st. unfold Create.getStepSequence.
    destruct (Create.truthy _); (split; [by apply (bool_decide_unpack _)|done]).
  - intros category. unfold Modify.getStepSequence.
    destruct category as [c|]; repeat case_bool_decide;
      (split; [by apply (bool_decide_unpack _)|done]).
Qed.

(** C6, the claim refuted.  With a template stored, README is not in the
    sequence.  The tie-break policy asks a forward move from README to go on
    with ISSUE and a backward move to rewind to TEMPLATE; [getNextStep]
    answers DONE and [moveToPreviousStep] stays on README. *)
Lemma absent_step_policy_counterexample :
  (Create.currentStep Samples.onReadmeWithTemplate
     ∉ Create.getStepSequence (Create.state Samples.onReadmeWithTemplate))
  /\ Spec.nearestAfter Spec.createOrder
       (Create.getStepSequence (Create.state Samples.onReadmeWithTemplate))
       Create.README = Some Create.ISSUE
  /\ Spec.nearestBefore Spec.createOrder
       (Create.getStepSequence (Create.state Samples.onReadmeWithTemplate))
       Create.README = Some Create.TEMPLATE
  /\ Some (Create.getNextStep Samples.onReadmeWithTemplate)
     <> Spec.nearestAfter Spec.createOrder
          (Create.getStepSequence (Create.state Samples.onReadmeWithTemplate))
          Create.README
  /\ Some (Create.currentStep (Create.moveToPreviousStep Samples.onReadmeWithTemplate))
     <> Spec.nearestBefore Spec.createOrder
          (Create.getStepSequence (Create.state Samples.onReadmeWithTemplate))
          Create.README.
Proof.
  split; [by apply (bool_decide_unpack _)|].
  split; [reflexivity|]. split; [reflexivity|].
  split; vm_compute; discriminate.
Qed.

(** C6, amended.  When the current step is not in the freshly computed
    sequence, a forward request answers the terminal step DONE and a
    backward request leaves the wizard where it is, in both flows. *)
Theorem absent_step_navigation :
  (forall wz : Create.Wizard,
     Create.currentStep wz ∉ Create.getStepSequence (Create.state wz) ->
     Create.getNextStep wz = Create.DONE /\ Create.moveToPreviousStep wz = wz)
  /\ (forall wz : Modify.Wizard,
     Modify.currentStep wz ∉ Modify.getStepSequence (Modify.selectedCategory wz) ->
     Modify.getNextStep wz = Modify.DONE /\ Modify.moveToPreviousStep wz = wz).
Proof.
  split; intros wz Habs.
  - unfold Create.getNextStep, Create.moveToPreviousStep.
    rewrite (indexOf_absent _ _ Habs). done.
  - unfold Modify.getNextStep, Modify.moveToPreviousStep.
    rewrite (indexOf_absent _ _ Habs). done.
Qed.

Lemma absent_step_navigation_witness :
  (Create.getNextStep Samples.onLicenseWithTemplate = Create.DONE
   /\ Create.moveToPreviousStep Samples.onLicenseWithTemplate
      = Samples.onLicenseWithTemplate)
  /\ (Modify.getNextStep Samples.onSquashInBasic = Modify.DONE
      /\ Modify.moveToPreviousStep Samples.onSquashInBasic = Samples.onSquashInBasic).
Proof.
  split.
  - apply (proj1 absent_step_navigation). by apply (bool_decide_unpack _).
  - apply (proj2 absent_step_navigation). by apply (bool_decide_unpack _).
Defined.

(** ** The navigation loops return *)

Lemma not_requested token w :
  fst (isCancellationRequested token w) = false ->
  isCancellationRequested token w = (false, w).
Proof. unfold isCancellationRequested. cbn. by intros ->. Qed.

Lemma poll_cases token w :
  isCancellationRequested token w = (true, w)
  \/ isCancellationRequested token w = (false, w).
Proof. unfold isCancellationRequested. destruct token; [case_bool_decide|]; auto. Qed.

Lemma consume_length w : length (script (consume w)) = pred (length (script w)).
Proof. unfold consume. cbn. by destruct (script w). Qed.

Section ModifyTermination.
Import Modify Measure.

Lemma category_in_two wz a b :
  category_in wz [a; b]
  = bool_decide (selectedCategory wz = Some a) || bool_decide (selectedCategory wz = Some b).
Proof.
  unfold category_in. cbn [map]. rewrite <- bool_decide_or.
  apply bool_decide_ext. rewrite !elem_of_cons, elem_of_nil. tauto.
Qed.

Lemma modify_sequence_shape cat :
  NoDup (getStepSequence cat) /\ head (getStepSequence cat) = Some CATEGORY
  /\ length (getStepSequence cat) <= 15.
Proof.
  by_category cat; (split; [by apply (bool_decide_unpack _)|]);
    (split; [vm_compute; reflexivity | vm_compute; lia]).
Qed.

(** The guard of a step holds exactly when the step is in the sequence. *)
Lemma applicable_iff m s cat :
  s <> CATEGORY -> s <> DONE ->
  category_in (mkWizard m s cat) (applicable s) = bool_decide (s ∈ getStepSequence cat).
Proof.
  intros H1 H2. destruct s; try done; cbn [applicable]; rewrite category_in_two;
    cbn [selectedCategory]; by_category cat; vm_compute; reflexivity.
Qed.

Lemma modifyRank_bound wz : modifyRank wz <= 15.
Proof.
  unfold modifyRank.
  destruct (modify_sequence_shape (selectedCategory wz)) as (Hnd & _ & Hlen).
  destruct (decide (currentStep wz ∈ getStepSequence (selectedCategory wz))) as [Hin|Hout].
  - destruct (indexOf_present _ _ Hin) as [Hpos Hlook].
    apply lookup_lt_Some in Hlook. lia.
  - rewrite (indexOf_absent _ _ Hout). lia.
Qed.

Lemma previous_lowers_rank m s cat :
  s <> CATEGORY -> s ∈ getStepSequence cat ->
  modifyRank (moveToPreviousStep (mkWizard m s cat)) < modifyRank (mkWizard m s cat).
Proof.
  intros Hs Hin. destruct (modify_sequence_shape cat) as (Hnd & Hhd & _).
  destruct (indexOf_present _ _ Hin) as [Hpos Hlook].
  unfold modifyRank, moveToPreviousStep. cbn [selectedCategory currentStep].
  destruct (Z.ltb_spec 0 (indexOf (getStepSequence cat) s)) as [Hgt|Hle].
  - destruct (getStepSequence cat !! Z.to_nat (indexOf (getStepSequence cat) s - 1))
      as [p|] eqn:Hp.
    + cbn. rewrite (indexOf_lookup _ _ _ Hnd Hp). lia.
    + apply lookup_ge_None in Hp. apply lookup_lt_Some in Hlook. lia.
  - exfalso. apply Hs. replace (indexOf (getStepSequence cat) s) with 0%Z in Hlook by lia.
    rewrite <- head_lookup in Hlook. congruence.
Qed.

Lemma modify_prompt_consumes token cur back w :
  isCancellationRequested token w = (false, w) ->
  exists r, promptBooleanSetting token cur back w = (r, consume w)
            /\ (script w = [] -> r = None).
Proof.
  intros Hc. unfold promptBooleanSetting, bind at 1. rewrite Hc.
  unfold bind, showPick, nextResponse, ret.
  eexists. split; [reflexivity|]. intros ->. done.
Qed.

Lemma modify_booleanStep_progress token dflt set m s cat w o w' :
  isCancellationRequested token w = (false, w) ->
  s <> CATEGORY -> s <> DONE ->
  (if category_in (mkWizard m s cat) (applicable s)
   then booleanStep token dflt set (mkWizard m s cat)
   else ret (Continue (moveToNextStep (mkWizard m s cat)))) w = (o, w') ->
  match o with
  | Return _ => True
  | Continue wz' =>
      (w' = w /\ currentStep wz' = DONE)
      \/ (w' = consume w
          /\ (script w = [] -> modifyRank wz' < modifyRank (mkWizard m s cat)))
  end.
Proof.
  intros Hc H1 H2. rewrite applicable_iff by done. case_bool_decide as Hin.
  - unfold booleanStep, bind.
    destruct (modify_prompt_consumes token dflt true w Hc) as (r & -> & Hr).
    unfold ret. intros [= <- <-]. destruct r as [v|].
    + right. split; [done|]. intros Hs. by specialize (Hr Hs).
    + right. split; [done|]. intros _. by apply previous_lowers_rank.
  - unfold ret. intros [= <- <-]. left. split; [done|].
    cbn. unfold getNextStep. cbn. by rewrite (indexOf_absent _ _ Hin).
Qed.

(** A turn that goes on either reaches DONE, or uses up an answer; once
    the script is used up, every prompt is hidden and the turn goes one
    step back. *)
Lemma modify_iteration_progress token cur wz w o w' :
  iteration token cur wz w = (o, w') ->
  match o with
  | Return _ => True
  | Continue wz' =>
      (w' = w /\ currentStep wz' = DONE)
      \/ (w' = consume w /\ (script w = [] -> modifyRank wz' < modifyRank wz))
  end.
Proof.
  unfold iteration, bind at 1.
  destruct (isCancellationRequested token w) as [c w0] eqn:E.
  assert (w0 = w) as -> by (unfold isCancellationRequested in E; congruence).
  destruct c; [by intros [= <- <-]|].
  destruct wz as [m s cat].
  destruct s; cbn [currentStep];
    try (by apply (modify_booleanStep_progress token)).
  - (* CATEGORY *)
    unfold bind, showPick, nextResponse, ret. intros [= <- <-].
    destruct (script w) as [|r rest] eqn:Hs; cbn; [done|].
    repeat (case_match; try done); right; (split; [done|done]).
  - (* BASIC_DESCRIPTION *)
    change (category_in _ ["basic"; "all"])
      with (category_in (mkWizard m BASIC_DESCRIPTION cat) (applicable BASIC_DESCRIPTION)).
    rewrite applicable_iff by done. case_bool_decide as Hin.
    + unfold bind, showInputBox, nextResponse, ret. intros [= <- <-].
      destruct (script w) as [|r rest] eqn:Hs; cbn.
      * right. split; [done|]. intros _. by apply previous_lowers_rank.
      * destruct r; right; (split; [done|done]).
    + unfold ret. intros [= <- <-]. left. split; [done|].
      cbn. unfold getNextStep. cbn. by rewrite (indexOf_absent _ _ Hin).
  - (* BASIC_VISIBILITY *)
    change (category_in _ ["basic"; "all"])
      with (category_in (mkWizard m BASIC_VISIBILITY cat) (applicable BASIC_VISIBILITY)).
    rewrite applicable_iff by done. case_bool_decide as Hin.
    + unfold bind, showPick, nextResponse, ret. intros [= <- <-].
      destruct (script w) as [|r rest] eqn:Hs; cbn.
      * right. split; [done|]. intros _. by apply previous_lowers_rank.
      * repeat (case_match; try done); right; (split; [done|done]).
    + unfold ret. intros [= <- <-]. left. split; [done|].
      cbn. unfold getNextStep. cbn. by rewrite (indexOf_absent _ _ Hin).
  - (* DONE *)
    unfold ret. intros [= <- <-]. left. split; [done|]. cbn.
    unfold getNextStep. cbn.
    destruct (modify_sequence_shape cat) as (Hnd & _ & _).
    by_category cat; done.
Qed.

Lemma modify_loop_enough token cur fuel wz w :
  (script w <> [] -> length (script w) + 17 <= fuel) ->
  (script w = [] -> modifyRank wz + 2 <= fuel) ->
  fst (loop fuel token cur wz w) <> None.
Proof.
  revert wz w. induction fuel as [|fuel IH]; intros wz w Hne He.
  { destruct (script w); [specialize (He eq_refl)|specialize (Hne ltac:(done))]; lia. }
  cbn [loop]. case_bool_decide as Hd; [done|].
  unfold bind. destruct (iteration token cur wz w) as [o w'] eqn:Hit.
  pose proof (modify_iteration_progress _ _ _ _ _ _ Hit) as Hp.
  destruct o as [wz'|r]; [|done].
  destruct Hp as [[-> Hdone]|[-> Hrank]].
  - destruct fuel as [|fuel]; [|cbn [loop]; by rewrite bool_decide_eq_true_2].
    destruct (script w); [specialize (He eq_refl)|specialize (Hne ltac:(done))]; lia.
  - apply IH; cbn.
    + intros Hs. destruct (script w) as [|r rest]; [done|]. cbn in *.
      specialize (Hne ltac:(done)). lia.
    + intros Hs. destruct (script w) as [|r rest].
      * specialize (He eq_refl). specialize (Hrank eq_refl). lia.
      * specialize (Hne ltac:(done)). pose proof (modifyRank_bound wz'). cbn in *. lia.
Qed.

End ModifyTermination.

(** X19.  The navigation loop of the modification flow returns within the
    turns that [collectModifications] gives it, on every script. *)
Theorem modify_loop_returns token cur w :
  fst (Modify.loop (Modify.enough w) token cur Modify.start w) <> None.
Proof.
  apply modify_loop_enough; unfold Modify.enough; [lia|].
  intros _. pose proof (modifyRank_bound Modify.start). lia.
Qed.

Section CreateTermination.
Import Create Measure.

Lemma awaitValid_shorter validate rs :
  length (snd (awaitValid validate rs)) <= pred (length rs)
  /\ (fst (awaitValid validate rs) <> None -> rs <> []).
Proof.
  induction rs as [|r rs IH]; cbn; [done|].
  destruct r; cbn; try (split; [lia|done]).
  destruct (validate s); cbn; (split; [lia|done]).
Qed.

Lemma create_prompt_script token dflt back w :
  length (script (snd (promptBooleanSetting token dflt back w))) <= length (script w)
  /\ (fst (promptBooleanSetting token dflt back w) <> None ->
      snd (promptBooleanSetting token dflt back w) = consume w /\ script w <> []).
Proof.
  unfold promptBooleanSetting, bind, isCancellationRequested, showPick, nextResponse, ret.
  destruct token as [t|]; [case_bool_decide|]; cbn; (split; [try lia|try done]).
  all: try (destruct (script w); cbn; lia).
  all: intros Hr; (split; [done|]); intros E; rewrite E in Hr; done.
Qed.

Lemma settingsLoop_enough token fuel i settings w :
  2 * length (script w) + i + 1 <= fuel ->
  fst (settingsLoop fuel token i settings w) <> None
  /\ length (script (snd (settingsLoop fuel token i settings w))) <= length (script w).
Proof.
  revert i settings w. induction fuel as [|fuel IH]; intros i settings w Hf; [lia|].
  cbn [settingsLoop]. destruct (settingPrompts !! i) as [p|] eqn:Hp; [|done].
  unfold bind.
  pose proof (create_prompt_script token (defaultValue p) true w) as [Hlen Hsome].
  destruct (promptBooleanSetting token (defaultValue p) true w) as [r w'] eqn:E.
  cbn in Hlen, Hsome. destruct r as [v|].
  - destruct (Hsome ltac:(done)) as [-> Hne].
    assert (Hc : S (length (script (consume w))) = length (script w)).
    { unfold consume. cbn. by destruct (script w). }
    destruct (IH (S i) (setKey p v settings) (consume w)) as [H1 H2]; [lia|].
    split; [done|lia].
  - destruct i as [|i]; [split; [done|cbn; lia]|].
    destruct (IH i settings w') as [H1 H2]; [lia|]. split; [done|lia].
Qed.

Lemma polled_progress token k wz w o w' :
  (forall o w', k w = (o, w') -> createProgress wz w o w') ->
  polled token k w = (o, w') -> createProgress wz w o w'.
Proof.
  intros Hk. unfold polled, bind, isCancellationRequested.
  destruct (match token with Some t => _ | None => _ end).
  - by intros [= <- <-].
  - apply Hk.
Qed.

Lemma choice_progress wz options dflt k w o w' :
  (forall it o w', k it (consume w) = (o, w') ->
     match o with
     | Return _ => True
     | Continue _ => length (script w') <= length (script (consume w))
     end) ->
  choice wz options dflt k w = (o, w') -> createProgress wz w o w'.
Proof.
  intros Hk. unfold choice, pickOrDefault, bind, showPick, nextResponse, ret.
  destruct (script w) as [|r rest] eqn:Hs.
  { cbn. rewrite Hs. cbn. by intros [= <- <-]. }
  assert (Hc : length (script (consume w)) < length (script w)).
  { unfold consume. rewrite Hs. cbn. lia. }
  cbn. rewrite Hs. cbn [head default].
  repeat (case_match; try (by intros [= <- <-])).
  all: try (intros [= <- <-]; left; done).
  all: intros Hit; apply Hk in Hit; destruct o; [left; lia|done].
Qed.

Lemma showValidatedInputBox_script validate w :
  length (script (snd (showValidatedInputBox validate w))) <= pred (length (script w))
  /\ (fst (showValidatedInputBox validate w) <> None -> script w <> []).
Proof.
  unfold showValidatedInputBox. pose proof (awaitValid_shorter validate (script w)).
  destruct (awaitValid validate (script w)). done.
Qed.

Lemma create_iteration_progress env wz w o w' :
  currentStep wz <> DONE ->
  iteration env wz w = (o, w') -> createProgress wz w o w'.
Proof.
  intros Hd. unfold iteration. apply polled_progress. clear o w'. intros o w'.
  destruct wz as [st s]. destruct s; cbn [currentStep] in *; try done.
  - (* OWNER *)
    pose proof (consume_length w) as Hc.
    unfold stepOwner, bind, showPick, nextResponse, ret. intros [= <- <-].
    destruct (script w) as [|r rest] eqn:Hs; cbn [head default]; [done|].
    unfold createProgress. repeat (case_match; try done); left; len_solve.
  - (* NAME *)
    unfold stepName. case_match.
    + unfold bind, emit, ret. intros [= <- <-]. right. cbn. split; [done|]. split; [by left|].
      left. unfold moveToPreviousStep, getStepSequence. cbn. by destruct (truthy (template st)).
    + unfold bind, ret.
      pose proof (showValidatedInputBox_script
        (validateNameInput env (default "" (selectedOwner st ≫= value))) w) as [Hl Hne].
      destruct (showValidatedInputBox _ w) as [r w1] eqn:E. cbn in Hl, Hne.
      intros [= <- <-]. destruct r; [|done]. specialize (Hne ltac:(done)).
      destruct (script w) as [|r rest] eqn:Hs; [done|].
      unfold createProgress. repeat (case_match; try done); left; len_solve.
  - (* DESCRIPTION *)
    unfold stepDescription. apply polled_progress. clear o w'. intros o w'.
    pose proof (consume_length w) as Hc.
    unfold bind, showInputBox, nextResponse, ret. intros [= <- <-].
    destruct (script w) as [|r rest] eqn:Hs; cbn [head default]; [done|].
    unfold createProgress. repeat (case_match; try done); left; len_solve.
  - (* VISIBILITY *)
    unfold stepVisibility. apply polled_progress. clear o w'. intros o w'.
    apply choice_progress. intros it o2 w2. unfold ret. by intros [= <- <-].
  - (* TEMPLATE *)
    unfold stepTemplate. apply polled_progress. clear o w'. intros o w'.
    apply choice_progress. intros it o2 w2.
    unfold showInputBox, nextResponse, bind, ret.
    repeat case_match; intros [= <- <-]; repeat case_match;
      rewrite ?consume_length; try done; lia.
  - (* README *)
    unfold stepReadme. apply polled_progress. clear o w'. intros o w'.
    apply choice_progress. intros it o2 w2. unfold ret. by intros [= <- <-].
  - (* LICENSE *)
    unfold stepLicense.
    apply choice_progress. intros it o2 w2. unfold ret. by intros [= <- <-].
  - (* ISSUE *)
    unfold stepIssue. apply polled_progress. clear o w'. intros o w'.
    apply choice_progress. intros it o2 w2.
    unfold showInputBox, nextResponse, bind, ret.
    repeat case_match; intros [= <- <-]; repeat case_match;
      rewrite ?consume_length; try done; lia.
  - (* BRANCH *)
    unfold stepBranch. apply polled_progress. clear o w'. intros o w'.
    case_match.
    + unfold ret. intros [= <- <-]. right. cbn. auto.
    + apply choice_progress. intros it o2 w2. unfold bind, ret.
      repeat case_match; intros [= <- <-]; repeat case_match; try done;
        rewrite ?consume_length; try lia.
      all: match goal with
           | H : showValidatedInputBox _ _ = _ |- _ =>
               pose proof (showValidatedInputBox_script validateBranchInput (consume w))
                 as [Hl _];
               rewrite H, consume_length in Hl; cbn [fst snd] in Hl; lia
           end.
  - (* WORKSPACE *)
    unfold stepWorkspace. apply polled_progress. clear o w'. intros o w'.
    apply choice_progress. intros it o2 w2. unfold ret. by intros [= <- <-].
  - (* ADVANCED *)
    unfold stepAdvanced. apply polled_progress. clear o w'. intros o w'.
    apply choice_progress. intros it o2 w2. unfold ret.
    repeat case_match; by intros [= <- <-].
Qed.

Lemma create_loop_enough env fuel wz w :
  2 * length (script w) + createWeight (currentStep wz) <= fuel ->
  fst (loop fuel env wz w) <> None.
Proof.
  revert wz w. induction fuel as [|fuel IH]; intros wz w Hf.
  { unfold createWeight in Hf. case_bool_decide; lia. }
  cbn [loop]. case_bool_decide as Hd; [done|].
  unfold bind. destruct (iteration env wz w) as [o w'] eqn:Hit.
  pose proof (create_iteration_progress _ _ _ _ _ Hd Hit) as Hp.
  destruct o as [wz'|r]; [|done]. cbn in Hp. apply IH.
  destruct Hp as [Hlt|(Hs & Hfrom & Hto)].
  - unfold createWeight in *. repeat case_bool_decide; lia.
  - rewrite Hs. unfold createWeight in *.
    rewrite (bool_decide_eq_true_2 _ Hfrom) in Hf.
    rewrite bool_decide_eq_false_2; [lia|].
    destruct Hto as [-> | ->]; intros [?|?]; done.
Qed.

End CreateTermination.

(** X20.  The settings prompts of the advanced step return within the
    turns that the step gives them, on every script. *)
Theorem settingsLoop_returns token w :
  fst (Create.settingsLoop (Create.enoughSettings w) token 0 noSettings w) <> None.
Proof. apply settingsLoop_enough. unfold Create.enoughSettings. lia. Qed.

(** X18.  The navigation loop of the creation flow returns within the
    turns that [collectUserInputs] gives it, on every script. *)
Theorem create_loop_returns env w :
  fst (Create.loop (Create.enough w) env Create.start w) <> None.
Proof.
  apply create_loop_enough. unfold Create.enough.
  change (Measure.createWeight (Create.currentStep Create.start)) with 1. lia.
Qed.

(** ** The creation wizard: the template, issue and branch steps *)

Section CreateFacts.
Import Create.

(** Unfold one turn of the loop whose token is not requested. *)
Ltac enter_step Hc :=
  unfold iteration, polled, bind at 1; rewrite (not_requested _ _ Hc);
  cbn [currentStep].

Lemma canGoBack_from_template st : canGoBack (mkWizard st TEMPLATE) = true.
Proof. unfold canGoBack, getCurrentStepNumber, getStepSequence. cbn. by destruct (truthy _). Qed.

Lemma canGoBack_late st s :
  s ∈ [ISSUE; BRANCH; WORKSPACE; ADVANCED] -> canGoBack (mkWizard st s) = true.
Proof.
  intros Hs. unfold canGoBack, getCurrentStepNumber, getStepSequence. cbn.
  destruct (truthy _); cbn;
    repeat (apply elem_of_cons in Hs as [->|Hs]; [done|]); by apply elem_of_nil in Hs.
Qed.

(** C3.  (i) "Yes" at the template step followed by a template name leads
    to ISSUE, the step after README and LICENSE, and stores "No" for the
    README and nothing for the license.  (ii) "No" at the issue step leads
    to BRANCH, and the branch step then asks nothing: it stores "No" for
    the branch, no branch name, and leads to WORKSPACE.  (iii) These are
    the only two special edges: every turn that goes on stays on its step,
    goes to the previous step, goes to the next step of the sequence of the
    updated answers, or is one of the two. *)
Theorem conditional_edges :
  (forall env st w i t rest it,
     fst (isCancellationRequested (token env) w) = false ->
     script w = Accept i :: Text t :: rest ->
     addBackOption templateOptions (canGoBack (mkWizard st TEMPLATE)) !! i = Some it ->
     label it = "Yes" ->
     exists wz',
       iteration env (mkWizard st TEMPLATE) w = (Continue wz', consume (consume w))
       /\ currentStep wz' = ISSUE
       /\ template (state wz') = Some t
       /\ addReadme (state wz') = Some noLabel
       /\ license (state wz') = None)
  /\ (forall env st w i rest it,
     fst (isCancellationRequested (token env) w) = false ->
     script w = Accept i :: rest ->
     addBackOption issueOptions (canGoBack (mkWizard st ISSUE)) !! i = Some it ->
     label it = "No" ->
     exists wz',
       iteration env (mkWizard st ISSUE) w = (Continue wz', consume w)
       /\ currentStep wz' = BRANCH
       /\ label_is (createIssue (state wz')) "No" = true)
  /\ (forall env st w,
     fst (isCancellationRequested (token env) w) = false ->
     label_is (createIssue st) "No" = true ->
     exists wz',
       iteration env (mkWizard st BRANCH) w = (Continue wz', w)
       /\ currentStep wz' = WORKSPACE
       /\ createBranch (state wz') = Some noLabel
       /\ branchName (state wz') = None)
  /\ (forall env wz w wz' w',
     iteration env wz w = (Continue wz', w') ->
     currentStep wz' = currentStep wz
     \/ wz' = moveToPreviousStep wz
     \/ currentStep wz' = getNextStep (mkWizard (state wz') (currentStep wz))
     \/ (currentStep wz = TEMPLATE /\ currentStep wz' = ISSUE
         /\ label_is (useTemplate (state wz')) "Yes" = true)
     \/ (currentStep wz = BRANCH /\ currentStep wz' = WORKSPACE
         /\ label_is (createIssue (state wz)) "No" = true)).
Proof.
  split; [|split; [|split]].
  - intros env st w i t rest it Hc Hs Hi Hl. enter_step Hc.
    unfold stepTemplate, polled, bind at 1. rewrite (not_requested _ _ Hc).
    unfold choice, pickOrDefault, showPick, showInputBox, nextResponse, bind, ret.
    rewrite canGoBack_from_template in *.
    destruct i as [|[|[|i]]]; cbn in Hi; simplify_eq; try done.
    unfold consume at 1 2 3 4. rewrite Hs. wizard_eval.
    eexists; (split; [reflexivity|]); done.
  - intros env st w i rest it Hc Hs Hi Hl. enter_step Hc.
    unfold stepIssue, polled, bind at 1. rewrite (not_requested _ _ Hc).
    unfold choice, pickOrDefault, showPick, showInputBox, nextResponse, bind, ret.
    rewrite canGoBack_late in * by (repeat constructor).
    rewrite Hs.
    destruct i as [|[|[|i]]]; cbn in Hi; simplify_eq; try done; wizard_eval.
    all: eexists; (split; [reflexivity|]); cbn; split; [|done];
      unfold getNextStep, getStepSequence; cbn; by destruct (truthy _).
  - intros env st w Hc Hno. enter_step Hc.
    unfold stepBranch, polled, bind at 1. rewrite (not_requested _ _ Hc).
    cbn [state]. rewrite Hno. unfold ret. eexists; (split; [reflexivity|]); done.
  - intros env [st s] w wz' w'.
    unfold iteration, polled, stepOwner, stepName, stepDescription, stepVisibility,
      stepTemplate, stepReadme, stepLicense, stepIssue, stepBranch, stepWorkspace,
      stepAdvanced, polled, choice, pickOrDefault, showPick, showInputBox,
      showValidatedInputBox, nextResponse, emit, bind, ret, isCancellationRequested.
    destruct s; cbn [currentStep state];
      repeat (case_match; try discriminate); intros [= <- <-]; cbn [currentStep state];
      first [ by left
            | by (right; left)
            | by (right; right; left)
            | right; right; left; reflexivity
            | right; right; right; left; split; [done|]; split; [done|];
              cbn; unfold label_is; cbn; done
            | by (right; right; right; right; auto) ].
Qed.

Lemma conditional_edges_witness :
  (exists wz',
     iteration Samples.wizardEnv Samples.onTemplate Samples.templateYes
       = (Continue wz', consume (consume Samples.templateYes))
     /\ currentStep wz' = ISSUE
     /\ template (state wz') = Some "o/t"
     /\ addReadme (state wz') = Some noLabel
     /\ license (state wz') = None)
  /\ (exists wz',
     iteration Samples.wizardEnv Samples.onIssue Samples.answerNo
       = (Continue wz', consume Samples.answerNo)
     /\ currentStep wz' = BRANCH
     /\ label_is (createIssue (state wz')) "No" = true)
  /\ (exists wz',
     iteration Samples.wizardEnv Samples.onBranchWithoutIssue Samples.answerNo
       = (Continue wz', Samples.answerNo)
     /\ currentStep wz' = WORKSPACE
     /\ createBranch (state wz') = Some noLabel
     /\ branchName (state wz') = None)
  /\ (currentStep Samples.afterTemplateYes = currentStep Samples.onTemplate
     \/ Samples.afterTemplateYes = moveToPreviousStep Samples.onTemplate
     \/ currentStep Samples.afterTemplateYes
        = getNextStep (mkWizard (state Samples.afterTemplateYes)
                         (currentStep Samples.onTemplate))
     \/ (currentStep Samples.onTemplate = TEMPLATE
         /\ currentStep Samples.afterTemplateYes = ISSUE
         /\ label_is (useTemplate (state Samples.afterTemplateYes)) "Yes" = true)
     \/ (currentStep Samples.onTemplate = BRANCH
         /\ currentStep Samples.afterTemplateYes = WORKSPACE
         /\ label_is (createIssue (state Samples.onTemplate)) "No" = true)).
Proof.
  split; [|split; [|split]].
  - apply (proj1 conditional_edges Samples.wizardEnv emptyState Samples.templateYes
             2 "o/t" [] Samples.itemYes); reflexivity.
  - apply (proj1 (proj2 conditional_edges) Samples.wizardEnv emptyState Samples.answerNo
             1 [] (mkItem "No" None (Some "Skip issue creation"))); reflexivity.
  - apply (proj1 (proj2 (proj2 conditional_edges)) Samples.wizardEnv
             (state Samples.onBranchWithoutIssue) Samples.answerNo); reflexivity.
  - apply (proj2 (proj2 (proj2 conditional_edges)) Samples.wizardEnv Samples.onTemplate
             Samples.templateYes Samples.afterTemplateYes
             (consume (consume Samples.templateYes))).
    reflexivity.
Defined.

End CreateFacts.

(** ** Back on the first step of a sub-flow *)

(** C5, the claim refuted.  In the modification flow the user enters the
    features category, turns the wiki off, goes back to the first step of
    the category and back again to the category step, then enters the
    general category and leaves its one setting as it is.  The run returns
    the wiki value entered inside the features category; a run that never
    entered that category returns no wiki value. *)
Lemma modify_back_keeps_counterexample :
  fst (Modify.collectModifications None Samples.remote Samples.throughFeatures)
    = Some (set_webCommitSignoffRequired false (set_hasWiki false noSettings))
  /\ fst (Modify.collectModifications None Samples.remote Samples.generalOnly)
    = Some (set_webCommitSignoffRequired false noSettings)
  /\ fst (Modify.collectModifications None Samples.remote Samples.throughFeatures)
     <> fst (Modify.collectModifications None Samples.remote Samples.generalOnly).
Proof. split; [|split]; vm_compute; (reflexivity || discriminate). Qed.

Lemma buildResult_ignores_advancedConfig a st :
  Create.buildResult (Create.set_advancedConfig a st) = Create.buildResult st.
Proof. done. Qed.

(** C5, amended.  (a) Creation flow: when the user answers "Yes" at the
    advanced step and then backs out of the first settings prompt, the
    wizard returns what it returns when the user answers "No" at the
    advanced step: no settings, whatever was entered in between.
    (b) Modification flow: back, or a hidden prompt, on the first step of a
    category leads to the category step and leaves the modifications as
    they are, those entered inside the category included. *)
Theorem back_on_first_step :
  (forall env st w i rest it w2 j rest2 it2,
     fst (isCancellationRequested (Create.token env) w) = false ->
     script w = Accept i :: rest ->
     addBackOption Create.advancedOptions
       (Create.canGoBack (Create.mkWizard st Create.ADVANCED)) !! i = Some it ->
     label it = "Yes" ->
     fst (Create.settingsLoop (Create.enoughSettings (consume w)) (Create.token env) 0
            noSettings (consume w)) = Some None ->
     fst (isCancellationRequested (Create.token env) w2) = false ->
     script w2 = Accept j :: rest2 ->
     addBackOption Create.advancedOptions
       (Create.canGoBack (Create.mkWizard st Create.ADVANCED)) !! j = Some it2 ->
     label it2 = "No" ->
     fst (Create.iteration env (Create.mkWizard st Create.ADVANCED) w)
       = Create.Return (Create.buildResult (Create.set_settings None st))
     /\ fst (Create.iteration env (Create.mkWizard st Create.ADVANCED) w2)
       = Create.Return (Create.buildResult (Create.set_settings None st)))
  /\ (forall token cur m s cat w r rest,
     fst (isCancellationRequested token w) = false ->
     Modify.getStepSequence cat !! 1 = Some s ->
     s <> Modify.DONE ->
     script w = r :: rest ->
     r = Dismiss \/ r = Accept 0 ->
     Modify.iteration token cur (Modify.mkWizard m s cat) w
       = (Modify.Continue (Modify.mkWizard m Modify.CATEGORY cat), consume w)).
Proof.
  split.
  - intros env st w i rest it w2 j rest2 it2 Hc Hs Hi Hl Hloop Hc2 Hs2 Hj Hl2.
    assert (Hback : Create.canGoBack (Create.mkWizard st Create.ADVANCED) = true).
    { unfold Create.canGoBack, Create.getCurrentStepNumber, Create.getStepSequence.
      cbn. by destruct (Create.truthy _). }
    rewrite Hback in *.
    split.
    + unfold Create.iteration, Create.polled, bind at 1. rewrite (not_requested _ _ Hc).
      cbn [Create.currentStep]. unfold Create.stepAdvanced, Create.polled, bind at 1.
      rewrite (not_requested _ _ Hc).
      unfold Create.choice, Create.pickOrDefault, showPick, nextResponse, bind, ret.
      rewrite Hback, Hs.
      destruct i as [|[|[|i]]]; cbn in Hi; simplify_eq; try done.
      advanced_eval.
      destruct (Create.settingsLoop _ _ _ _ _) as [r w'] eqn:E.
      cbn in Hloop. subst r. done.
    + unfold Create.iteration, Create.polled, bind at 1. rewrite (not_requested _ _ Hc2).
      cbn [Create.currentStep]. unfold Create.stepAdvanced, Create.polled, bind at 1.
      rewrite (not_requested _ _ Hc2).
      unfold Create.choice, Create.pickOrDefault, showPick, nextResponse, bind, ret.
      rewrite Hback, Hs2.
      destruct j as [|[|[|j]]]; cbn in Hj; simplify_eq; try done;
        advanced_eval; done.
  - intros token cur m s cat w r rest Hc Hseq Hd Hs Hr.
    unfold Modify.iteration, bind at 1. rewrite (not_requested _ _ Hc).
    revert Hseq; by_category cat; intros Hseq; vm_compute in Hseq; simplify_eq;
      cbn [Modify.currentStep];
      unfold Modify.booleanStep, Modify.promptBooleanSetting, Modify.category_in,
        showPick, showInputBox, nextResponse, bind, ret; cbn [Modify.selectedCategory map].
    all: rewrite ?(not_requested _ _ Hc).
    all: try (rewrite bool_decide_eq_true_2 by (repeat constructor)).
    all: rewrite ?(not_requested _ _ Hc), Hs.
    all: destruct Hr as [-> | ->]; cbn; reflexivity.
Qed.

Lemma back_on_first_step_witness :
  (fst (Create.iteration Samples.wizardEnv Samples.onAdvanced Samples.advancedBackOut)
     = Create.Return
         (Create.buildResult (Create.set_settings None (Create.state Samples.onAdvanced)))
   /\ fst (Create.iteration Samples.wizardEnv Samples.onAdvanced Samples.answerNo)
     = Create.Return
         (Create.buildResult (Create.set_settings None (Create.state Samples.onAdvanced))))
  /\ Modify.iteration None Samples.remote Samples.onWiki Samples.answerBack
     = (Modify.Continue
          (Modify.mkWizard (Modify.modifications Samples.onWiki) Modify.CATEGORY
             (Some "features")),
        consume Samples.answerBack).
Proof.
  split.
  - apply (proj1 back_on_first_step Samples.wizardEnv (Create.state Samples.onAdvanced)
             Samples.advancedBackOut 2 [Accept 2; Accept 1; Accept 0; Accept 0; Accept 0]
             Samples.advancedYes Samples.answerNo 1 [] Samples.advancedNo);
      reflexivity.
  - apply (proj2 back_on_first_step None Samples.remote
             (Modify.modifications Samples.onWiki) Modify.FEATURES_WIKI (Some "features")
             Samples.answerBack (Accept 0) []);
      [reflexivity | reflexivity | discriminate | reflexivity | right; reflexivity].
Defined.

(** ** The settings patch of the modification flow *)

Section PatchFacts.
Import Spec.

Lemma include_lookup_ne {A} `{EqDecision A} key (inj : A -> JsValue) f chosen cur api k :
  k <> key -> include key inj f chosen cur api !! k = api !! k.
Proof.
  intros Hk. unfold include. destruct (f chosen) as [v|]; [|done].
  destruct (differs cur f v); [|done]. by rewrite lookup_insert_ne.
Qed.



















End PatchFacts.



(** ** The orchestration of the creation flow *)

Section StageFacts.
Import Create Spec.

Variable env : Env.
Hypothesis never : token (wizard env) = None.
Variables (o : CreateRepoOptions) (full : string).

Lemma not_cancelled w : cancelRequested env w = (false, w).
Proof. unfold cancelRequested, isCancellationRequested. by rewrite never. Qed.

Lemma unlessCancelled_runs k w : unlessCancelled env full k w = k w.
Proof. unfold unlessCancelled, bind. by rewrite not_cancelled. Qed.

Lemma reportStandard_trace errors w :
  trace (snd (reportStandard full errors w))
  = (trace w ++ [finalMessage full errors])%list.
Proof. unfold reportStandard, finalMessage, emit. by destruct errors. Qed.

Lemma stageClone_standard errors w :
  workspaceReady env o = false ->
  trace (snd (stageClone env o full errors w))
  = (trace w ++ fst (cloneStage env o full)
     ++ [finalMessage full (errors ++ snd (cloneStage env o full))])%list.
Proof.
  unfold workspaceReady, stageClone, cloneStage. intros Hr.
  destruct (o_setupWorkspace o) eqn:Hs; cbn in Hr.
  - rewrite unlessCancelled_runs. unfold bind, emit, tick. rewrite Hr.
    unfold stageSetup. rewrite Hs. cbn [truthy andb].
    rewrite reportStandard_trace. cbn [fst snd trace]. by rewrite <- app_assoc.
  - unfold stageSetup. rewrite Hs. cbn [andb fst snd].
    rewrite reportStandard_trace. by rewrite app_nil_r.
Qed.

Lemma stageClone_open_fails errors w workspacePath thrown :
  workspaceReady env o = true ->
  scaffolded env = inl workspacePath ->
  opened env = Some thrown ->
  trace (snd (stageClone env o full errors w))
  = (trace w ++
     [GhClone full; Scaffold (default "" (clone_path (cloned env)));
      OpenFolder workspacePath;
      ShowWarning ("Repository " +:+ full
        +:+ " created successfully! Workspace file created at: " +:+ workspacePath
        +:+ ". You can open it manually. Some operations failed: "
        +:+ join (errors ++ ["Failed to open workspace: " +:+ thrown]))])%list.
Proof.
  unfold workspaceReady, stageClone. intros Hr Hsc Hop.
  apply andb_true_iff in Hr as [Hs Hp]. rewrite Hs, unlessCancelled_runs.
  unfold bind, emit, tick. rewrite Hp. unfold stageSetup. rewrite Hs, Hp. cbn [andb].
  unfold bind. rewrite not_cancelled. unfold emit, tick. rewrite Hsc, Hop.
  rewrite bool_decide_eq_true_2 by (rewrite length_app; cbn; lia).
  cbn [fst snd trace]. by rewrite <- !app_assoc.
Qed.

Lemma stageBranch_then errors w :
  exists w',
    trace w' = (trace w ++ fst (branchStage env o full))%list
    /\ stageBranch env o full (issueNumber env o) errors w
       = stageClone env o full (errors ++ snd (branchStage env o full)) w'.
Proof.
  unfold stageBranch, branchStage.
  destruct (o_createBranch o); [|exists w; by rewrite !app_nil_r].
  destruct (issueNumber env o) as [n|]; [destruct (n <=? 0)%Z|]; cbn [fst snd].
  - rewrite unlessCancelled_runs. cbn [Validation.generateBranchName].
    destruct (Validation.valid _); cbn [negb fst snd].
    + unfold bind, emit, tick.
      destruct (branch_success (branched env)); cbn [negb];
        eexists; (split; [|rewrite <- ?app_assoc, ?app_nil_r; reflexivity]); done.
    + exists w. rewrite app_nil_r, <- app_assoc. done.
  - rewrite unlessCancelled_runs.
    destruct (Validation.valid _); cbn [negb fst snd].
    + unfold bind, emit, tick.
      destruct (branch_success (branchedLinked env)); cbn [negb];
        eexists; (split; [|rewrite ?app_nil_r; reflexivity]); done.
    + exists w. by rewrite app_nil_r.
  - rewrite unlessCancelled_runs. cbn [Validation.generateBranchName].
    destruct (Validation.valid _); cbn [negb fst snd].
    + unfold bind, emit, tick.
      destruct (branch_success (branched env)); cbn [negb];
        eexists; (split; [|rewrite ?app_nil_r; reflexivity]); done.
    + exists w. by rewrite app_nil_r.
Qed.

Lemma stageIssue_then errors w :
  exists w',
    trace w' = (trace w ++ fst (issueStage env o full))%list
    /\ stageIssue env o full errors w
       = stageBranch env o full (issueNumber env o)
           (errors ++ snd (issueStage env o full)) w'.
Proof.
  unfold stageIssue, issueStage, issueNumber.
  destruct (o_createIssue o); [|exists w; by rewrite !app_nil_r].
  rewrite unlessCancelled_runs. unfold bind, emit, tick. cbn [fst snd].
  destruct (issue_result (issued env)); cbn [fmap option_fmap option_map];
    eexists; (split; [|rewrite ?app_nil_r; reflexivity]); done.
Qed.

Lemma stageSettings_then errors w :
  exists w',
    trace w' = (trace w ++ fst (settingsStage env o full))%list
    /\ stageSettings env o full errors w
       = stageIssue env o full (errors ++ snd (settingsStage env o full)) w'.
Proof.
  unfold stageSettings, settingsStage.
  destruct (o_settings o) as [s|]; [|exists w; by rewrite !app_nil_r].
  rewrite unlessCancelled_runs. unfold applyRepositorySettings.
  case_bool_decide; cbn [fst snd].
  - unfold bind, ret. cbn. exists w. by rewrite !app_nil_r.
  - unfold bind, emit, tick, ret.
    destruct (api_success (patched env)); cbn;
      eexists; (split; [|rewrite ?app_nil_r; reflexivity]); done.
Qed.

(** Every stage between the creation and the clone runs, whatever the
    stages before it reported, and hands its failures on. *)
Lemma later_stages errors w :
  exists w',
    trace w' = (trace w ++ fst (settingsStage env o full) ++ fst (issueStage env o full)
                ++ fst (branchStage env o full))%list
    /\ stageSettings env o full errors w
       = stageClone env o full
           (errors ++ snd (settingsStage env o full) ++ snd (issueStage env o full)
            ++ snd (branchStage env o full)) w'.
Proof.
  destruct (stageSettings_then errors w) as (w1 & H1 & ->).
  destruct (stageIssue_then (errors ++ snd (settingsStage env o full)) w1) as (w2 & H2 & ->).
  destruct (stageBranch_then
    ((errors ++ snd (settingsStage env o full)) ++ snd (issueStage env o full)) w2)
    as (w3 & H3 & ->).
  exists w3. split.
  - rewrite H3, H2, H1, <- !app_assoc. done.
  - by rewrite <- !app_assoc.
Qed.

Lemma stageCreate_start w ok :
  exit_ok (createProcess env) = ok ->
  stageCreate env o full w
  = (if ok then stageSettings env o full []
     else emit (ShowError ("Failed to create repository: "
                           +:+ failureText (createProcess env))))
      (mkWorld (S (clock w)) (script w)
         (trace w ++ [GhCommand (createCommand o full)])).
Proof.
  intros Hok. unfold stageCreate, bind at 1. rewrite not_cancelled.
  unfold executeGhCommand, bind, emit, tick, ret, cancelRequested, isCancellationRequested.
  rewrite never, Hok. by destruct ok.
Qed.

Lemma stageCreate_refused w :
  exit_ok (createProcess env) = false ->
  trace (snd (stageCreate env o full w))
  = (trace w ++ [GhCommand (createCommand o full);
                 ShowError ("Failed to create repository: "
                            +:+ failureText (createProcess env))])%list.
Proof.
  intros Hok. rewrite (stageCreate_start _ _ Hok). unfold emit. cbn.
  by rewrite <- app_assoc.
Qed.

Lemma stageCreate_standard w :
  exit_ok (createProcess env) = true ->
  workspaceReady env o = false ->
  trace (snd (stageCreate env o full w))
  = (trace w ++ [GhCommand (createCommand o full)] ++ laterCalls env o full
     ++ [finalMessage full (laterFailures env o full)])%list.
Proof.
  intros Hok Hr. rewrite (stageCreate_start _ _ Hok).
  destruct (later_stages [] (mkWorld (S (clock w)) (script w)
              (trace w ++ [GhCommand (createCommand o full)]))) as (w' & Ht & ->).
  rewrite (stageClone_standard _ _ Hr), Ht. cbn [trace app].
  unfold laterCalls, laterFailures. by rewrite <- !app_assoc.
Qed.

Lemma stageCreate_open_fails w workspacePath thrown :
  exit_ok (createProcess env) = true ->
  workspaceReady env o = true ->
  scaffolded env = inl workspacePath ->
  opened env = Some thrown ->
  trace (snd (stageCreate env o full w))
  = (trace w ++ [GhCommand (createCommand o full)] ++ laterCalls env o full
     ++ [Scaffold (default "" (clone_path (cloned env)));
         OpenFolder workspacePath;
         ShowWarning ("Repository " +:+ full
           +:+ " created successfully! Workspace file created at: "
           +:+ workspacePath
           +:+ ". You can open it manually. Some operations failed: "
           +:+ join (laterFailures env o full
                     ++ ["Failed to open workspace: " +:+ thrown]))])%list.
Proof.
  intros Hok Hr Hsc Hop. rewrite (stageCreate_start _ _ Hok).
  destruct (later_stages [] (mkWorld (S (clock w)) (script w)
              (trace w ++ [GhCommand (createCommand o full)]))) as (w' & Ht & ->).
  rewrite (stageClone_open_fails _ _ _ _ Hr Hsc Hop), Ht. cbn [trace app].
  unfold laterCalls, laterFailures, cloneStage.
  apply andb_true_iff in Hr as [-> ->]. cbn [fst snd].
  rewrite !app_nil_r, <- !app_assoc. done.
Qed.

Lemma stageClone_opened errors w workspacePath :
  workspaceReady env o = true ->
  scaffolded env = inl workspacePath ->
  opened env = None ->
  trace (snd (stageClone env o full errors w))
  = (trace w ++
     [GhClone full; Scaffold (default "" (clone_path (cloned env)));
      OpenFolder workspacePath])%list.
Proof.
  unfold workspaceReady, stageClone. intros Hr Hsc Hop.
  apply andb_true_iff in Hr as [Hs Hp]. rewrite Hs, unlessCancelled_runs.
  unfold bind, emit, tick. rewrite Hp. unfold stageSetup. rewrite Hs, Hp. cbn [andb].
  unfold bind. rewrite not_cancelled. unfold emit, tick, ret. rewrite Hsc, Hop.
  cbn [fst snd trace]. by rewrite <- !app_assoc.
Qed.

Lemma stageClone_scaffold_fails errors w thrown :
  workspaceReady env o = true ->
  scaffolded env = inr thrown ->
  trace (snd (stageClone env o full errors w))
  = (trace w ++
     [GhClone full; Scaffold (default "" (clone_path (cloned env)));
      ShowError ("Error creating repository: " +:+ thrown)])%list.
Proof.
  unfold workspaceReady, stageClone. intros Hr Hsc.
  apply andb_true_iff in Hr as [Hs Hp]. rewrite Hs, unlessCancelled_runs.
  unfold bind, emit, tick. rewrite Hp. unfold stageSetup. rewrite Hs, Hp. cbn [andb].
  unfold bind. rewrite not_cancelled. unfold emit, tick, ret. rewrite Hsc.
  cbn [fst snd trace]. by rewrite <- !app_assoc.
Qed.

Lemma laterCalls_ready :
  workspaceReady env o = true ->
  laterFailures env o full
  = (snd (settingsStage env o full) ++ snd (issueStage env o full)
     ++ snd (branchStage env o full))%list
  /\ laterCalls env o full
     = (fst (settingsStage env o full) ++ fst (issueStage env o full)
        ++ fst (branchStage env o full) ++ [GhClone full])%list.
Proof.
  intros Hr. unfold laterCalls, laterFailures, cloneStage.
  apply andb_true_iff in Hr as [-> ->]. cbn [fst snd]. by rewrite !app_nil_r.
Qed.

(** The workspace opens: the run ends without any message, whatever the
    stages collected. *)
Lemma stageCreate_opened w workspacePath :
  exit_ok (createProcess env) = true ->
  workspaceReady env o = true ->
  scaffolded env = inl workspacePath ->
  opened env = None ->
  trace (snd (stageCreate env o full w))
  = (trace w ++ [GhCommand (createCommand o full)] ++ laterCalls env o full
     ++ [Scaffold (default "" (clone_path (cloned env)));
         OpenFolder workspacePath])%list.
Proof.
  intros Hok Hr Hsc Hop. rewrite (stageCreate_start _ _ Hok).
  destruct (later_stages [] (mkWorld (S (clock w)) (script w)
              (trace w ++ [GhCommand (createCommand o full)]))) as (w' & Ht & ->).
  rewrite (stageClone_opened _ _ _ Hr Hsc Hop), Ht. cbn [trace app].
  destruct (laterCalls_ready Hr) as [_ ->]. rewrite <- !app_assoc. done.
Qed.

(** Writing the workspace throws: the run ends with the error of the outer
    handler, whatever the stages collected. *)
Lemma stageCreate_scaffold_fails w thrown :
  exit_ok (createProcess env) = true ->
  workspaceReady env o = true ->
  scaffolded env = inr thrown ->
  trace (snd (stageCreate env o full w))
  = (trace w ++ [GhCommand (createCommand o full)] ++ laterCalls env o full
     ++ [Scaffold (default "" (clone_path (cloned env)));
         ShowError ("Error creating repository: " +:+ thrown)])%list.
Proof.
  intros Hok Hr Hsc. rewrite (stageCreate_start _ _ Hok).
  destruct (later_stages [] (mkWorld (S (clock w)) (script w)
              (trace w ++ [GhCommand (createCommand o full)]))) as (w' & Ht & ->).
  rewrite (stageClone_scaffold_fails _ _ _ Hr Hsc), Ht. cbn [trace app].
  destruct (laterCalls_ready Hr) as [_ ->]. rewrite <- !app_assoc. done.
Qed.

End StageFacts.

(** C7.  The run of [Samples.flowWorld] in which the creation of the issue
    fails and every other call succeeds.  The failure of the issue stage is
    collected and the later stages run; the workspace opens and the run
    ends there, with no message: the collected failure is not reported.
    In the same run with a workspace that does not open, and in the run
    that asks for no workspace, the collected failure is reported in the
    one warning at the end.  In the run in which the creation itself fails,
    the one error is shown and no later stage runs. *)
Theorem collected_failure_dropped_when_workspace_opens :
  Spec.laterFailures (Samples.flowEnv None true false) Samples.flowOptions "me/repo"
    = ["Failed to create issue: boom"]
  /\ trace (snd (Create.createRepository (Samples.flowEnv None true false)
                   Samples.flowWorld))
    = [GhCommand (Create.createCommand Samples.flowOptions "me/repo");
       GhCreateIssue "me/repo" "First Release" "First Release";
       GhClone "me/repo";
       Scaffold "/home/me/workspace/repo";
       OpenFolder "/home/me/workspace/repo/repo.code-workspace"]
  /\ trace (snd (Create.createRepository (Samples.flowEnv None true true)
                   Samples.flowWorld))
    = [GhCommand (Create.createCommand Samples.flowOptions "me/repo");
       GhCreateIssue "me/repo" "First Release" "First Release";
       GhClone "me/repo";
       Scaffold "/home/me/workspace/repo";
       OpenFolder "/home/me/workspace/repo/repo.code-workspace";
       ShowWarning ("Repository me/repo created successfully! Workspace file created at: "
                    +:+ "/home/me/workspace/repo/repo.code-workspace. You can open it "
                    +:+ "manually. Some operations failed: Failed to create issue: boom, "
                    +:+ "Failed to open workspace: no window")]
  /\ trace (snd (Create.createRepository (Samples.flowEnv None true false)
                   Runs.plainWorld))
    = [GhCommand (Create.createCommand Samples.plainOptions "me/repo");
       GhCreateIssue "me/repo" "First Release" "First Release";
       ShowWarning ("Repository me/repo created successfully, but some operations "
                    +:+ "failed: Failed to create issue: boom")]
  /\ trace (snd (Create.createRepository Samples.refusedEnv Samples.flowWorld))
    = [GhCommand (Create.createCommand Samples.flowOptions "me/repo");
       ShowError "Failed to create repository: name already exists"].
Proof. repeat split; vm_compute; reflexivity. Qed.

(** ** The rollback offer *)

Section RollbackFacts.
Import Spec.

Lemma rollbackOffers_app a b : rollbackOffers (a ++ b)%list = rollbackOffers a + rollbackOffers b.
Proof. unfold rollbackOffers. by rewrite List.filter_app, length_app. Qed.

Lemma quiet_ret {A} (a : A) : quiet (ret a).
Proof. done. Qed.

Lemma quiet_tick : quiet tick.
Proof. done. Qed.

Lemma quiet_emit e : isOffer e = false -> quiet (emit e).
Proof.
  intros He w. unfold emit. cbn [snd trace]. rewrite rollbackOffers_app.
  unfold rollbackOffers at 2. cbn. rewrite He. cbn. lia.
Qed.

Lemma quiet_poll token : quiet (isCancellationRequested token).
Proof. done. Qed.

Lemma quiet_bind {A B} (m : M A) (k : A -> M B) :
  quiet m -> (forall a, quiet (k a)) -> quiet (bind m k).
Proof.
  intros Hm Hk w. unfold bind. specialize (Hm w). destruct (m w) as [a w1].
  rewrite Hk. exact Hm.
Qed.

Lemma atMostOnce_quiet {A} (m : M A) : quiet m -> atMostOnce m.
Proof. intros Hm w. rewrite Hm. lia. Qed.

Lemma atMostOnce_bind {A B} (m : M A) (k : A -> M B) :
  quiet m -> (forall a, atMostOnce (k a)) -> atMostOnce (bind m k).
Proof.
  intros Hm Hk w. unfold bind. specialize (Hm w). destruct (m w) as [a w1].
  specialize (Hk a w1). cbn in *. lia.
Qed.

Lemma atMostOnce_offer {A} full (k : M A) :
  quiet k -> atMostOnce (emit (OfferRollback full) ;;; k).
Proof.
  intros Hk w. unfold bind, emit. rewrite Hk. cbn [snd trace]. rewrite rollbackOffers_app.
  cbn. lia.
Qed.

Lemma quiet_showPick items : quiet (showPick items).
Proof. done. Qed.

Lemma quiet_showInputBox : quiet showInputBox.
Proof. done. Qed.

Lemma quiet_showValidatedInputBox validate : quiet (showValidatedInputBox validate).
Proof. intros w. unfold showValidatedInputBox. by destruct (awaitValid _ _). Qed.

Lemma quiet_executeGhCommand token proc command : quiet (executeGhCommand token proc command).
Proof.
  unfold executeGhCommand.
  apply quiet_bind; [apply quiet_poll|]. intros c. destruct c; [apply quiet_ret|].
  repeat (apply quiet_bind; [first [by apply quiet_emit | apply quiet_tick | apply quiet_poll]|]; intros ?).
  apply quiet_ret.
Qed.


Create HintDb offers discriminated.

#[local] Hint Resolve quiet_ret quiet_tick quiet_poll quiet_showPick quiet_showInputBox
  quiet_showValidatedInputBox quiet_executeGhCommand : offers.

(** Go through a computation that is built from quiet parts. *)
Ltac quiet_solve :=
  repeat (intros; cbv zeta;
    match goal with
    | |- quiet _ => solve [auto 1 with offers nocore]
    | |- quiet (emit _) => apply quiet_emit; reflexivity
    | |- quiet (bind _ _) => apply quiet_bind
    | |- quiet (if ?b then _ else _) => destruct b
    | |- quiet (match ?x with _ => _ end) => destruct x
    end).

Lemma quiet_deleteRepositorySilently proc repoName :
  quiet (Create.deleteRepositorySilently proc repoName).
Proof. unfold Create.deleteRepositorySilently. quiet_solve. Qed.

Lemma quiet_reportStandard full errors : quiet (Create.reportStandard full errors).
Proof. unfold Create.reportStandard. quiet_solve. Qed.

Lemma quiet_stageSetup env o full repoPath errors :
  quiet (Create.stageSetup env o full repoPath errors).
Proof.
  unfold Create.stageSetup, Create.cancelRequested.
  destruct (_ && _); [|apply quiet_reportStandard]. quiet_solve.
Qed.

Lemma quiet_applyRepositorySettings patch repo chosen cur :
  quiet (applyRepositorySettings patch repo chosen cur).
Proof. unfold applyRepositorySettings. quiet_solve. Qed.

Lemma atMostOnce_handle env full :
  atMostOnce (Create.handleCancellationAfterCreation env full).
Proof.
  unfold Create.handleCancellationAfterCreation. apply atMostOnce_offer.
  pose proof quiet_deleteRepositorySilently. quiet_solve.
Qed.

Lemma atMostOnce_unlessCancelled env full k :
  atMostOnce k -> atMostOnce (Create.unlessCancelled env full k).
Proof.
  intros Hk. unfold Create.unlessCancelled, Create.cancelRequested.
  apply atMostOnce_bind; [apply quiet_poll|]. intros c. destruct c; [|done].
  apply atMostOnce_handle.
Qed.

(** Go through a stage: a poll that ends the run with the offer, or quiet
    calls followed by the next stage. *)
Ltac once_solve :=
  repeat (intros; cbv zeta;
    match goal with
    | |- atMostOnce _ => assumption
    | H : forall _, atMostOnce _ |- atMostOnce _ => apply H
    | H : forall _ _, atMostOnce _ |- atMostOnce _ => apply H
    | |- atMostOnce (Create.unlessCancelled _ _ _) => apply atMostOnce_unlessCancelled
    | |- atMostOnce (bind _ _) => apply atMostOnce_bind; [quiet_solve; fail|]
    | |- atMostOnce (if ?b then _ else _) => destruct b
    | |- atMostOnce (match ?x with _ => _ end) => destruct x
    | |- atMostOnce _ => apply atMostOnce_quiet; quiet_solve; fail
    end).

Lemma atMostOnce_stageClone env o full errors :
  atMostOnce (Create.stageClone env o full errors).
Proof.
  pose proof (quiet_stageSetup env o full) as Hs.
  unfold Create.stageClone. once_solve; by apply atMostOnce_quiet.
Qed.

Lemma atMostOnce_stageBranch env o full issueNumber errors :
  atMostOnce (Create.stageBranch env o full issueNumber errors).
Proof.
  pose proof (atMostOnce_stageClone env o full) as Hs.
  unfold Create.stageBranch. 
  destruct (Create.o_createBranch o); [|done].
  cbv zeta. destruct (fst _); once_solve; done.
Qed.

Lemma atMostOnce_stageIssue env o full errors :
  atMostOnce (Create.stageIssue env o full errors).
Proof.
  pose proof (atMostOnce_stageBranch env o full) as Hs.
  unfold Create.stageIssue. once_solve; done.
Qed.

Lemma atMostOnce_stageSettings env o full errors :
  atMostOnce (Create.stageSettings env o full errors).
Proof.
  pose proof (atMostOnce_stageIssue env o full) as Hs.
  pose proof quiet_applyRepositorySettings.
  unfold Create.stageSettings. once_solve; done.
Qed.

Lemma atMostOnce_stageCreate env o full :
  atMostOnce (Create.stageCreate env o full).
Proof.
  pose proof (atMostOnce_stageSettings env o full) as Hs.
  unfold Create.stageCreate, Create.cancelRequested.
  once_solve; try done; apply atMostOnce_quiet; quiet_solve.
Qed.


Lemma quiet_same_trace {A} (m : M A) :
  (forall w, trace (snd (m w)) = trace w) -> quiet m.
Proof. intros Hm w. by rewrite Hm. Qed.

Lemma quiet_selectRepository env : quiet (Modify.selectRepository env).
Proof. unfold Modify.selectRepository. quiet_solve. Qed.

Lemma quiet_modify_promptBooleanSetting token cur back :
  quiet (Modify.promptBooleanSetting token cur back).
Proof. unfold Modify.promptBooleanSetting. quiet_solve. Qed.

Lemma quiet_modify_iteration token cur wz : quiet (Modify.iteration token cur wz).
Proof.
  pose proof quiet_modify_promptBooleanSetting.
  unfold Modify.iteration, Modify.booleanStep. quiet_solve.
Qed.

Lemma quiet_modify_loop fuel token cur wz : quiet (Modify.loop fuel token cur wz).
Proof.
  revert wz. induction fuel as [|fuel IH]; intros wz; [apply quiet_ret|].
  pose proof quiet_modify_iteration. cbn [Modify.loop]. quiet_solve.
Qed.

Lemma quiet_collectModifications token cur : quiet (Modify.collectModifications token cur).
Proof.
  unfold Modify.collectModifications.
  apply quiet_bind; [apply quiet_poll|]. intros c. destruct c; [apply quiet_ret|].
  intros w. pose proof (quiet_modify_loop (Modify.enough w) token cur Modify.start w) as H.
  by destruct (Modify.loop _ _ _ _ _).
Qed.

Lemma quiet_modifyRepository env repoName : quiet (Modify.modifyRepository env repoName).
Proof.
  pose proof quiet_selectRepository. pose proof quiet_collectModifications.
  pose proof quiet_applyRepositorySettings.
  unfold Modify.modifyRepository. quiet_solve.
Qed.

Lemma quiet_create_promptBooleanSetting token dflt back :
  quiet (Create.promptBooleanSetting token dflt back).
Proof. unfold Create.promptBooleanSetting. quiet_solve. Qed.

Lemma quiet_settingsLoop fuel token i settings :
  quiet (Create.settingsLoop fuel token i settings).
Proof.
  revert i settings. induction fuel as [|fuel IH]; intros i settings; [apply quiet_ret|].
  pose proof quiet_create_promptBooleanSetting. cbn [Create.settingsLoop]. quiet_solve.
Qed.

Lemma quiet_create_iteration env wz : quiet (Create.iteration env wz).
Proof.
  pose proof quiet_settingsLoop.
  unfold Create.iteration, Create.polled, Create.stepOwner, Create.stepName,
    Create.stepDescription, Create.stepVisibility, Create.stepTemplate, Create.stepReadme,
    Create.stepLicense, Create.stepIssue, Create.stepBranch, Create.stepWorkspace,
    Create.stepAdvanced, Create.polled, Create.choice, Create.pickOrDefault.
  quiet_solve.
  intros w.
  pose proof (H (Create.enoughSettings w) (Create.token env) 0 noSettings w) as Hw.
  destruct (Create.settingsLoop _ _ _ _ _) as [r w']. by destruct (default None r).
Qed.

Lemma quiet_create_loop fuel env wz : quiet (Create.loop fuel env wz).
Proof.
  revert wz. induction fuel as [|fuel IH]; intros wz; [apply quiet_ret|].
  pose proof quiet_create_iteration. cbn [Create.loop]. quiet_solve.
Qed.

Lemma quiet_collectUserInputs env : quiet (Create.collectUserInputs env).
Proof.
  unfold Create.collectUserInputs.
  apply quiet_bind; [apply quiet_poll|]. intros c. destruct c; [apply quiet_ret|].
  apply quiet_bind; [apply quiet_tick|]. intros _.
  apply quiet_bind; [apply quiet_tick|]. intros _.
  apply quiet_bind; [apply quiet_poll|]. intros c. destruct c; [apply quiet_ret|].
  intros w. pose proof (quiet_create_loop (Create.enough w) env Create.start w) as H.
  by destruct (Create.loop _ _ _ _).
Qed.

Lemma atMostOnce_stageExists env o full : atMostOnce (Create.stageExists env o full).
Proof.
  pose proof (atMostOnce_stageCreate env o full) as Hs.
  pose proof quiet_deleteRepositorySilently. pose proof quiet_modifyRepository.
  unfold Create.stageExists, Create.cancelRequested.
  once_solve; try done; apply atMostOnce_quiet; quiet_solve.
Qed.

Lemma atMostOnce_createRepository env : atMostOnce (Create.createRepository env).
Proof.
  pose proof (atMostOnce_stageExists env) as Hs.
  pose proof quiet_collectUserInputs.
  unfold Create.createRepository, Create.cancelRequested.
  once_solve; try done; apply atMostOnce_quiet; quiet_solve.
Qed.

Lemma quiet_bind_with {A B} (P : A -> Prop) (m : M A) (k : A -> M B) :
  quiet m -> (forall w, P (fst (m w))) -> (forall a, P a -> quiet (k a)) ->
  quiet (bind m k).
Proof.
  intros Hm HP Hk w. unfold bind. specialize (Hm w). specialize (HP w).
  destruct (m w) as [a w1]. rewrite (Hk a HP). exact Hm.
Qed.

Lemma executeGhCommand_refused token proc command w :
  exit_ok proc = false ->
  gh_success (fst (executeGhCommand token proc command w)) = false.
Proof.
  intros Hok. unfold executeGhCommand, bind, emit, tick, ret, isCancellationRequested.
  rewrite Hok. by repeat case_match.
Qed.

(** When the create call fails, the run makes no rollback offer. *)
Lemma quiet_stageCreate_refused env o full :
  exit_ok (Create.createProcess env) = false -> quiet (Create.stageCreate env o full).
Proof.
  intros Hok. unfold Create.stageCreate, Create.cancelRequested.
  apply quiet_bind; [apply quiet_poll|]. intros c. destruct c; [apply quiet_ret|].
  apply (quiet_bind_with (fun r => gh_success r = false));
    [apply quiet_executeGhCommand | intros w; by apply executeGhCommand_refused |].
  intros r Hr. rewrite Hr. cbn [negb]. quiet_solve.
Qed.

Lemma quiet_stageExists_refused env o full :
  exit_ok (Create.createProcess env) = false -> quiet (Create.stageExists env o full).
Proof.
  intros Hok. pose proof (quiet_stageCreate_refused env o full Hok).
  pose proof quiet_deleteRepositorySilently. pose proof quiet_modifyRepository.
  unfold Create.stageExists, Create.cancelRequested. quiet_solve.
Qed.

Lemma quiet_createRepository_refused env :
  exit_ok (Create.createProcess env) = false -> quiet (Create.createRepository env).
Proof.
  intros Hok. pose proof (fun o full => quiet_stageExists_refused env o full Hok).
  pose proof quiet_collectUserInputs.
  unfold Create.createRepository, Create.cancelRequested. quiet_solve.
Qed.

(** The rollback: one offer, then the delete call exactly when the user
    chose to delete. *)
Lemma handleCancellation_trace env full w :
  trace (snd (Create.handleCancellationAfterCreation env full w))
  = (trace w ++ OfferRollback full ::
     if bool_decide (Create.rollbackAction env = Some "Delete Repository") then
       [GhCommand ("gh repo delete " +:+ full +:+ " --yes");
        if exit_ok (Create.deleteCreated env)
        then ShowInfo ("Repository " +:+ full +:+ " has been deleted.")
        else ShowWarning ("Failed to delete repository " +:+ full
                          +:+ ". You may need to delete it manually.")]
     else [ShowInfo ("Repository " +:+ full +:+ " has been kept.")])%list.
Proof.
  unfold Create.handleCancellationAfterCreation, Create.deleteRepositorySilently,
    executeGhCommand, bind, emit, tick, ret, isCancellationRequested.
  case_bool_decide; [destruct (exit_ok _)|]; cbn; by rewrite <- ?app_assoc.
Qed.

(** A cancellation seen at the poll in front of the settings, issue,
    branch or clone stage ends the run with the rollback. *)
Lemma unlessCancelled_cancelled env full k w :
  fst (Create.cancelRequested env w) = true ->
  Create.unlessCancelled env full k w
  = Create.handleCancellationAfterCreation env full w.
Proof.
  unfold Create.unlessCancelled, Create.cancelRequested, bind. intros Hc.
  destruct (poll_cases (Create.token (Create.wizard env)) w) as [E|E];
    rewrite E in *; [reflexivity | cbn in Hc; discriminate].
Qed.

(** A cancellation seen at the poll in front of the workspace setup ends
    the run with nothing. *)
Lemma stageSetup_cancelled env o full repoPath errors w :
  Create.o_setupWorkspace o = true -> Create.truthy repoPath = true ->
  fst (Create.cancelRequested env w) = true ->
  Create.stageSetup env o full repoPath errors w = (tt, w).
Proof.
  unfold Create.stageSetup, Create.cancelRequested, bind. intros -> -> Hc.
  cbn [andb]. destruct (poll_cases (Create.token (Create.wizard env)) w) as [E|E];
    rewrite E in *; [reflexivity | cbn in Hc; discriminate].
Qed.

(** A cancellation requested before the create call returns ends the run
    with no rollback offer. *)
Lemma stageCreate_cancelled_early env o full w t :
  Create.token (Create.wizard env) = Some t -> t <= S (clock w) ->
  rollbackOffers (trace (snd (Create.stageCreate env o full w))) = rollbackOffers (trace w).
Proof.
  intros Ht Hle.
  unfold Create.stageCreate, Create.cancelRequested, executeGhCommand, bind, emit, tick,
    ret, isCancellationRequested.
  rewrite Ht. destruct (decide (t <= clock w)) as [Hd|Hd].
  - by rewrite !bool_decide_eq_true_2 by done.
  - rewrite !(bool_decide_eq_false_2 (t <= clock w)) by done.
    cbn [clock script trace fst snd].
    rewrite !(bool_decide_eq_true_2 (t <= S (clock w))) by done.
    destruct (exit_ok _); cbn [gh_cancelled orb snd trace]; rewrite !rollbackOffers_app; cbn; lia.
Qed.

End RollbackFacts.

(** X21.  A run of the creation flow makes at most one rollback offer, and
    none when the create call fails. *)
Theorem rollback_offered_at_most_once env w :
  Spec.rollbackOffers (trace w) = 0 ->
  Spec.rollbackOffers (trace (snd (Create.createRepository env w))) <= 1
  /\ (exit_ok (Create.createProcess env) = false ->
      Spec.rollbackOffers (trace (snd (Create.createRepository env w))) = 0).
Proof.
  intros Hw. split.
  - pose proof (atMostOnce_createRepository env w). lia.
  - intros Hok. by rewrite quiet_createRepository_refused.
Qed.

Lemma rollback_offered_at_most_once_witness :
  Spec.rollbackOffers
    (trace (snd (Create.createRepository (Samples.flowEnv (Some 20) false false)
                   Samples.flowWorld))) <= 1
  /\ (exit_ok (Create.createProcess (Samples.flowEnv (Some 20) false false)) = false ->
      Spec.rollbackOffers
        (trace (snd (Create.createRepository (Samples.flowEnv (Some 20) false false)
                       Samples.flowWorld))) = 0).
Proof.
  apply (rollback_offered_at_most_once (Samples.flowEnv (Some 20) false false)
           Samples.flowWorld).
  reflexivity.
Defined.

(** C1.  The run of [Samples.flowWorld] in which every call succeeds.
    When cancellation is requested while the clone runs, it is observed at
    the poll in front of the workspace setup, after the creation succeeded:
    the run ends there with no rollback offer.  When it is requested one
    suspension point earlier, it is observed at the poll in front of the
    clone: the rollback is offered once and the delete runs as chosen.
    Without cancellation the run goes on to open the workspace. *)
Theorem rollback_missing_before_workspace_setup :
  trace (snd (Create.createRepository (Samples.flowEnv (Some 21) false false)
                Samples.flowWorld))
    = [GhCommand (Create.createCommand Samples.flowOptions "me/repo");
       GhCreateIssue "me/repo" "First Release" "First Release";
       GhClone "me/repo"]
  /\ trace (snd (Create.createRepository (Samples.flowEnv (Some 20) false false)
                   Samples.flowWorld))
    = [GhCommand (Create.createCommand Samples.flowOptions "me/repo");
       GhCreateIssue "me/repo" "First Release" "First Release";
       OfferRollback "me/repo";
       GhCommand "gh repo delete me/repo --yes";
       ShowInfo "Repository me/repo has been deleted."]
  /\ trace (snd (Create.createRepository (Samples.flowEnv None false false)
                   Samples.flowWorld))
    = [GhCommand (Create.createCommand Samples.flowOptions "me/repo");
       GhCreateIssue "me/repo" "First Release" "First Release";
       GhClone "me/repo";
       Scaffold "/home/me/workspace/repo";
       OpenFolder "/home/me/workspace/repo/repo.code-workspace"].
Proof. repeat split; vm_compute; reflexivity. Qed.

(** ** Branch names: the reserved names *)

Section BranchNames.
Import Validation.

Lemma lower_char_not_upper c : in_range 65 90 (lower_char c) = false.
Proof.
  destruct c as [[] [] [] [] [] [] [] []]; vm_compute; reflexivity.
Qed.

Lemma lower_char_cases c :
  lower_char c = c \/ c = ascii_of_nat (nat_of_ascii (lower_char c) - 32).
Proof.
  destruct c as [[] [] [] [] [] [] [] []]; vm_compute; auto.
Qed.

Lemma toLowerCase_length s : String.length (toLowerCase s) = String.length s.
Proof. induction s; cbn; congruence. Qed.

(** The strings whose lower-case form is ["refs"]. *)
Lemma lower_refs t :
  toLowerCase t = "refs" ->
  exists c1 c2 c3 c4,
    t = String c1 (String c2 (String c3 (String c4 "")))
    /\ (c1 = "r" \/ c1 = "R")%char /\ (c2 = "e" \/ c2 = "E")%char
    /\ (c3 = "f" \/ c3 = "F")%char /\ (c4 = "s" \/ c4 = "S")%char.
Proof.
  destruct t as [|c1 [|c2 [|c3 [|c4 [|c5 t]]]]]; try discriminate.
  cbn. intros [= H1 H2 H3 H4]. exists c1, c2, c3, c4. split; [done|].
  pose proof (lower_char_cases c1) as K1. pose proof (lower_char_cases c2) as K2.
  pose proof (lower_char_cases c3) as K3. pose proof (lower_char_cases c4) as K4.
  rewrite H1 in K1. rewrite H2 in K2. rewrite H3 in K3. rewrite H4 in K4.
  cbn in K1, K2, K3, K4. intuition.
Qed.

Lemma lower_not_HEAD t : toLowerCase t <> "HEAD".
Proof.
  destruct t as [|c t]; [done|]. cbn. intros [= H _].
  pose proof (lower_char_not_upper c) as K. rewrite H in K. discriminate.
Qed.

Lemma lower_dot_git t : toLowerCase t = ".git" -> startsWith t "." = true.
Proof.
  destruct t as [|c t]; [done|]. cbn. intros [= H _].
  destruct (lower_char_cases c) as [K|K]; rewrite H in K; subst c.
  - unfold startsWith. cbn. by destruct t.
  - vm_compute in H. discriminate.
Qed.

(** X1.  The reserved-name rule of [validateBranchName] compares the name
    in lower case with the list [.git], [HEAD], [refs]: the rule rejects a
    name exactly when the name is [refs] in some mix of cases, and [head],
    in any mix of cases, is accepted. *)
Theorem reserved_branch_names s :
  (error (validateBranchName s)
     = Some ("Branch name '" +:+ trim s +:+ "' is reserved")
   <-> toLowerCase (trim s) = "refs")
  /\ (toLowerCase (trim s) = "head" -> validateBranchName s = ok).
Proof.
  rewrite <- validateBranchName_trim.
  split; [split|].
  - unfold validateBranchName. rewrite !empty_test, !trim_idemp.
    case_bool_decide as He; [intros H; cbv -[trim] in H; discriminate H|].
    destruct (255 <? _)%nat; [intros H; cbv -[trim] in H; discriminate H|].
    destruct (_ || _) eqn:Hse; [intros H; cbv -[trim] in H; discriminate H|].
    destruct (includes _ _); [intros H; cbv -[trim] in H; discriminate H|].
    destruct (negb _); [intros H; cbv -[trim] in H; discriminate H|].
    case_bool_decide as Hr; [|done]. intros _.
    apply elem_of_cons in Hr as [Hr|Hr].
    { apply lower_dot_git in Hr. rewrite Hr in Hse. discriminate. }
    apply elem_of_cons in Hr as [Hr|Hr]; [by apply lower_not_HEAD in Hr|].
    apply elem_of_cons in Hr as [Hr|Hr]; [done|]. by apply elem_of_nil in Hr.
  - intros Hl. destruct (lower_refs _ Hl) as (c1 & c2 & c3 & c4 & -> & H1 & H2 & H3 & H4).
    destruct H1 as [-> | ->], H2 as [-> | ->], H3 as [-> | ->], H4 as [-> | ->];
      vm_compute; reflexivity.
  - intros Hl.
    assert (exists c1 c2 c3 c4,
      trim s = String c1 (String c2 (String c3 (String c4 "")))
      /\ (c1 = "h" \/ c1 = "H")%char /\ (c2 = "e" \/ c2 = "E")%char
      /\ (c3 = "a" \/ c3 = "A")%char /\ (c4 = "d" \/ c4 = "D")%char)
      as (c1 & c2 & c3 & c4 & -> & H1 & H2 & H3 & H4).
    { destruct (trim s) as [|c1 [|c2 [|c3 [|c4 [|c5 t]]]]]; try discriminate.
      cbn in Hl. injection Hl as H1 H2 H3 H4. exists c1, c2, c3, c4. split; [done|].
      pose proof (lower_char_cases c1) as K1. pose proof (lower_char_cases c2) as K2.
      pose proof (lower_char_cases c3) as K3. pose proof (lower_char_cases c4) as K4.
      rewrite H1 in K1. rewrite H2 in K2. rewrite H3 in K3. rewrite H4 in K4.
      cbn in K1, K2, K3, K4. intuition. }
    destruct H1 as [-> | ->], H2 as [-> | ->], H3 as [-> | ->], H4 as [-> | ->];
      vm_compute; reflexivity.
Qed.

Lemma reserved_branch_names_witness : validateBranchName "HEAD" = ok.
Proof.
  destruct (reserved_branch_names "HEAD") as [_ H]. apply H. reflexivity.
Defined.

End BranchNames.

(** ** Strings, and the two validators side by side *)

Section StringFacts.
Import Validation.

Lemma append_nil_r s : s +:+ "" = s.
Proof. induction s; cbn; unfold String.app in *; cbn; congruence. Qed.

Lemma append_assoc a b c : (a +:+ b) +:+ c = a +:+ (b +:+ c).
Proof. induction a; cbn; unfold String.app in *; cbn; congruence. Qed.

Lemma append_cons c a b : String c a +:+ b = String c (a +:+ b).
Proof. done. Qed.

Lemma length_append a b : String.length (a +:+ b) = String.length a + String.length b.
Proof. induction a; cbn; unfold String.app in *; cbn; congruence. Qed.

Lemma rev_app_spec s acc : String.rev_app s acc = String.rev s +:+ acc.
Proof.
  unfold String.rev. revert acc. induction s as [|c s IH]; intros acc; [done|].
  cbn. rewrite (IH (String c acc)), (IH (String c "")), append_assoc. done.
Qed.

Lemma rev_cons c s : String.rev (String c s) = String.rev s +:+ String c "".
Proof. unfold String.rev at 1. cbn. apply rev_app_spec. Qed.

Lemma rev_append a b : String.rev (a +:+ b) = String.rev b +:+ String.rev a.
Proof.
  induction a as [|c a IH]; [by rewrite append_nil_r|].
  rewrite append_cons, !rev_cons, IH, append_assoc. done.
Qed.

Lemma all_chars_append p a b : all_chars p (a +:+ b) = all_chars p a && all_chars p b.
Proof.
  induction a as [|c a IH]; [done|]. rewrite append_cons. cbn. rewrite IH.
  by rewrite andb_assoc.
Qed.

Lemma all_chars_rev p s : all_chars p (String.rev s) = all_chars p s.
Proof.
  induction s as [|c s IH]; [done|]. rewrite rev_cons, all_chars_append, IH. cbn.
  rewrite andb_true_r. apply andb_comm.
Qed.

Lemma prefix_single x r :
  String.prefix (String x "") r = match r with String y _ => bool_decide (x = y) | "" => false end.
Proof.
  destruct r as [|y r]; [done|]. cbn. destruct (ascii_dec x y) as [->|Hne].
  - rewrite bool_decide_eq_true_2 by done. by destruct r.
  - by rewrite bool_decide_eq_false_2.
Qed.

Lemma startsWith_single c r x : startsWith (String c r) (String x "") = bool_decide (x = c).
Proof. unfold startsWith. by rewrite prefix_single. Qed.

Lemma rev_nonempty c s : exists y r, String.rev (String c s) = String y r.
Proof.
  rewrite rev_cons. destruct (String.rev s) as [|y r]; cbn; eauto.
Qed.

(** [endsWith] with a pattern of one character reads the last character:
    a text in front does not matter. *)
Lemma endsWith_append a b x :
  b <> "" -> endsWith (a +:+ b) (String x "") = endsWith b (String x "").
Proof.
  intros Hb. destruct b as [|c b]; [done|].
  unfold endsWith. change (String.rev (String x "")) with (String x "").
  rewrite rev_append. destruct (rev_nonempty c b) as (y & r & ->).
  rewrite append_cons, !prefix_single. done.
Qed.

Lemma endsWith_class p s x :
  all_chars p s = true -> endsWith s (String x "") = true -> p x = true.
Proof.
  intros Hp. unfold endsWith. change (String.rev (String x "")) with (String x "").
  rewrite prefix_single. rewrite <- all_chars_rev in Hp.
  destruct (String.rev s) as [|y r]; [done|]. cbn in Hp.
  intros ->%bool_decide_eq_true. by apply andb_true_iff in Hp as [? _].
Qed.

Lemma startsWith_class p s x :
  all_chars p s = true -> startsWith s (String x "") = true -> p x = true.
Proof.
  destruct s as [|c s]; [done|]. rewrite startsWith_single. cbn.
  intros Hp ->%bool_decide_eq_true. by apply andb_true_iff in Hp as [? _].
Qed.

Lemma all_chars_impl (p q : ascii -> bool) s :
  (forall c, p c = true -> q c = true) -> all_chars p s = true -> all_chars q s = true.
Proof.
  intros Hpq. induction s as [|c s IH]; [done|]. cbn.
  rewrite !andb_true_iff. intros [? ?]. auto.
Qed.

Lemma repo_char_branch_char c : repo_char c = true -> branch_char c = true.
Proof.
  unfold repo_char, branch_char. rewrite !orb_true_iff. tauto.
Qed.

(** X2.  A repository name that [validateRepoName] accepts is accepted by
    [validateBranchName] too, unless it is [refs] in some mix of cases. *)
Theorem repo_names_are_branch_names s :
  valid (validateRepoName s) = true ->
  toLowerCase (trim s) <> "refs" ->
  validateBranchName s = ok.
Proof.
  unfold validateRepoName, validateBranchName. rewrite !empty_test.
  case_bool_decide as He; [cbn; discriminate|].
  destruct (Nat.ltb_spec 100 (String.length (trim s))) as [|Hlen]; [cbn; discriminate|].
  destruct (startsWith (trim s) ".") eqn:Hs1; [cbn; discriminate|].
  destruct (endsWith (trim s) ".") eqn:He1; [cbn; discriminate|]. cbn [orb].
  destruct (includes (trim s) "..") eqn:Hdd; [cbn; discriminate|].
  destruct (test_plus repo_char (trim s)) eqn:Hcl; [|cbn; discriminate]. cbn [negb].
  intros _ Hrefs.
  assert (Hall : all_chars repo_char (trim s) = true).
  { unfold test_plus in Hcl. by destruct (trim s). }
  destruct (Nat.ltb_spec 255 (String.length (trim s))) as [|_]; [lia|].
  assert (Hno : forall x, repo_char x = false ->
            startsWith (trim s) (String x "") = false
            /\ endsWith (trim s) (String x "") = false).
  { intros x Hx. split.
    - apply not_true_is_false. intros E.
      apply (startsWith_class _ _ _ Hall) in E. congruence.
    - apply not_true_is_false. intros E.
      apply (endsWith_class _ _ _ Hall) in E. congruence. }
  destruct (Hno "/"%char eq_refl) as [-> ->].
  destruct (Hno "\"%char eq_refl) as [-> ->]. cbn [orb].
  assert (Hb : test_plus branch_char (trim s) = true).
  { unfold test_plus in *. destruct (trim s); [done|].
    apply (all_chars_impl repo_char); [apply repo_char_branch_char | exact Hall]. }
  rewrite Hb. cbn [negb].
  rewrite bool_decide_eq_false_2; [done|].
  intros Hr. apply elem_of_cons in Hr as [Hr|Hr].
  { destruct (trim s) as [|c t]; [done|]. cbn in Hr. injection Hr as Hc _.
    rewrite startsWith_single in Hs1. apply bool_decide_eq_false in Hs1.
    cbn in Hall. apply andb_true_iff in Hall as [Hc' _].
    revert Hc Hs1 Hc'. clear. destruct c as [[] [] [] [] [] [] [] []]; vm_compute; congruence. }
  apply elem_of_cons in Hr as [Hr|Hr].
  { destruct (trim s) as [|c t]; [done|]. cbn in Hr. injection Hr as Hc _.
    revert Hc. clear. destruct c as [[] [] [] [] [] [] [] []]; vm_compute; congruence. }
  apply elem_of_cons in Hr as [Hr|Hr]; [done|]. by apply elem_of_nil in Hr.
Qed.

Lemma repo_names_are_branch_names_witness : validateBranchName " my-repo " = ok.
Proof.
  apply (repo_names_are_branch_names " my-repo ").
  - reflexivity.
  - discriminate.
Defined.

End StringFacts.

(** ** Branch names that are generated for an issue *)

Section GeneratedNames.
Import Validation.

Lemma pretty_N_char_digit x : CreateHelpers.is_digit (pretty_N_char x) = true.
Proof. unfold pretty_N_char. by repeat case_match. Qed.

Lemma pretty_N_go_digits x s :
  exists d, pretty_N_go x s = d +:+ s /\ all_chars CreateHelpers.is_digit d = true
            /\ ((0 < x)%N -> d <> "").
Proof.
  revert s. induction (N.lt_wf_0 x) as [x _ IH]; intros s.
  destruct (decide (0 < x)%N) as [Hx|Hx].
  - rewrite pretty_N_go_step by done.
    destruct (IH (x `div` 10)%N) with (s := String (pretty_N_char (x `mod` 10)) s)
      as (d & -> & Hd & _); [by apply N.div_lt|].
    exists (d +:+ String (pretty_N_char (x `mod` 10)) ""). split; [|split].
    + by rewrite append_assoc.
    + rewrite all_chars_append, Hd. cbn. by rewrite pretty_N_char_digit.
    + intros _. by destruct d.
  - assert (x = 0%N) as -> by lia. exists "". by rewrite pretty_N_go_0.
Qed.

(** The decimal form of a positive number: digits, at least one. *)
Lemma pretty_positive_digits (n : Z) :
  (0 < n)%Z -> all_chars CreateHelpers.is_digit (pretty n) = true /\ pretty n <> "".
Proof.
  intros Hn. destruct n as [|p|p]; try lia.
  change (pretty (Z.pos p)) with (pretty (N.pos p)). unfold pretty, pretty_N.
  rewrite decide_False by done.
  destruct (pretty_N_go_digits (N.pos p) "") as (d & -> & Hd & Hne).
  rewrite append_nil_r. split; [done|]. apply Hne. lia.
Qed.

Lemma trimStart_suffix s : exists pre, s = pre +:+ trimStart s.
Proof.
  induction s as [|c s [pre IH]]; [by exists ""|]. cbn.
  destruct (is_ws c); [|by exists ""]. exists (String c pre). by rewrite append_cons, <- IH.
Qed.

Lemma trimEnd_prefix s : exists suf, s = trimEnd s +:+ suf.
Proof.
  induction s as [|c s [suf IH]]; [by exists ""|]. cbn.
  destruct (trimEnd s) as [|d t] eqn:E.
  - destruct (is_ws c); [exists (String c s); done|].
    exists suf. rewrite append_cons. cbn in IH. by rewrite <- IH.
  - exists suf. rewrite append_cons. by rewrite <- IH.
Qed.

Lemma trim_fixed s : trim s = s -> trimStart s = s /\ trimEnd s = s.
Proof.
  unfold trim. intros H.
  destruct (trimStart_suffix s) as [pre Hpre].
  destruct (trimEnd_prefix (trimStart s)) as [suf Hsuf].
  pose proof (f_equal String.length Hpre) as L1.
  pose proof (f_equal String.length Hsuf) as L2.
  pose proof (length_append pre (trimStart s)) as E1.
  pose proof (length_append (trimEnd (trimStart s)) suf) as E2.
  rewrite H in E2, L2.
  assert (pre = "") as -> by (destruct pre; [done|cbn in E1; lia]).
  assert (Hs : trimStart s = s) by (symmetry; exact Hpre).
  split; [done|]. by rewrite Hs in H.
Qed.

Lemma trimEnd_append a b : b <> "" -> trimEnd b = b -> trimEnd (a +:+ b) = a +:+ b.
Proof.
  intros Hb Hfix. induction a as [|c a IH]; [done|].
  rewrite append_cons. cbn. rewrite IH.
  destruct (a +:+ b) eqn:E; [|done].
  pose proof (length_append a b) as L. rewrite E in L.
  destruct b; [done|]. cbn in L. lia.
Qed.

Lemma str_prefix_cons x p c s :
  String.prefix (String x p) (String c s) = bool_decide (x = c) && String.prefix p s.
Proof.
  cbn [String.prefix]. destruct (ascii_dec x c) as [->|Hne].
  - by rewrite bool_decide_eq_true_2.
  - by rewrite bool_decide_eq_false_2.
Qed.

Lemma includes_append_nodot a b :
  all_chars (fun c => negb (bool_decide (c = "."%char))) a = true ->
  includes (a +:+ b) ".." = includes b "..".
Proof.
  induction a as [|c a IH]; [done|]. cbn [all_chars]. intros [Hc Ha]%andb_true_iff.
  rewrite append_cons. cbn [includes]. rewrite (IH Ha).
  apply negb_true_iff, bool_decide_eq_false in Hc.
  by rewrite str_prefix_cons, bool_decide_eq_false_2.
Qed.

Lemma includes_head_nodot c b :
  c <> "."%char -> includes (String c b) ".." = includes b "..".
Proof.
  intros Hc. cbn [includes].
  by rewrite str_prefix_cons, bool_decide_eq_false_2.
Qed.

Lemma digit_facts c :
  CreateHelpers.is_digit c = true ->
  is_ws c = false /\ branch_char c = true /\ c <> "."%char /\ c <> "/"%char
  /\ c <> "\"%char /\ in_range 65 90 c = false /\ c <> "r"%char /\ c <> "H"%char.
Proof.
  destruct c as [[] [] [] [] [] [] [] []]; vm_compute; intros; try discriminate;
    repeat split; congruence.
Qed.

(** X3.  For a positive issue number that is a safe integer (at most
    2^53, which JavaScript prints with all its decimal digits), the name
    that [generateBranchName] builds from it and a valid base name without
    surrounding space is a valid branch name, as long as it has no more
    than 255 characters. *)
Theorem generated_branch_name_valid (n : Z) (baseName : string) :
  (0 < n)%Z ->
  safeInteger n = true ->
  validateBranchName baseName = ok ->
  trim baseName = baseName ->
  String.length (pretty n) + 1 + String.length baseName <= 255 ->
  validateBranchName (generateBranchName (Some n) baseName) = ok.
Proof.
  intros Hn _ Hv Ht Hlen.
  destruct (pretty_positive_digits n Hn) as [Hd Hne].
  destruct (trim_fixed _ Ht) as [_ Hte].
  unfold generateBranchName. destruct (Z.ltb_spec 0 n) as [_|]; [|lia].
  revert Hv. unfold validateBranchName. rewrite !empty_test, Ht.
  case_bool_decide as Hb; [done|].
  destruct (255 <? String.length baseName)%nat; [done|].
  destruct (startsWith baseName ".") eqn:B1; [done|].
  destruct (endsWith baseName ".") eqn:B2; [done|].
  destruct (startsWith baseName "/") eqn:B3; [done|].
  destruct (endsWith baseName "/") eqn:B4; [done|].
  destruct (startsWith baseName "\") eqn:B5; [done|].
  destruct (endsWith baseName "\") eqn:B6; [done|]. cbn [orb].
  destruct (includes baseName "..") eqn:B7; [done|].
  destruct (test_plus branch_char baseName) eqn:B8; [|done]. cbn [negb]. intros _.
  destruct (pretty n) as [|c d] eqn:Ep; [done|]. cbn [all_chars] in Hd.
  apply andb_true_iff in Hd as [Hc Hd].
  destruct (digit_facts c Hc) as (Hws & Hbc & Hdot & Hsl & Hbs & Hup & Hr & HH).
  set (g := String c d +:+ "-" +:+ baseName).
  assert (Hg : trim g = g).
  { unfold trim, g. rewrite append_cons. cbn [trimStart]. rewrite Hws.
    rewrite <- append_cons, <- append_assoc. by apply trimEnd_append. }
  rewrite Hg. rewrite bool_decide_eq_false_2 by done.
  destruct (Nat.ltb_spec 255 (String.length g)) as [Hl|_].
  { unfold g in Hl. rewrite !length_append in Hl. cbn in Hl, Hlen. lia. }
  unfold g at 1 3 5. rewrite append_cons, !startsWith_single.
  rewrite !bool_decide_eq_false_2 by congruence.
  unfold g at 1 2 3. rewrite <- !append_assoc, !endsWith_append by done.
  rewrite B2, B4, B6. cbn [orb].
  assert (Hall : forall p, (forall x, CreateHelpers.is_digit x = true -> p x = true) ->
            p "-"%char = true ->
            all_chars p (d +:+ "-") = true).
  { intros p Hp Hdash. rewrite all_chars_append. cbn. rewrite Hdash.
    rewrite (all_chars_impl CreateHelpers.is_digit p d Hp Hd). done. }
  assert (Hinc : includes g ".." = false).
  { unfold g. rewrite append_cons, includes_head_nodot by done.
    rewrite <- append_assoc, includes_append_nodot; [done|].
    apply Hall; [|done]. intros x Hx. destruct (digit_facts x Hx) as (_ & _ & Hxd & _).
    by rewrite bool_decide_eq_false_2. }
  rewrite Hinc.
  assert (Hcl : test_plus branch_char g = true).
  { unfold g. rewrite append_cons. cbn. rewrite Hbc. cbn.
    rewrite <- append_assoc, all_chars_append, Hall; cbn;
      [|intros x Hx; by destruct (digit_facts x Hx) as (_ & ? & _)|done].
    unfold test_plus in B8. by destruct baseName. }
  rewrite Hcl. cbn [negb].
  rewrite bool_decide_eq_false_2; [done|].
  unfold g. rewrite append_cons. cbn [toLowerCase].
  assert (Hlc : lower_char c = c) by (unfold lower_char; by rewrite Hup).
  rewrite Hlc. intros Hin.
  repeat (apply elem_of_cons in Hin as [Hin|Hin]; [injection Hin as ? _; congruence|]).
  by apply elem_of_nil in Hin.
Qed.

Lemma generated_branch_name_valid_witness :
  validateBranchName (generateBranchName (Some 12%Z) "first-release") = ok.
Proof.
  apply (generated_branch_name_valid 12 "first-release").
  - lia.
  - reflexivity.
  - reflexivity.
  - reflexivity.
  - vm_compute. lia.
Defined.

End GeneratedNames.

(** ** The creation wizard: what it returns *)

Section WizardResults.
Import Create.

Lemma awaitValid_accepts validate rs s rest :
  awaitValid validate rs = (Some s, rest) -> validate s = None.
Proof.
  induction rs as [|r rs IH]; [done|]. cbn. destruct r; try done.
  destruct (validate s0) eqn:E; [done|]. by intros [= <- _].
Qed.

Lemma validateNameInput_accepts env owner n :
  validateNameInput env owner n = None ->
  Validation.validateRepoName n = Validation.ok
  /\ repoExists env (owner +:+ "/" +:+ n) = false.
Proof.
  unfold validateNameInput. destruct (_ || _); [done|].
  destruct (Validation.validateRepoName n) as [[] e] eqn:E; cbn; [|done].
  destruct (repoExists env _); [done|]. intros _. split; [|done].
  revert E. unfold Validation.validateRepoName.
  repeat (case_match; try done).
Qed.

Lemma previous_state wz : state (moveToPreviousStep wz) = state wz.
Proof. unfold moveToPreviousStep. by case_match. Qed.

(** A turn of the wizard leaves the stored name as it is, or stores a name
    that the validator of the name box accepted. *)
Lemma iteration_name env wz w wz' w' :
  iteration env wz w = (Continue wz', w') ->
  name (state wz') = name (state wz)
  \/ exists n, name (state wz') = Some n
       /\ Validation.validateRepoName n = Validation.ok.
Proof.
  destruct wz as [st s].
  unfold iteration, polled, stepOwner, stepName, stepDescription, stepVisibility,
    stepTemplate, stepReadme, stepLicense, stepIssue, stepBranch, stepWorkspace,
    stepAdvanced, polled, choice, pickOrDefault, showPick, showInputBox,
    showValidatedInputBox, nextResponse, emit, bind, ret, isCancellationRequested.
  destruct s; cbn [currentStep state];
    repeat (case_match; try discriminate); intros [= <- <-];
    rewrite ?previous_state; cbn [currentStep state moveToNextStep store goto name
      set_selectedOwner set_name set_description set_visibility set_useTemplate
      set_template set_addReadme set_license set_createIssue set_issueTitle
      set_issueBody set_createBranch set_branchName set_setupWorkspace
      set_advancedConfig set_settings];
    try (by left).
  all: right; eexists; split; [reflexivity|].
  all: simplify_eq.
  all: match goal with
       | H : awaitValid _ _ = (Some _, _) |- _ =>
           apply awaitValid_accepts, validateNameInput_accepts in H as [? _]
       end; done.
Qed.

Lemma iteration_return env wz w r w' :
  iteration env wz w = (Return r, w') ->
  r = None \/ exists sts, r = buildResult sts /\ currentStep wz = ADVANCED
                          /\ name sts = name (state wz)
                          /\ createIssue sts = createIssue (state wz)
                          /\ createBranch sts = createBranch (state wz)
                          /\ branchName sts = branchName (state wz).
Proof.
  destruct wz as [st s].
  unfold iteration, polled, stepOwner, stepName, stepDescription, stepVisibility,
    stepTemplate, stepReadme, stepLicense, stepIssue, stepBranch, stepWorkspace,
    stepAdvanced, polled, choice, pickOrDefault, showPick, showInputBox,
    showValidatedInputBox, nextResponse, emit, bind, ret, isCancellationRequested.
  destruct s; cbn [currentStep state];
    repeat (case_match; try discriminate); intros [= <- <-];
    try (by left); right; eexists; (split; [reflexivity|]); done.
Qed.

(** Induction over the navigation loop. *)
Lemma loop_invariant env (J : Wizard -> Prop) (Q : option CreateRepoOptions -> Prop) :
  (forall wz w wz' w', J wz -> iteration env wz w = (Continue wz', w') -> J wz') ->
  (forall wz w r w', J wz -> iteration env wz w = (Return r, w') -> Q r) ->
  Q None ->
  forall fuel wz w r w', J wz -> loop fuel env wz w = (Some r, w') -> Q r.
Proof.
  intros Hstep Hret Hnone. induction fuel as [|fuel IH]; intros wz w r w' HJ; [done|].
  cbn [loop]. case_bool_decide; [by intros [= <- _]|].
  unfold bind. destruct (iteration env wz w) as [[wz1|r1] w1] eqn:E.
  - apply IH. by eapply Hstep.
  - intros [= <- _]. by eapply Hret.
Qed.

Lemma collectUserInputs_loop env w o :
  fst (collectUserInputs env w) = Some o ->
  exists fuel w0 w', loop fuel env start w0 = (Some (Some o), w').
Proof.
  unfold collectUserInputs, bind, tick, ret.
  destruct (isCancellationRequested (token env) w) as [[] w1]; [done|].
  destruct (isCancellationRequested (token env) _) as [[] w2]; [done|].
  destruct (loop (enough w2) env start w2) as [r w'] eqn:E. cbn. intros Hr.
  exists (enough w2), w2, w'. destruct r as [r|]; cbn in Hr; by subst.
Qed.

Lemma validateBranchInput_accepts b :
  validateBranchInput b = None -> Validation.validateBranchName b = Validation.ok.
Proof.
  unfold validateBranchInput. destruct (_ || _); [done|].
  destruct (Validation.validateBranchName b) as [[] e] eqn:E; cbn; [|by destruct e].
  intros _. revert E. unfold Validation.validateBranchName.
  repeat (case_match; try done).
Qed.

(** A turn of the wizard leaves the stored branch name as it is, clears it,
    or stores a name that the validator of the branch box accepted. *)
Lemma iteration_branchName env wz w wz' w' :
  iteration env wz w = (Continue wz', w') ->
  branchName (state wz') = branchName (state wz)
  \/ branchName (state wz') = None
  \/ exists b, branchName (state wz') = Some b
       /\ Validation.validateBranchName b = Validation.ok.
Proof.
  destruct wz as [st s].
  unfold iteration, polled, stepOwner, stepName, stepDescription, stepVisibility,
    stepTemplate, stepReadme, stepLicense, stepIssue, stepBranch, stepWorkspace,
    stepAdvanced, polled, choice, pickOrDefault, showPick, showInputBox,
    showValidatedInputBox, nextResponse, emit, bind, ret, isCancellationRequested.
  destruct s; cbn [currentStep state];
    repeat (case_match; try discriminate); intros [= <- <-];
    rewrite ?previous_state; cbn [currentStep state moveToNextStep store goto branchName
      set_selectedOwner set_name set_description set_visibility set_useTemplate
      set_template set_addReadme set_license set_createIssue set_issueTitle
      set_issueBody set_createBranch set_branchName set_setupWorkspace
      set_advancedConfig set_settings];
    try (by left); try (by right; left).
  all: right; right; eexists; split; [reflexivity|].
  all: simplify_eq.
  all: match goal with
       | H : awaitValid _ _ = (Some _, _) |- _ =>
           by apply awaitValid_accepts, validateBranchInput_accepts in H
       end.
Qed.

Lemma collectUserInputs_names env w o :
  fst (collectUserInputs env w) = Some o ->
  Validation.validateRepoName (o_name o) = Validation.ok
  /\ (forall b, o_branchName o = Some b ->
       Validation.validateBranchName b = Validation.ok).
Proof.
  intros Ho. destruct (collectUserInputs_loop _ _ _ Ho) as (fuel & w0 & w' & Hl).
  refine (loop_invariant env
    (fun wz => (forall n, name (state wz) = Some n ->
                Validation.validateRepoName n = Validation.ok)
               /\ (forall b, branchName (state wz) = Some b ->
                   Validation.validateBranchName b = Validation.ok))
    (fun r => forall o, r = Some o ->
              Validation.validateRepoName (o_name o) = Validation.ok
              /\ (forall b, o_branchName o = Some b ->
                   Validation.validateBranchName b = Validation.ok))
    _ _ _ fuel start w0 (Some o) w' _ Hl o eq_refl).
  - intros wz w1 wz1 w1' [HJ1 HJ2] Hit. split.
    + intros n Hn.
      destruct (iteration_name _ _ _ _ _ Hit) as [E|(m & E & Hv)].
      * apply HJ1. by rewrite <- E.
      * rewrite E in Hn. by simplify_eq.
    + intros b Hb.
      destruct (iteration_branchName _ _ _ _ _ Hit) as [E|[E|(m & E & Hv)]].
      * apply HJ2. by rewrite <- E.
      * congruence.
      * rewrite E in Hb. by simplify_eq.
  - intros wz w1 r w1' [HJ1 HJ2] Hit o1 ->.
    destruct (iteration_return _ _ _ _ _ Hit) as [?|(sts & E & _ & Hn & _ & _ & Hb)];
      [done|].
    unfold buildResult in E. destruct (name sts) as [n|] eqn:En; [|done].
    destruct (_ || _); [done|]. injection E as ->. cbn. split.
    + apply HJ1. by rewrite <- Hn.
    + intros b. rewrite Hb. apply HJ2.
  - done.
  - done.
Qed.

(** X4.  The options that the creation wizard returns hold a repository
    name that [validateRepoName] accepts and, when they hold a branch name,
    one that [validateBranchName] accepts. *)
Theorem wizard_names_are_valid env w o :
  fst (collectUserInputs env w) = Some o ->
  Validation.validateRepoName (o_name o) = Validation.ok
  /\ (forall b, o_branchName o = Some b ->
       Validation.validateBranchName b = Validation.ok).
Proof. exact (collectUserInputs_names env w o). Qed.

Lemma wizard_names_are_valid_witness :
  Validation.validateRepoName (o_name Runs.optionsWithBranch) = Validation.ok
  /\ (forall b, o_branchName Runs.optionsWithBranch = Some b ->
       Validation.validateBranchName b = Validation.ok).
Proof.
  apply (wizard_names_are_valid Samples.wizardEnv Runs.branchWorld Runs.optionsWithBranch).
  vm_compute. reflexivity.
Defined.

End WizardResults.

Section WizardBranches.
Import Create Invariants.

Lemma next_of st s :
  getNextStep (mkWizard st s)
  = match s with
    | OWNER => NAME | NAME => DESCRIPTION | DESCRIPTION => VISIBILITY
    | VISIBILITY => TEMPLATE
    | TEMPLATE => if truthy (template st) then ISSUE else README
    | README => if truthy (template st) then DONE else LICENSE
    | LICENSE => if truthy (template st) then DONE else ISSUE
    | ISSUE => BRANCH | BRANCH => WORKSPACE | WORKSPACE => ADVANCED
    | ADVANCED => DONE | DONE => DONE
    end.
Proof.
  unfold getNextStep, getStepSequence. cbn [state currentStep].
  destruct (truthy (template st)), s; reflexivity.
Qed.

(** What a picker hands on: nothing, or one of the options of the step;
    it never hands on the back item. *)
Lemma choice_forward wz options dflt k d w o w' :
  (forall b, find_item dflt (addBackOption options b) = Some d) ->
  d ∈ options -> Forall (fun it => label it <> backLabel) options ->
  choice wz options dflt k w = (o, w') ->
  o = Return None \/ exists it, it ∈ options /\ k it (consume w) = (o, w').
Proof.
  intros Hd Hin Hall. unfold choice, pickOrDefault, showPick, nextResponse, bind, ret.
  rewrite Hd. rewrite Forall_forall in Hall.
  destruct (default Dismiss (head (script w))) as [|i|t]; try (intros [= <- <-]; by left).
  destruct (addBackOption options (canGoBack wz) !! i) as [it|] eqn:Hi;
    [|intros [= <- <-]; by left].
  cbn beta iota. destruct (decide (label it = backLabel)) as [Hb|Hb].
  - rewrite (bool_decide_eq_true_2 _ Hb).
    rewrite bool_decide_eq_false_2 by (by apply Hall). intros Hk. right. by exists d.
  - rewrite !(bool_decide_eq_false_2 _ Hb). intros Hk. right. exists it. split; [|done].
    apply list_elem_of_lookup_2 in Hi. unfold addBackOption in Hi.
    destruct (canGoBack wz); [|done].
    apply elem_of_cons in Hi as [->|Hi]; [done|done].
Qed.

(** Hand a picker's equation over to [choice_forward] and go through the
    options of the step. *)
Ltac through_choice H :=
  eapply choice_forward in H;
  [ destruct H as [H|(it & Hin & H)];
    [ discriminate H
    | repeat (apply elem_of_cons in Hin as [->|Hin]);
      [ .. | by apply elem_of_nil in Hin ] ]
  | intros []; reflexivity
  | repeat constructor
  | repeat constructor; discriminate ].

Ltac settle :=
  unfold branchAfterIssue, moveToNextStep, store, goto in *;
  cbn [state currentStep] in *; rewrite ?next_of;
  cbn [state currentStep createIssue createBranch
       set_selectedOwner set_name set_description set_visibility set_useTemplate
       set_template set_addReadme set_license set_createIssue set_issueTitle
       set_issueBody set_createBranch set_branchName set_setupWorkspace
       set_advancedConfig set_settings] in *;
  repeat case_match; try done.

Lemma iteration_branchAfterIssue env wz w wz' w' :
  branchAfterIssue wz -> iteration env wz w = (Continue wz', w') -> branchAfterIssue wz'.
Proof.
  destruct wz as [st s]. intros HJ.
  unfold iteration, polled, bind at 1.
  destruct (isCancellationRequested (token env) w) as [[] w1]; [done|].
  destruct s; cbn [currentStep].
  - (* OWNER *)
    unfold stepOwner, bind, ret. destruct (showPick _ w1) as [[it|] w2]; [|done].
    intros [= <- <-]. settle.
  - (* NAME *)
    unfold stepName, bind, emit, ret. case_match.
    + intros [= <- <-]. unfold branchAfterIssue, moveToPreviousStep, getStepSequence.
      cbn. by destruct (truthy (template st)).
    + destruct (showValidatedInputBox _ w1) as [[n|] w2]; [|done].
      case_bool_decide; intros [= <- <-]; settle.
  - (* DESCRIPTION *)
    unfold stepDescription, polled, bind, ret.
    destruct (isCancellationRequested _ w1) as [[] w2]; [done|].
    destruct (showInputBox w2) as [[d|] w3]; [|done]. intros [= <- <-]. settle.
  - (* VISIBILITY *)
    unfold stepVisibility, polled, bind at 1.
    destruct (isCancellationRequested _ w1) as [[] w2]; [done|].
    intros H. through_choice H; revert H; unfold ret; intros [= <- <-]; settle.
  - (* TEMPLATE *)
    unfold stepTemplate, polled, bind at 1.
    destruct (isCancellationRequested _ w1) as [[] w2]; [done|].
    intros H. through_choice H; revert H; cbn -[consume]; unfold bind, ret;
      repeat case_match; intros [= <- <-]; settle.
  - (* README *)
    unfold stepReadme, polled, bind at 1.
    destruct (isCancellationRequested _ w1) as [[] w2]; [done|].
    intros H. through_choice H; revert H; unfold ret; intros [= <- <-]; settle.
  - (* LICENSE *)
    unfold stepLicense.
    intros H. through_choice H; revert H; unfold ret; intros [= <- <-]; settle.
  - (* ISSUE *)
    unfold stepIssue, polled, bind at 1.
    destruct (isCancellationRequested _ w1) as [[] w2]; [done|].
    intros H. through_choice H; revert H; cbn -[consume]; unfold bind, ret;
      repeat case_match; intros [= <- <-]; settle; cbn; auto.
  - (* BRANCH *)
    unfold stepBranch, polled, bind at 1.
    destruct (isCancellationRequested _ w1) as [[] w2]; [done|].
    cbn [state]. destruct (label_is (createIssue st) "No") eqn:Hno.
    + unfold ret. intros [= <- <-]. settle.
    + assert (Hyes : label_is (createIssue st) "Yes" = true).
      { cbn in HJ. destruct HJ as [?|?]; congruence. }
      intros H. through_choice H; revert H; cbn -[consume]; unfold bind, ret;
        repeat case_match; intros [= <- <-]; settle; cbn; auto.
  - (* WORKSPACE *)
    unfold stepWorkspace, polled, bind at 1.
    destruct (isCancellationRequested _ w1) as [[] w2]; [done|].
    intros H. through_choice H; revert H; cbn -[consume]; unfold ret;
      intros [= <- <-]; settle.
  - (* ADVANCED *)
    unfold stepAdvanced, polled, bind at 1.
    destruct (isCancellationRequested _ w1) as [[] w2]; [done|].
    intros H. through_choice H; revert H; cbn -[consume settingsLoop]; unfold ret;
      repeat case_match; intros [= <- <-]; settle.
  - (* DONE *)
    unfold ret. by intros [= <- <-].
Qed.

Lemma collectUserInputs_branch env w o :
  fst (collectUserInputs env w) = Some o ->
  o_createBranch o = true -> o_createIssue o = true.
Proof.
  intros Ho. destruct (collectUserInputs_loop _ _ _ Ho) as (fuel & w0 & w' & Hl).
  refine (loop_invariant env branchAfterIssue
    (fun r => forall o, r = Some o -> o_createBranch o = true -> o_createIssue o = true)
    _ _ _ fuel start w0 (Some o) w' _ Hl o eq_refl).
  - intros wz w1 wz1 w1' HJ Hit. by eapply iteration_branchAfterIssue.
  - intros wz w1 r w1' HJ Hit o1 ->.
    destruct (iteration_return _ _ _ _ _ Hit) as [?|(sts & E & Hs & _ & Hi & Hb & _)];
      [done|].
    unfold branchAfterIssue in HJ. rewrite Hs in HJ.
    unfold buildResult in E. destruct (_ || _); [done|]. injection E as ->. cbn.
    rewrite Hi, Hb. exact HJ.
  - done.
  - done.
Qed.

(** X5.  The creation wizard returns [createBranch] only together with
    [createIssue]. *)
Theorem branch_only_with_issue env w o :
  fst (collectUserInputs env w) = Some o ->
  o_createBranch o = true -> o_createIssue o = true.
Proof. exact (collectUserInputs_branch env w o). Qed.

Lemma branch_only_with_issue_witness : o_createIssue Runs.optionsWithBranch = true.
Proof.
  apply (branch_only_with_issue Samples.wizardEnv Runs.branchWorld Runs.optionsWithBranch).
  - vm_compute. reflexivity.
  - reflexivity.
Defined.

(** ** The creation wizard: the template, once entered *)












End WizardBranches.

(** ** The creation wizard: the back item of a pick *)

Section BackItem.
Import Create.

(** X6.  On the steps of the creation wizard that show a pick with a back
    item, accepting the back item is the same turn as accepting the first
    option behind it: the wizard does not go back.  The turn is not
    cancelled, and at the branch step the issue answer is not "No", for
    which the step shows no pick. *)
Theorem back_item_selects_default env st s w rest :
  s ∈ [VISIBILITY; TEMPLATE; README; LICENSE; ISSUE; BRANCH; WORKSPACE; ADVANCED] ->
  canGoBack (mkWizard st s) = true ->
  (s = BRANCH -> label_is (createIssue st) "No" = false) ->
  fst (isCancellationRequested (token env) w) = false ->
  script w = Accept 0 :: rest ->
  iteration env (mkWizard st s) w
  = iteration env (mkWizard st s) (mkWorld (clock w) (Accept 1 :: rest) (trace w)).
Proof.
  intros Hs Hcan Hbr Hc Hw.
  assert (Hpoll : forall sc, isCancellationRequested (token env)
                    (mkWorld (clock w) sc (trace w))
                  = (false, mkWorld (clock w) sc (trace w))).
  { intros sc. revert Hc. unfold isCancellationRequested. cbn.
    destruct (token env); [|done]. by intros ->. }
  assert (Hpoll0 : isCancellationRequested (token env) w = (false, w)).
  { revert Hc. unfold isCancellationRequested. cbn.
    destruct (token env); [|done]. by intros ->. }
  repeat (apply elem_of_cons in Hs as [->|Hs]); [..|by apply elem_of_nil in Hs].
  all: unfold iteration, stepVisibility, stepTemplate, stepReadme, stepLicense,
         stepIssue, stepBranch, stepWorkspace, stepAdvanced, polled, bind;
       rewrite ?Hpoll, ?Hpoll0; cbn [currentStep state];
       rewrite ?Hpoll, ?Hpoll0;
       try rewrite (Hbr eq_refl);
       unfold choice, pickOrDefault, showPick, nextResponse, bind, ret, consume;
       cbn [clock script trace]; rewrite ?Hcan, ?Hw;
       cbn [head default lookup list_lookup addBackOption];
       reflexivity.
Qed.

Lemma back_item_selects_default_witness :
  iteration Samples.wizardEnv Samples.onIssue Samples.answerBack
  = iteration Samples.wizardEnv Samples.onIssue Samples.answerNo.
Proof.
  apply (back_item_selects_default Samples.wizardEnv emptyState ISSUE Samples.answerBack []).
  - set_solver.
  - reflexivity.
  - discriminate.
  - reflexivity.
  - reflexivity.
Defined.

End BackItem.

(** ** Events that a computation keeps out of the trace *)

Section Avoiding.
Import Trace.
Variable P : Event -> bool.

Lemma avoids_ret {A} (a : A) : avoids P (ret a).
Proof. done. Qed.

Lemma avoids_tick : avoids P tick.
Proof. done. Qed.

Lemma avoids_poll token : avoids P (isCancellationRequested token).
Proof. intros w. unfold isCancellationRequested. by destruct token. Qed.

Lemma avoids_emit e : P e = false -> avoids P (emit e).
Proof.
  intros He w. unfold emit. cbn [snd trace]. rewrite List.filter_app. cbn.
  rewrite He. by rewrite app_nil_r.
Qed.

Lemma avoids_bind {A B} (m : M A) (k : A -> M B) :
  avoids P m -> (forall a, avoids P (k a)) -> avoids P (bind m k).
Proof.
  intros Hm Hk w. unfold bind. specialize (Hm w). destruct (m w) as [a w1].
  rewrite Hk. exact Hm.
Qed.

Lemma avoids_bind_with {A B} (Q : A -> Prop) (m : M A) (k : A -> M B) :
  avoids P m -> (forall w, Q (fst (m w))) -> (forall a, Q a -> avoids P (k a)) ->
  avoids P (bind m k).
Proof.
  intros Hm HQ Hk w. unfold bind. specialize (Hm w). specialize (HQ w).
  destruct (m w) as [a w1]. rewrite (Hk a HQ). exact Hm.
Qed.

Lemma avoids_showPick items : avoids P (showPick items).
Proof. done. Qed.

Lemma avoids_showInputBox : avoids P showInputBox.
Proof. done. Qed.

Lemma avoids_showValidatedInputBox validate : avoids P (showValidatedInputBox validate).
Proof. intros w. unfold showValidatedInputBox. by destruct (awaitValid _ _). Qed.

Lemma avoids_executeGhCommand token proc command :
  P (GhCommand command) = false -> avoids P (executeGhCommand token proc command).
Proof.
  intros Hc. unfold executeGhCommand.
  apply avoids_bind; [apply avoids_poll|]. intros c. destruct c; [apply avoids_ret|].
  apply avoids_bind; [by apply avoids_emit|]. intros _.
  apply avoids_bind; [apply avoids_tick|]. intros _.
  apply avoids_bind; [apply avoids_poll|]. intros c. apply avoids_ret.
Qed.

End Avoiding.

Create HintDb avoid discriminated.
#[export] Hint Resolve avoids_ret avoids_tick avoids_poll avoids_showPick
  avoids_showInputBox avoids_showValidatedInputBox : avoid.

(** Go through a computation that is built from parts that avoid [P]; an
    emitted event is tested by evaluation. *)
Ltac avoid_solve :=
  repeat (intros; cbv zeta;
    match goal with
    | |- Trace.avoids _ _ => solve [auto 1 with avoid nocore]
    | |- Trace.avoids _ (emit _) => apply avoids_emit; reflexivity
    | |- Trace.avoids _ (bind _ _) => apply avoids_bind
    | |- Trace.avoids _ (if ?b then _ else _) => destruct b
    | |- Trace.avoids _ (match ?x with _ => _ end) => destruct x
    end).

Section ModifyResults.
Import Trace.

Lemma modify_iteration_return token cur wz w r w' :
  Modify.iteration token cur wz w = (Modify.Return r, w') -> r = None.
Proof.
  unfold Modify.iteration, Modify.booleanStep, Modify.promptBooleanSetting, showPick,
    showInputBox, nextResponse, bind, ret, isCancellationRequested.
  destruct wz as [m s cat]. destruct s; cbn [Modify.currentStep];
    repeat case_match; intros [= <- <-]; done.
Qed.

Lemma modify_loop_result fuel token cur wz w m w' :
  Modify.loop fuel token cur wz w = (Some (Some m), w') -> 0 < keyCount m.
Proof.
  revert wz w. induction fuel as [|fuel IH]; intros wz w; [done|].
  cbn [Modify.loop]. case_bool_decide.
  - unfold ret. case_bool_decide; [by intros [= <- _]|done].
  - unfold bind. destruct (Modify.iteration token cur wz w) as [[wz1|r] w1] eqn:E.
    + apply IH.
    + apply modify_iteration_return in E as ->. done.
Qed.

Lemma collectModifications_result token cur w m :
  fst (Modify.collectModifications token cur w) = Some m -> 0 < keyCount m.
Proof.
  unfold Modify.collectModifications, bind, ret.
  destruct (isCancellationRequested token w) as [[] w1]; [done|].
  destruct (Modify.loop _ _ _ _ _) as [r w'] eqn:E. cbn. intros Hr.
  destruct r as [r|]; cbn in Hr; [|done]. subst r. by eapply modify_loop_result.
Qed.

Lemma avoids_modify_prompt P token cur back :
  avoids P (Modify.promptBooleanSetting token cur back).
Proof. unfold Modify.promptBooleanSetting. avoid_solve. Qed.

Lemma avoids_modify_iteration P token cur wz : avoids P (Modify.iteration token cur wz).
Proof.
  pose proof (avoids_modify_prompt P).
  unfold Modify.iteration, Modify.booleanStep. avoid_solve.
Qed.

Lemma avoids_modify_loop P fuel token cur wz : avoids P (Modify.loop fuel token cur wz).
Proof.
  revert wz. induction fuel as [|fuel IH]; intros wz; [apply avoids_ret|].
  pose proof (avoids_modify_iteration P). cbn [Modify.loop]. avoid_solve.
Qed.

Lemma avoids_collectModifications P token cur :
  avoids P (Modify.collectModifications token cur).
Proof.
  unfold Modify.collectModifications.
  apply avoids_bind; [apply avoids_poll|]. intros c. destruct c; [apply avoids_ret|].
  intros w. pose proof (avoids_modify_loop P (Modify.enough w) token cur Modify.start w).
  by destruct (Modify.loop _ _ _ _ _).
Qed.

Lemma avoids_selectRepository P env :
  P (ShowWarning "No repositories found. Make sure you have access to at least one repository.") = false ->
  avoids P (Modify.selectRepository env).
Proof. intros HP. unfold Modify.selectRepository. avoid_solve. by apply avoids_emit. Qed.

Lemma avoids_applyRepositorySettings P patch repo chosen cur :
  (forall ep body, P (GhPatch ep body) = false) ->
  avoids P (applyRepositorySettings patch repo chosen cur).
Proof.
  intros HP. unfold applyRepositorySettings. avoid_solve. by apply avoids_emit.
Qed.

(** X7.  [collectModifications] returns modifications only when at least
    one key is set, so [modifyRepository] never shows the message that there
    are no changes to apply. *)
Theorem modifications_never_empty :
  (forall token cur w m,
     fst (Modify.collectModifications token cur w) = Some m -> 0 < keyCount m)
  /\ (forall env repoName,
       avoids (isInfo "No changes to apply. Repository settings are already as specified.")
         (Modify.modifyRepository env repoName)).
Proof.
  split; [exact collectModifications_result|].
  intros env repoName.
  set (P := isInfo _).
  pose proof (avoids_selectRepository P env eq_refl) as Hsel.
  pose proof (avoids_applyRepositorySettings P) as Happ.
  pose proof (avoids_collectModifications P) as Hcol.
  unfold Modify.modifyRepository.
  apply avoids_bind; [avoid_solve|]. intros [targetRepo|]; [|apply avoids_ret].
  apply avoids_bind; [apply avoids_poll|]. intros c. destruct c; [apply avoids_ret|].
  case_bool_decide; [apply avoids_ret|].
  apply avoids_bind; [apply avoids_tick|]. intros _.
  destruct (Modify.fetched env) as [current|]; [|by apply avoids_emit].
  apply avoids_bind; [apply avoids_poll|]. intros c. destruct c; [apply avoids_ret|].
  apply (avoids_bind_with P (fun r => forall m, r = Some m -> 0 < keyCount m));
    [apply Hcol | intros w m; apply collectModifications_result |].
  intros [m|] Hm; [|apply avoids_ret].
  specialize (Hm m eq_refl). rewrite bool_decide_eq_false_2 by lia.
  apply avoids_bind; [apply avoids_poll|]. intros c. destruct c; [apply avoids_ret|].
  apply avoids_bind; [by apply Happ|]. intros r.
  destruct (noChanges r); [by apply avoids_emit|].
  destruct (negb (success r)); apply avoids_emit; [done|].
  unfold P, isInfo. apply bool_decide_eq_false_2. cbv -[String.append]. intros [=].
Qed.

Lemma modifications_never_empty_witness :
  0 < keyCount (default noSettings
                  (fst (Modify.collectModifications None Samples.remote Samples.wikiOff))).
Proof.
  destruct modifications_never_empty as [H _].
  apply (H None Samples.remote Samples.wikiOff). vm_compute. reflexivity.
Defined.

End ModifyResults.

(** ** The creation flow on a repository that exists *)

Section ExistingRepository.
Import Trace.

Lemma avoids_create_prompt P token dflt back :
  avoids P (Create.promptBooleanSetting token dflt back).
Proof. unfold Create.promptBooleanSetting. avoid_solve. Qed.

Lemma avoids_settingsLoop P fuel token i settings :
  avoids P (Create.settingsLoop fuel token i settings).
Proof.
  revert i settings. induction fuel as [|fuel IH]; intros i settings; [apply avoids_ret|].
  pose proof (avoids_create_prompt P). cbn [Create.settingsLoop]. avoid_solve.
Qed.

Lemma avoids_create_iteration P env wz :
  P (ShowError "Owner not selected. Please go back and select an owner.") = false ->
  avoids P (Create.iteration env wz).
Proof.
  intros HP. pose proof (avoids_settingsLoop P) as H.
  pose proof (avoids_emit P _ HP).
  unfold Create.iteration, Create.polled, Create.stepOwner, Create.stepName,
    Create.stepDescription, Create.stepVisibility, Create.stepTemplate, Create.stepReadme,
    Create.stepLicense, Create.stepIssue, Create.stepBranch, Create.stepWorkspace,
    Create.stepAdvanced, Create.polled, Create.choice, Create.pickOrDefault.
  avoid_solve.
  intros w.
  pose proof (H (Create.enoughSettings w) (Create.token env) 0 noSettings w) as Hw.
  destruct (Create.settingsLoop _ _ _ _ _) as [r w']. by destruct (default None r).
Qed.

Lemma avoids_create_loop P fuel env wz :
  P (ShowError "Owner not selected. Please go back and select an owner.") = false ->
  avoids P (Create.loop fuel env wz).
Proof.
  intros HP. revert wz. induction fuel as [|fuel IH]; intros wz; [apply avoids_ret|].
  pose proof (fun wz => avoids_create_iteration P env wz HP).
  cbn [Create.loop]. avoid_solve.
Qed.

Lemma avoids_collectUserInputs P env :
  P (ShowError "Owner not selected. Please go back and select an owner.") = false ->
  avoids P (Create.collectUserInputs env).
Proof.
  intros HP. unfold Create.collectUserInputs.
  apply avoids_bind; [apply avoids_poll|]. intros c. destruct c; [apply avoids_ret|].
  apply avoids_bind; [apply avoids_tick|]. intros _.
  apply avoids_bind; [apply avoids_tick|]. intros _.
  apply avoids_bind; [apply avoids_poll|]. intros c. destruct c; [apply avoids_ret|].
  intros w. pose proof (avoids_create_loop P (Create.enough w) env Create.start HP w).
  by destruct (Create.loop _ _ _ _).
Qed.

Lemma delete_is_no_create repoName :
  isCreateCommand (GhCommand ("gh repo delete " +:+ repoName +:+ " --yes")) = false.
Proof. reflexivity. Qed.

Lemma deleteRepositorySilently_result proc repoName w :
  fst (Create.deleteRepositorySilently proc repoName w) = exit_ok proc.
Proof.
  unfold Create.deleteRepositorySilently, executeGhCommand, bind, emit, tick, ret,
    isCancellationRequested. cbn. by destruct (exit_ok proc).
Qed.

Lemma avoids_deleteRepositorySilently proc repoName :
  avoids isCreateCommand (Create.deleteRepositorySilently proc repoName).
Proof.
  unfold Create.deleteRepositorySilently.
  apply avoids_bind; [|intros; apply avoids_ret].
  apply avoids_executeGhCommand, delete_is_no_create.
Qed.

Lemma avoids_create_modifyRepository env repoName :
  avoids isCreateCommand (Modify.modifyRepository env repoName).
Proof.
  pose proof (avoids_selectRepository isCreateCommand env eq_refl) as Hsel.
  pose proof (avoids_applyRepositorySettings isCreateCommand) as Happ.
  pose proof (avoids_collectModifications isCreateCommand) as Hcol.
  unfold Modify.modifyRepository. avoid_solve. by apply Happ.
Qed.

(** X10.  When the repository exists already and the user dismisses the
    question, skips, modifies the existing repository, or asks to recreate
    it and the deletion fails, the creation flow runs no [gh repo create]. *)
Theorem existing_repository_not_recreated env :
  Create.existsNow env = true ->
  Create.truthy (Create.existingAction env) = false
  \/ Create.existingAction env = Some "Skip"
  \/ Create.existingAction env = Some "Modify Existing"
  \/ (Create.existingAction env = Some "Delete and Recreate"
      /\ exit_ok (Create.deleteExisting env) = false) ->
  avoids isCreateCommand (Create.createRepository env).
Proof.
  intros Hex Hact.
  assert (Hstage : forall o full, avoids isCreateCommand (Create.stageExists env o full)).
  { intros o full. unfold Create.stageExists, Create.cancelRequested.
    apply avoids_bind; [apply avoids_poll|]. intros c. destruct c; [apply avoids_ret|].
    apply avoids_bind; [apply avoids_tick|]. intros _. rewrite Hex.
    apply avoids_bind; [by apply avoids_emit|]. intros _.
    apply avoids_bind; [apply avoids_tick|]. intros _. cbv zeta.
    destruct Hact as [Ha|[Ha|[Ha|[Ha Hd]]]]; rewrite Ha; cbn [negb orb].
    - by apply avoids_emit.
    - rewrite bool_decide_eq_true_2 by done. rewrite orb_true_r. by apply avoids_emit.
    - cbn. apply avoids_create_modifyRepository.
    - cbn.
      apply (avoids_bind_with _ (fun d => d = false));
        [apply avoids_deleteRepositorySilently
        |intros w; by rewrite deleteRepositorySilently_result|].
      intros d ->. by apply avoids_emit. }
  pose proof (avoids_collectUserInputs isCreateCommand (Create.wizard env) eq_refl).
  unfold Create.createRepository, Create.cancelRequested. avoid_solve.
Qed.

Lemma existing_repository_not_recreated_witness :
  avoids isCreateCommand (Create.createRepository Runs.existingEnv).
Proof.
  apply (existing_repository_not_recreated Runs.existingEnv).
  - reflexivity.
  - right. left. reflexivity.
Defined.

End ExistingRepository.

(** ** The settings request of the creation flow *)

Section CreationPatch.
Import Spec.

Lemma include_lookup_none {A} `{EqDecision A} key (inj : A -> JsValue) f chosen api :
  include key inj f chosen None api !! key
  = match f chosen with Some v => Some (inj v) | None => api !! key end.
Proof.
  unfold include, differs. destruct (f chosen) as [v|]; [|done].
  apply lookup_insert_eq.
Qed.

(** Read the request body at the key of one [include], without current
    settings. *)
Ltac lookup_sent :=
  unfold buildApiSettings;
  rewrite ?include_lookup_ne by done;
  rewrite include_lookup_none;
  rewrite ?include_lookup_ne by done; rewrite ?lookup_empty.

(** A key that is not in the request body has no chosen value. *)
Ltac field_unset H k :=
  generalize (H k); unfold settingOf; eval_decides;
  match goal with |- ?l = None -> ?f = None => by destruct f end.

Lemma buildApiSettings_sent chosen k :
  buildApiSettings chosen None !! k = settingOf k chosen.
Proof.
  unfold settingOf.
  destruct (decide (k = "description")) as [->|?];
    [lookup_sent; eval_decides; by destruct (description chosen)|].
  destruct (decide (k = "visibility")) as [->|?];
    [lookup_sent; eval_decides; by destruct (visibility chosen)|].
  destruct (decide (k = "has_wiki")) as [->|?];
    [lookup_sent; eval_decides; by destruct (hasWiki chosen)|].
  destruct (decide (k = "has_issues")) as [->|?];
    [lookup_sent; eval_decides; by destruct (hasIssues chosen)|].
  destruct (decide (k = "has_projects")) as [->|?];
    [lookup_sent; eval_decides; by destruct (hasProjects chosen)|].
  destruct (decide (k = "has_discussions")) as [->|?];
    [lookup_sent; eval_decides; by destruct (hasDiscussions chosen)|].
  destruct (decide (k = "allow_squash_merge")) as [->|?];
    [lookup_sent; eval_decides; by destruct (allowSquashMerge chosen)|].
  destruct (decide (k = "allow_merge_commit")) as [->|?];
    [lookup_sent; eval_decides; by destruct (allowMergeCommit chosen)|].
  destruct (decide (k = "allow_rebase_merge")) as [->|?];
    [lookup_sent; eval_decides; by destruct (allowRebaseMerge chosen)|].
  destruct (decide (k = "allow_auto_merge")) as [->|?];
    [lookup_sent; eval_decides; by destruct (allowAutoMerge chosen)|].
  destruct (decide (k = "delete_branch_on_merge")) as [->|?];
    [lookup_sent; eval_decides; by destruct (deleteBranchOnMerge chosen)|].
  destruct (decide (k = "allow_update_branch")) as [->|?];
    [lookup_sent; eval_decides; by destruct (allowUpdateBranch chosen)|].
  destruct (decide (k = "web_commit_signoff_required")) as [->|?];
    [lookup_sent; eval_decides; by destruct (webCommitSignoffRequired chosen)|].
  unfold buildApiSettings. rewrite !include_lookup_ne by done.
  rewrite lookup_empty. by rewrite !bool_decide_eq_false_2 by done.
Qed.

(** X8.  Without current settings, as in the creation flow, the body of
    the PATCH request holds every chosen value; it is empty exactly when no
    key is chosen, and when a key is chosen the request is sent. *)
Theorem creation_patch_sends_every_choice :
  (forall chosen k, buildApiSettings chosen None !! k = settingOf k chosen)
  /\ (forall chosen, buildApiSettings chosen None = ∅ <-> keyCount chosen = 0)
  /\ (forall patch repo chosen w,
        0 < keyCount chosen ->
        trace (snd (applyRepositorySettings patch repo chosen None w))
        = (trace w ++ [GhPatch (endpointOf repo) (buildApiSettings chosen None)])%list).
Proof.
  assert (Hempty : forall chosen, buildApiSettings chosen None = ∅ <-> keyCount chosen = 0).
  { intros chosen. split.
    - intros E.
      pose proof (fun k => eq_trans (eq_sym (buildApiSettings_sent chosen k))
                             (eq_trans (f_equal (fun m => m !! k) E) (lookup_empty k))) as H.
      assert (description chosen = None) by field_unset H "description".
      assert (visibility chosen = None) by field_unset H "visibility".
      assert (hasWiki chosen = None) by field_unset H "has_wiki".
      assert (hasIssues chosen = None) by field_unset H "has_issues".
      assert (hasProjects chosen = None) by field_unset H "has_projects".
      assert (hasDiscussions chosen = None) by field_unset H "has_discussions".
      assert (allowSquashMerge chosen = None) by field_unset H "allow_squash_merge".
      assert (allowMergeCommit chosen = None) by field_unset H "allow_merge_commit".
      assert (allowRebaseMerge chosen = None) by field_unset H "allow_rebase_merge".
      assert (allowAutoMerge chosen = None) by field_unset H "allow_auto_merge".
      assert (deleteBranchOnMerge chosen = None)
        by field_unset H "delete_branch_on_merge".
      assert (allowUpdateBranch chosen = None) by field_unset H "allow_update_branch".
      assert (webCommitSignoffRequired chosen = None)
        by field_unset H "web_commit_signoff_required".
      clear H E. destruct chosen. cbn in *. by simplify_eq.
    - intros Hk. apply map_eq. intros k. rewrite buildApiSettings_sent, lookup_empty.
      destruct chosen as [f1 f2 f3 f4 f5 f6 f7 f8 f9 f10 f11 f12 f13].
      unfold keyCount in Hk. cbn in Hk.
      destruct f1; [lia|]. destruct f2; [lia|]. destruct f3; [lia|].
      destruct f4; [lia|]. destruct f5; [lia|]. destruct f6; [lia|].
      destruct f7; [lia|]. destruct f8; [lia|]. destruct f9; [lia|].
      destruct f10; [lia|]. destruct f11; [lia|]. destruct f12; [lia|].
      destruct f13; [lia|].
      unfold settingOf. by repeat case_bool_decide. }
  split; [exact buildApiSettings_sent|]. split; [exact Hempty|].
  intros patch repo chosen w Hk. unfold applyRepositorySettings.
  rewrite bool_decide_eq_false_2.
  - unfold bind, emit, tick, ret. done.
  - intros Hs. apply map_size_empty_iff in Hs. apply Hempty in Hs. lia.
Qed.

Lemma creation_patch_sends_every_choice_witness :
  trace (snd (applyRepositorySettings (mkApiResult true "") "me/repo"
                (set_hasWiki true noSettings) None Runs.idle))
  = ([] ++ [GhPatch (endpointOf "me/repo")
              (buildApiSettings (set_hasWiki true noSettings) None)])%list.
Proof.
  destruct creation_patch_sends_every_choice as (_ & _ & H).
  apply (H (mkApiResult true "") "me/repo" (set_hasWiki true noSettings) Runs.idle).
  vm_compute. lia.
Defined.

End CreationPatch.

Section Endpoints.
Import Validation.

Lemma includes_single_cons c s x :
  includes (String c s) (String x "") = bool_decide (x = c) || includes s (String x "").
Proof. cbn [includes]. rewrite str_prefix_cons. by destruct s; rewrite andb_true_r. Qed.

Lemma split_slash_plain s : includes s "/" = false -> split_slash s = [s].
Proof.
  induction s as [|c s IH]; [done|]. rewrite includes_single_cons.
  intros [Hc Hs]%orb_false_iff. cbn [split_slash].
  apply bool_decide_eq_false in Hc.
  rewrite bool_decide_eq_false_2 by (intros [= ->]; done). by rewrite (IH Hs).
Qed.

Lemma split_slash_append a b :
  includes a "/" = false -> split_slash (a +:+ "/" +:+ b) = a :: split_slash b.
Proof.
  induction a as [|c a IH].
  - intros _. done.
  - rewrite includes_single_cons. intros [Hc Ha]%orb_false_iff.
    rewrite append_cons. cbn [split_slash]. apply bool_decide_eq_false in Hc.
    rewrite bool_decide_eq_false_2 by (intros [= ->]; done). by rewrite (IH Ha).
Qed.

Lemma split_slash_nonempty s : split_slash s <> [].
Proof. induction s as [|c s IH]; [done|]. cbn. case_bool_decide; [done|]. by destruct (split_slash s). Qed.

(** X9.  The endpoint of the settings request is [repos/name] for a name
    without a slash or with an empty owner in front of the slash, and
    [repos/owner/name] for [owner/name], also when further segments follow
    the name. *)
Theorem endpoint_of_repository owner repo rest :
  includes owner "/" = false -> includes repo "/" = false ->
  endpointOf repo = "repos/" +:+ repo
  /\ endpointOf ("/" +:+ repo) = "repos/" +:+ repo
  /\ (owner <> "" ->
      endpointOf (owner +:+ "/" +:+ repo) = "repos/" +:+ owner +:+ "/" +:+ repo
      /\ endpointOf (owner +:+ "/" +:+ repo +:+ "/" +:+ rest)
         = "repos/" +:+ owner +:+ "/" +:+ repo).
Proof.
  intros Ho Hr. unfold endpointOf. split; [|split].
  - rewrite (split_slash_plain _ Hr). cbn. done.
  - change (split_slash ("/" +:+ repo)) with ("" :: split_slash repo).
    rewrite (split_slash_plain _ Hr). cbn. done.
  - intros Hne. split.
    + rewrite (split_slash_append _ _ Ho), (split_slash_plain _ Hr). cbn.
      rewrite (bool_decide_eq_true_2 (1 < 2)) by lia.
      by rewrite bool_decide_eq_false_2.
    + rewrite (split_slash_append _ _ Ho), (split_slash_append _ _ Hr).
      destruct (split_slash rest) as [|p ps] eqn:E; [by apply split_slash_nonempty in E|].
      cbn. rewrite bool_decide_eq_true_2 by lia.
      by rewrite bool_decide_eq_false_2.
Qed.

Lemma endpoint_of_repository_witness :
  endpointOf "demo" = "repos/" +:+ "demo"
  /\ endpointOf ("/" +:+ "demo") = "repos/" +:+ "demo"
  /\ ("octo" <> "" ->
      endpointOf ("octo" +:+ "/" +:+ "demo") = "repos/" +:+ "octo" +:+ "/" +:+ "demo"
      /\ endpointOf ("octo" +:+ "/" +:+ "demo" +:+ "/" +:+ "issues")
         = "repos/" +:+ "octo" +:+ "/" +:+ "demo").
Proof.
  apply (endpoint_of_repository "octo" "demo" "issues"); reflexivity.
Defined.

End Endpoints.

(** ** The helpers of the creation flow: issues and linked branches *)

Section IssueAddresses.
Import Validation Create CreateHelpers Remote.

Lemma stripPrefix_append lit rest : stripPrefix lit (lit +:+ rest) = Some rest.
Proof.
  induction lit as [|c lit IH]; [by destruct rest|].
  rewrite append_cons. cbn [stripPrefix]. by rewrite bool_decide_eq_true_2.
Qed.

Lemma takeWhile_append cls a b :
  all_chars cls a = true -> takeWhile cls (a +:+ b) = a +:+ takeWhile cls b.
Proof.
  induction a as [|c a IH]; [done|]. cbn [all_chars].
  intros [Hc Ha]%andb_true_iff. rewrite !append_cons. cbn [takeWhile].
  by rewrite Hc, (IH Ha).
Qed.

Lemma takeWhile_all cls a : all_chars cls a = true -> takeWhile cls a = a.
Proof.
  intros Ha. rewrite <- (append_nil_r a) at 1.
  rewrite (takeWhile_append _ _ _ Ha). apply append_nil_r.
Qed.

Lemma takeWhile_class cls s : all_chars cls (takeWhile cls s) = true.
Proof.
  induction s as [|c s IH]; [done|]. cbn [takeWhile].
  destruct (cls c) eqn:Hc; [|done]. cbn [all_chars]. by rewrite Hc, IH.
Qed.

Lemma matchAt_class lit cls s run :
  matchAt lit cls s = Some run -> all_chars cls run = true /\ run <> "".
Proof.
  unfold matchAt. destruct (stripPrefix lit s) as [rest|]; [|done].
  case_bool_decide; [done|]. intros [= <-]. split; [apply takeWhile_class|done].
Qed.

Lemma firstMatch_class lit cls s run :
  firstMatch lit cls s = Some run -> all_chars cls run = true /\ run <> "".
Proof.
  induction s as [|c s IH]; cbn [firstMatch].
  - destruct (matchAt lit cls "") eqn:E; [|done]. intros [= <-]. by eapply matchAt_class.
  - destruct (matchAt lit cls (String c s)) eqn:E; [|exact IH].
    intros [= <-]. by eapply matchAt_class.
Qed.

(** The first match is not at a character that differs from the first one
    of the literal. *)
Lemma firstMatch_other x lit cls c s :
  c <> x -> firstMatch (String x lit) cls (String c s) = firstMatch (String x lit) cls s.
Proof.
  intros Hc. cbn [firstMatch]. unfold matchAt at 1. cbn [stripPrefix].
  by rewrite bool_decide_eq_false_2 by (intros ->; done).
Qed.

Lemma firstMatch_skip x lit cls a b :
  all_chars (fun c => negb (bool_decide (c = x))) a = true ->
  firstMatch (String x lit) cls (a +:+ b) = firstMatch (String x lit) cls b.
Proof.
  induction a as [|c a IH]; [done|]. cbn [all_chars].
  intros [Hc Ha]%andb_true_iff. rewrite append_cons.
  rewrite firstMatch_other; [by apply IH|].
  apply negb_true_iff, bool_decide_eq_false in Hc. done.
Qed.

(** The literal [lit/] at the start of [a/rest], for [a] and [lit] without
    a slash: only when [a] is [lit]. *)
Lemma stripPrefix_segment lit a rest :
  all_chars (fun c => negb (bool_decide (c = "/"%char))) lit = true ->
  all_chars (fun c => negb (bool_decide (c = "/"%char))) a = true ->
  stripPrefix (lit +:+ "/") (a +:+ "/" +:+ rest)
  = if bool_decide (a = lit) then Some rest else None.
Proof.
  revert a. induction lit as [|x lit IH]; intros a Hl Ha.
  - destruct a as [|c a].
    + by destruct rest.
    + cbn [all_chars] in Ha. apply andb_true_iff in Ha as [Hc _].
      apply negb_true_iff, bool_decide_eq_false in Hc.
      rewrite append_cons. change ("" +:+ "/") with "/". cbn [stripPrefix].
      rewrite bool_decide_eq_false_2 by (intros E; by rewrite <- E in Hc).
      by rewrite bool_decide_eq_false_2.
  - cbn [all_chars] in Hl. apply andb_true_iff in Hl as [Hx Hl].
    apply negb_true_iff, bool_decide_eq_false in Hx.
    destruct a as [|c a].
    + change ("" +:+ "/" +:+ rest) with (String "/" rest).
      rewrite append_cons. cbn [stripPrefix].
      rewrite bool_decide_eq_false_2 by done. by rewrite bool_decide_eq_false_2.
    + cbn [all_chars] in Ha. apply andb_true_iff in Ha as [_ Ha].
      rewrite (append_cons x), (append_cons c). cbn [stripPrefix].
      case_bool_decide as Hxc.
      * subst c. rewrite (IH a Hl Ha). case_bool_decide as E.
        -- subst. by rewrite bool_decide_eq_true_2.
        -- rewrite bool_decide_eq_false_2; [done|]. by intros [= ?].
      * rewrite bool_decide_eq_false_2; [done|]. by intros [= ? ?].
Qed.

Lemma repo_char_no_slash s :
  all_chars repo_char s = true ->
  all_chars (fun c => negb (bool_decide (c = "/"%char))) s = true.
Proof.
  apply all_chars_impl. intros c Hc. apply negb_true_iff, bool_decide_eq_false.
  intros ->. done.
Qed.

Lemma repo_char_not_space s : all_chars repo_char s = true -> all_chars not_space s = true.
Proof.
  apply all_chars_impl. intros c. unfold not_space.
  destruct (is_ws c) eqn:Hw; [|done]. intros Hc. exfalso. revert Hw Hc.
  unfold is_ws. cbn zeta. rewrite !orb_true_iff, !Nat.eqb_eq.
  intros Hn Hc. rewrite <- (ascii_nat_embedding c) in Hc.
  destruct Hn as [[[[[[Hn|Hn]|Hn]|Hn]|Hn]|Hn]|Hn]; rewrite Hn in Hc; done.
Qed.

Lemma digit_not_space s : all_chars is_digit s = true -> all_chars not_space s = true.
Proof.
  apply all_chars_impl. intros c. unfold not_space, is_digit, in_range, is_ws. cbn zeta.
  rewrite andb_true_iff, !Nat.leb_le. intros [H1 H2].
  apply negb_true_iff. rewrite !orb_false_iff, !Nat.eqb_neq. lia.
Qed.

Lemma digitValue_char x : (x < 10)%N -> digitValue (pretty_N_char x) = Z.of_N x.
Proof.
  intros Hx. unfold digitValue.
  destruct x as [|p]; [done|].
  do 4 (destruct p as [p|p|]; try done; try lia).
Qed.

Lemma digitsFrom_pretty_go x s :
  digitsFrom 0 (pretty_N_go x s) = digitsFrom (Z.of_N x) s.
Proof.
  revert s. induction (N.lt_wf_0 x) as [x _ IH]. intros s.
  destruct (decide (x = 0)%N) as [->|Hx]; [done|].
  rewrite pretty_N_go_step by lia.
  rewrite IH by (apply N.div_lt; lia). cbn [digitsFrom].
  rewrite digitValue_char by (apply N.mod_lt; lia).
  f_equal. rewrite (N.div_mod x 10) at 3 by lia. lia.
Qed.

Lemma mathInt_pretty (n : Z) : (0 <= n)%Z -> mathInt (pretty n) = n.
Proof.
  intros Hn. unfold mathInt. destruct n as [|p|p]; [done| |lia].
  change (pretty (Z.pos p)) with (pretty_N_go (N.pos p) "").
  by rewrite digitsFrom_pretty_go.
Qed.

Lemma digitsFrom_bounds acc s :
  (0 <= acc)%Z -> all_chars is_digit s = true -> (acc <= digitsFrom acc s)%Z.
Proof.
  revert acc. induction s as [|c s IH]; intros acc Hacc; [cbn; lia|].
  cbn [all_chars digitsFrom]. intros [Hc Hs]%andb_true_iff.
  assert (0 <= digitValue c)%Z.
  { unfold is_digit, in_range in Hc. apply andb_true_iff in Hc as [H1 _].
    apply Nat.leb_le in H1. unfold digitValue. lia. }
  specialize (IH (10 * acc + digitValue c)%Z ltac:(lia) Hs). lia.
Qed.

Lemma firstMatch_miss lit cls c s :
  matchAt lit cls (String c s) = None ->
  firstMatch lit cls (String c s) = firstMatch lit cls s.
Proof. intros H. cbn [firstMatch]. by rewrite H. Qed.

Lemma firstMatch_here lit cls s run :
  matchAt lit cls s = Some run -> firstMatch lit cls s = Some run.
Proof. intros H. destruct s; cbn [firstMatch]; by rewrite H. Qed.

Lemma takeWhile_append_none cls a b :
  takeWhile cls a = "" -> (a = "" -> takeWhile cls b = "") -> takeWhile cls (a +:+ b) = "".
Proof.
  destruct a as [|c a]; [intros _ H; by apply H|].
  intros H _. rewrite append_cons. cbn [takeWhile] in *. by destruct (cls c).
Qed.

(** A slash that the segment [a/] follows starts no match, unless [a] is
    [issues] and a digit comes next. *)
Lemma matchAt_segment a rest :
  all_chars (fun c => negb (bool_decide (c = "/"%char))) a = true ->
  (a = "issues" -> takeWhile is_digit rest = "") ->
  matchAt "/issues/" is_digit (String "/" (a +:+ "/" +:+ rest)) = None.
Proof.
  intros Ha Hr. unfold matchAt.
  change (stripPrefix "/issues/" (String "/" (a +:+ "/" +:+ rest)))
    with (if bool_decide ("/"%char = "/"%char)
          then stripPrefix ("issues" +:+ "/") (a +:+ "/" +:+ rest) else None).
  rewrite bool_decide_eq_true_2 by done.
  rewrite (stripPrefix_segment "issues" a rest eq_refl Ha).
  case_bool_decide as E; [|done]. by rewrite (Hr E).
Qed.

Lemma issueNumber_of_address owner repo n :
  all_chars repo_char owner = true -> all_chars repo_char repo = true ->
  owner <> "issues" \/ takeWhile is_digit repo = "" ->
  (0 < n)%Z ->
  firstMatch "/issues/" is_digit (issueAddress owner repo n) = Some (pretty n).
Proof.
  intros Ho Hr Hfirst Hn.
  destruct (pretty_positive_digits n Hn) as [Hd Hne].
  pose proof (repo_char_no_slash _ Ho) as Ho'.
  pose proof (repo_char_no_slash _ Hr) as Hr'.
  unfold issueAddress.
  set (tl := owner +:+ "/" +:+ repo +:+ "/issues/" +:+ pretty n).
  change ("https://github.com/" +:+ tl)
    with ("https:" +:+ String "/" (String "/" ("github.com" +:+ String "/" tl))).
  rewrite (firstMatch_skip "/" "issues/" is_digit "https:") by reflexivity.
  rewrite firstMatch_miss by reflexivity.
  rewrite firstMatch_miss by reflexivity.
  rewrite (firstMatch_skip "/" "issues/" is_digit "github.com") by reflexivity.
  subst tl.
  rewrite firstMatch_miss.
  2:{ apply matchAt_segment; [exact Ho'|]. intros ->.
      destruct Hfirst as [?|Hrepo]; [done|].
      apply takeWhile_append_none; [exact Hrepo|]. intros _. reflexivity. }
  rewrite (firstMatch_skip "/" "issues/" is_digit owner) by exact Ho'.
  change ("/" +:+ repo +:+ "/issues/" +:+ pretty n)
    with (String "/" (repo +:+ "/" +:+ ("issues/" +:+ pretty n))).
  rewrite firstMatch_miss.
  2:{ apply matchAt_segment; [exact Hr'|]. intros _. reflexivity. }
  rewrite (firstMatch_skip "/" "issues/" is_digit repo) by exact Hr'.
  apply firstMatch_here. unfold matchAt.
  change ("/" +:+ "issues/" +:+ pretty n) with ("/issues/" +:+ pretty n).
  rewrite stripPrefix_append, (takeWhile_all _ _ Hd).
  by rewrite bool_decide_eq_false_2.
Qed.

(** X11.  [createIssue] reads the number back from the address that
    [gh issue create] prints: for the issue [n] of [owner/repo], with [n]
    positive and at most 2^53, the result is the number [n] with the
    address.  The owner is not [issues], or the name of the repository
    starts with no digit; white space may follow the address. *)
Theorem issue_number_read_back owner repo n post repoName result latest :
  all_chars repo_char owner = true -> all_chars repo_char repo = true ->
  owner <> "issues" \/ takeWhile is_digit repo = "" ->
  (0 < n <= 2 ^ 53)%Z ->
  takeWhile not_space post = "" ->
  gh_success result = true ->
  gh_stdout result = issueAddress owner repo n +:+ post ->
  createIssue repoName result latest
  = Some (mkIssueOutcome (Some (mkIssue n (issueAddress owner repo n))) None).
Proof.
  intros Ho Hr Hfirst [Hn Hmax] Hpost Hok Hout.
  destruct (pretty_positive_digits n Hn) as [Hd Hne].
  unfold createIssue. rewrite Hok. cbn [negb].
  assert (Hsome : either (gh_stdout result) (either (gh_stderr result) "")
                  = issueAddress owner repo n +:+ post).
  { unfold either at 1. rewrite Hout. by rewrite bool_decide_eq_false_2. }
  rewrite Hsome. clear Hsome Hout.
  set (tl := owner +:+ "/" +:+ repo +:+ "/issues/" +:+ pretty n).
  assert (Htl : all_chars not_space tl = true).
  { subst tl. rewrite !all_chars_append, (repo_char_not_space _ Ho),
      (repo_char_not_space _ Hr), (digit_not_space _ Hd). reflexivity. }
  assert (Hrun : firstMatch "https://github.com/" not_space (issueAddress owner repo n +:+ post)
                 = Some tl).
  { apply firstMatch_here. unfold matchAt, issueAddress. fold tl.
    rewrite append_assoc, stripPrefix_append, (takeWhile_append _ _ _ Htl), Hpost,
      append_nil_r.
    rewrite bool_decide_eq_false_2; [done|]. subst tl. by destruct owner. }
  rewrite Hrun. cbv zeta. subst tl.
  change ("https://github.com/" +:+ owner +:+ "/" +:+ repo +:+ "/issues/" +:+ pretty n)
    with (issueAddress owner repo n).
  rewrite (issueNumber_of_address _ _ _ Ho Hr Hfirst Hn).
  unfold parseInt. rewrite (mathInt_pretty n) by lia. cbv zeta.
  rewrite bool_decide_eq_true_2 by lia. by rewrite bool_decide_eq_false_2 by lia.
Qed.

Lemma issue_number_read_back_witness :
  createIssue "octo/demo"
    Runs.issuePrinted None
  = Some (mkIssueOutcome (Some (mkIssue 12 "https://github.com/octo/demo/issues/12")) None).
Proof.
  apply (issue_number_read_back "octo" "demo" 12 "" "octo/demo"
           Runs.issuePrinted None);
    try reflexivity.
  - left. discriminate.
  - lia.
Defined.

Lemma append_nonempty a b : a <> "" -> a +:+ b <> "".
Proof. destruct a; [done|]. intros _. by rewrite append_cons. Qed.

Lemma either_nonempty a b : b <> "" -> either a b <> "".
Proof. intros Hb. unfold either. by case_bool_decide. Qed.

Lemma truthy_nonempty s : s <> "" -> truthy (Some s) = true.
Proof. intros Hs. unfold truthy. by rewrite bool_decide_eq_false_2. Qed.

Lemma issueFailure_nonempty repoName result : issueFailure repoName result <> "".
Proof.
  unfold issueFailure. cbv zeta.
  repeat case_match; try (apply append_nonempty; done).
  apply either_nonempty, either_nonempty. done.
Qed.

Lemma prefix_append a b : String.prefix a (a +:+ b) = true.
Proof.
  induction a as [|c a IH]; [by destruct b|].
  rewrite append_cons, str_prefix_cons, IH. by rewrite bool_decide_eq_true_2.
Qed.

(** X12.  A result of [createIssue] is an error with a message that is
    not empty, or an issue without an error after a command that succeeded.
    An issue that is read from the output has a positive number and an
    address that starts with https://github.com/ and holds no white space;
    any other issue is the first one that the request for the latest issue
    lists. *)
Theorem issue_outcome_shape repoName result latest o :
  createIssue repoName result latest = Some o ->
  (issue_result o = None /\ truthy (issue_error o) = true)
  \/ (exists i, issue_result o = Some i /\ issue_error o = None
                /\ gh_success result = true
                /\ ((exists rest, latest = Some (i :: rest))
                    \/ ((0 < number i)%Z
                        /\ startsWith (url i) "https://github.com/" = true
                        /\ all_chars not_space (url i) = true))).
Proof.
  unfold createIssue. destruct (gh_success result) eqn:Hok; cbn [negb].
  2:{ intros [= <-]. left. split; [done|]. cbn [issue_error issueError].
      apply truthy_nonempty, issueFailure_nonempty. }
  cbv zeta.
  destruct (firstMatch "https://github.com/" not_space _) as [run|] eqn:Hrun.
  - apply firstMatch_class in Hrun as [Hrun Hne].
    destruct (firstMatch "/issues/" is_digit _) as [digits|] eqn:Hdigits.
    2:{ intros [= <-]. left. done. }
    apply firstMatch_class in Hdigits as [Hdigits _].
    unfold parseInt. cbv zeta. case_bool_decide; [|done].
    case_bool_decide as Hz; intros [= <-]; [left; done|].
    right. eexists. split; [reflexivity|]. split; [reflexivity|]. split; [done|].
    right. cbn [number url]. split; [|split].
    + pose proof (digitsFrom_bounds 0 digits ltac:(lia) Hdigits). unfold mathInt in *. lia.
    + apply prefix_append.
    + rewrite all_chars_append, Hrun. reflexivity.
  - destruct latest as [[|latestIssue rest]|]; intros [= <-]; try (left; done).
    right. exists latestIssue. repeat split; try done. left. by exists rest.
Qed.

Lemma issue_outcome_shape_witness :
  createIssue "octo/demo"
    Runs.issueZero None
  = Some (issueError "Issue created but could not parse issue number from URL.")
  /\ (issue_result (issueError "Issue created but could not parse issue number from URL.")
      = None
      /\ truthy (issue_error
                   (issueError "Issue created but could not parse issue number from URL."))
         = true
      \/ exists i,
          issue_result (issueError "Issue created but could not parse issue number from URL.")
          = Some i
          /\ issue_error (issueError "Issue created but could not parse issue number from URL.")
             = None
          /\ gh_success Runs.issueZero
             = true
          /\ ((exists rest, None = Some (i :: rest))
              \/ ((0 < number i)%Z
                  /\ startsWith (url i) "https://github.com/" = true
                  /\ all_chars not_space (url i) = true))).
Proof.
  split; [vm_compute; reflexivity|].
  apply (issue_outcome_shape "octo/demo"
           Runs.issueZero None).
  vm_compute. reflexivity.
Defined.

Lemma orElse_nonempty o d : d <> "" -> orElse o d <> "".
Proof.
  intros Hd. unfold orElse, truthy. destruct o as [s|]; [|done].
  case_bool_decide; cbn; done.
Qed.

(** X13.  [createBranchLinkedToIssue] succeeds when the command ends
    without an error.  When the command throws, the result is a failure
    whose error is a lead, a colon and the text of the thrown error, which
    is never empty, and [branchFailure] hands this error on whole. *)
Theorem linked_branch_error_keeps_text exec repoName issueNumber branchName :
  match exec with
  | Exited _ =>
      createBranchLinkedToIssue exec repoName issueNumber branchName
      = mkBranchOutcome true None
  | Thrown stderr stdout message =>
      thrownText stderr stdout message <> ""
      /\ exists lead,
          createBranchLinkedToIssue exec repoName issueNumber branchName
          = mkBranchOutcome false (Some (lead +:+ ": " +:+ thrownText stderr stdout message))
          /\ branchFailure (createBranchLinkedToIssue exec repoName issueNumber branchName)
             = "Failed to create branch: " +:+ lead +:+ ": "
               +:+ thrownText stderr stdout message
  end.
Proof.
  destruct exec as [e|stderr stdout message]; [done|].
  assert (Hfail : forall lead text,
            branchFailure (branchError (lead +:+ ": " +:+ text))
            = "Failed to create branch: " +:+ lead +:+ ": " +:+ text).
  { intros lead text. unfold branchFailure, branchError, orElse. cbn [branch_error].
    rewrite truthy_nonempty; [done|].
    destruct lead; [done|]. by rewrite append_cons. }
  split.
  { unfold thrownText. by do 3 apply orElse_nonempty. }
  unfold createBranchLinkedToIssue. cbv zeta.
  set (text := thrownText stderr stdout message).
  repeat case_match.
  - exists ("Issue #" +:+ pretty issueNumber +:+ " not found in repository " +:+ repoName).
    rewrite <- Hfail. unfold branchError. by rewrite !append_assoc.
  - exists ("Permission denied. You may not have permission to create branch for issue #"
            +:+ pretty issueNumber).
    rewrite <- Hfail. unfold branchError. by rewrite !append_assoc.
  - exists ("Issues are disabled for repository " +:+ repoName).
    rewrite <- Hfail. unfold branchError. by rewrite !append_assoc.
  - exists ("Branch " +:+ branchName +:+ " already exists").
    rewrite <- Hfail. unfold branchError. by rewrite !append_assoc.
  - exists "Failed to create branch linked to issue".
    rewrite <- Hfail. unfold branchError. done.
Qed.

End IssueAddresses.

(** ** The deletion of a repository *)

Section Deletion.
Import Trace Delete Remote.

Lemma forOrganizations_result env orgs allRepos w :
  fst (forOrganizations env orgs allRepos w)
  = (allRepos ++ flat_map (repositoriesOf env) orgs)%list
  /\ trace (snd (forOrganizations env orgs allRepos w)) = trace w
  /\ script (snd (forOrganizations env orgs allRepos w)) = script w.
Proof.
  revert allRepos w. induction orgs as [|org orgs IH]; intros allRepos w.
  - cbn. by rewrite app_nil_r.
  - cbn [forOrganizations flat_map]. cbv [bind getUserRepositories tick ret].
    destruct (IH (allRepos ++ repositoriesOf env org)%list
      (mkWorld (S (clock w)) (script w) (trace w))) as (-> & -> & ->).
    by rewrite app_assoc.
Qed.

Lemma loadRepositories_result env w :
  fst (loadRepositories env w)
  = sortByFullName (localeCompare env) (deduplicate (listedRepositories env))
  /\ trace (snd (loadRepositories env w)) = trace w
  /\ script (snd (loadRepositories env w)) = script w.
Proof.
  unfold loadRepositories, listedRepositories.
  cbv [bind getUserRepositories tick ret].
  destruct (Create.truthy (currentUser env)); cbn [fst snd];
    match goal with
    | |- context [forOrganizations env ?o ?a ?w] =>
        destruct (forOrganizations_result env o a w) as (H1 & H2 & H3);
        destruct (forOrganizations env o a w) as [r w1]
    end; cbn [fst snd] in *; by subst.
Qed.

Lemma has_spec uniqueRepos key :
  has uniqueRepos key = true <-> key ∈ fullName <$> uniqueRepos.
Proof.
  unfold has. rewrite existsb_exists, list_elem_of_fmap. split.
  - intros (r & Hr%list_elem_of_In & Hk%bool_decide_eq_true). eauto.
  - intros (r & -> & Hr%list_elem_of_In). exists r. by rewrite bool_decide_eq_true.
Qed.

Lemma remember_names uniqueRepos repo n :
  n ∈ fullName <$> remember uniqueRepos repo
  <-> n ∈ fullName <$> uniqueRepos \/ (n <> "" /\ n = fullName repo).
Proof.
  unfold remember. case_bool_decide as He; cbn [negb andb].
  - split; [by left|]. intros [?|[Hn ->]]; done.
  - destruct (has uniqueRepos (fullName repo)) eqn:Hhas; cbn [negb].
    + apply has_spec in Hhas. split; [by left|]. intros [?|[_ ->]]; done.
    + rewrite fmap_app, elem_of_app.
      change (fullName <$> [repo]) with [fullName repo].
      rewrite list_elem_of_singleton.
      split; (intros [?|H]; [by left|right]); [by subst|by destruct H].
Qed.

Lemma remember_members uniqueRepos repo r :
  r ∈ remember uniqueRepos repo -> r ∈ uniqueRepos \/ r = repo.
Proof.
  unfold remember. destruct (_ && _); [|by left].
  rewrite elem_of_app, list_elem_of_singleton. done.
Qed.

Lemma remember_NoDup uniqueRepos repo :
  NoDup (fullName <$> uniqueRepos) -> NoDup (fullName <$> remember uniqueRepos repo).
Proof.
  intros Hn. unfold remember. case_bool_decide; cbn [negb andb]; [done|].
  destruct (has uniqueRepos (fullName repo)) eqn:Hhas; cbn [negb]; [done|].
  rewrite fmap_app. apply NoDup_app. split; [done|]. split; [|apply NoDup_singleton].
  intros n Hin. change (fullName <$> [repo]) with [fullName repo].
  rewrite list_elem_of_singleton. intros ->.
  apply has_spec in Hin. congruence.
Qed.

Lemma deduplicate_from uniqueRepos allRepos :
  (NoDup (fullName <$> uniqueRepos) ->
   NoDup (fullName <$> fold_left remember allRepos uniqueRepos))
  /\ (forall r, r ∈ fold_left remember allRepos uniqueRepos ->
                r ∈ uniqueRepos \/ r ∈ allRepos)
  /\ (forall n, n ∈ fullName <$> fold_left remember allRepos uniqueRepos
                <-> n ∈ fullName <$> uniqueRepos
                    \/ (n <> "" /\ n ∈ fullName <$> allRepos)).
Proof.
  revert uniqueRepos. induction allRepos as [|repo allRepos IH]; intros uniqueRepos.
  - cbn. split; [done|]. split; [by left|]. intros n. split; [by left|].
    intros [?|[_ H]]; [done|]. by apply elem_of_nil in H.
  - cbn [fold_left]. destruct (IH (remember uniqueRepos repo)) as (H1 & H2 & H3).
    split; [|split].
    + intros Hn. by apply H1, remember_NoDup.
    + intros r Hr. apply H2 in Hr as [Hr|Hr].
      * apply remember_members in Hr as [?|Hr]; [by left|right; subst; left].
      * right. by right.
    + intros n. rewrite H3, remember_names, fmap_cons, elem_of_cons. split.
      * intros [[?|[? ?]]|[? ?]]; [by left|right..]; (split; [done|]); [by left|by right].
      * intros [?|[? [?|?]]]; [by left; left|by left; right|by right].
Qed.

Lemma insertSorted_Permutation compare r sorted :
  insertSorted compare r sorted ≡ₚ r :: sorted.
Proof.
  induction sorted as [|x sorted IH]; [done|]. cbn [insertSorted].
  case_bool_decide; [done|]. rewrite IH. apply Permutation_swap.
Qed.

Lemma sortByFullName_Permutation compare l : sortByFullName compare l ≡ₚ l.
Proof.
  induction l as [|r l IH]; [done|]. cbn [sortByFullName fold_right].
  rewrite insertSorted_Permutation. by f_equiv.
Qed.

Lemma toItem_labels (repos : list RepositoryInfo) :
  label <$> (toItem <$> repos) = fullName <$> repos.
Proof. rewrite <- list_fmap_compose. done. Qed.

Lemma loadRepositories_shape env w :
  let repos := fst (loadRepositories env w) in
  NoDup (map fullName repos)
  /\ (forall r, r ∈ repos -> r ∈ listedRepositories env)
  /\ (forall n, n ∈ map fullName repos
                <-> n <> "" /\ n ∈ map fullName (listedRepositories env))
  /\ (forall t, fst (selectRepository env w) = Some t -> t ∈ map fullName repos).
Proof.
  cbv zeta. change (@map RepositoryInfo string) with (@fmap list _ RepositoryInfo string).
  destruct (loadRepositories_result env w) as (Hr & Ht & Hs).
  pose proof (sortByFullName_Permutation (localeCompare env)
                (deduplicate (listedRepositories env))) as Hp.
  destruct (deduplicate_from [] (listedRepositories env)) as (H1 & H2 & H3).
  fold (deduplicate (listedRepositories env)) in H1, H2, H3.
  split; [|split; [|split]].
  - rewrite Hr, Hp. apply H1. constructor.
  - intros r. rewrite Hr, Hp. intros Hin. apply H2 in Hin as [Hn|?]; [|done].
    by apply elem_of_nil in Hn.
  - intros n. rewrite Hr, Hp, H3. split; [|by right].
    intros [Hn|?]; [by apply elem_of_nil in Hn|done].
  - intros t. unfold selectRepository, bind.
    destruct (loadRepositories env w) as [repos w1]. cbn [fst].
    case_bool_decide; [done|]. unfold showQuickPick, bind, nextResponse, ret. cbn [fst].
    destruct (default Dismiss (head (script w1))) as [|i|]; try done.
    destruct ((map toItem repos) !! i) as [it|] eqn:Hit; [|done]. intros [= <-].
    rewrite <- toItem_labels. apply list_elem_of_fmap_2.
    by apply list_elem_of_lookup_2 in Hit.
Qed.

Lemma executeGhCommand_plain proc command w :
  executeGhCommand None proc command w
  = (mkGhResult (exit_ok proc) (Validation.trim (stdout proc))
       (if exit_ok proc then Validation.trim (stderr proc) else failureText proc) false,
     mkWorld (S (clock w)) (script w) (trace w ++ [GhCommand command])).
Proof.
  unfold executeGhCommand, bind, isCancellationRequested, emit, tick, ret.
  by destruct (exit_ok proc).
Qed.

Lemma deleteCommand_kind target : isDeleteCommand (GhCommand (deleteCommand target)) = true.
Proof. apply prefix_append. Qed.

Lemma filter_snoc_other (P : Event -> bool) l e :
  P e = false -> List.filter P (l ++ [e]) = List.filter P l.
Proof. intros He. rewrite List.filter_app. cbn. rewrite He. apply app_nil_r. Qed.

Lemma filter_snoc_kind (P : Event -> bool) l e :
  P e = true -> List.filter P (l ++ [e]) = (List.filter P l ++ [e])%list.
Proof. intros He. rewrite List.filter_app. cbn. by rewrite He. Qed.

Lemma avoids_loadRepositories P env : avoids P (loadRepositories env).
Proof. intros w. by destruct (loadRepositories_result env w) as (_ & -> & _). Qed.

Lemma avoids_showQuickPick P items : avoids P (showQuickPick items).
Proof. done. Qed.

Lemma avoids_delete_selectRepository env : avoids isDeleteCommand (selectRepository env).
Proof.
  pose proof (avoids_loadRepositories isDeleteCommand env).
  pose proof (avoids_showQuickPick isDeleteCommand).
  unfold selectRepository. avoid_solve.
Qed.

(** The repository that the command is about: the one that is named, or
    one of the list that is picked. *)
Lemma target_stage env repoName w target w1 :
  (if Create.truthy repoName then ret repoName else selectRepository env) w
  = (Some target, w1) ->
  List.filter isDeleteCommand (trace w1) = List.filter isDeleteCommand (trace w)
  /\ (if Create.truthy repoName then repoName = Some target
      else target ∈ map fullName (fst (loadRepositories env w))).
Proof.
  destruct (Create.truthy repoName) eqn:Hn.
  - unfold ret. by intros [= -> <-].
  - intros Hsel. split.
    + pose proof (avoids_delete_selectRepository env w) as Hav. by rewrite Hsel in Hav.
    + destruct (loadRepositories_shape env w) as (_ & _ & _ & Hpick).
      apply Hpick. by rewrite Hsel.
Qed.

(** X16.  The repositories offered for deletion: no name twice, each of
    them listed for the user or for an organization, and their names are
    the listed names that are not empty; the repository that is selected is
    one of them. *)
Theorem picker_offers_each_repository_once env w :
  let repos := fst (loadRepositories env w) in
  NoDup (map fullName repos)
  /\ (forall r, r ∈ repos -> r ∈ listedRepositories env)
  /\ (forall n, n ∈ map fullName repos
                <-> n <> "" /\ n ∈ map fullName (listedRepositories env))
  /\ (forall t, fst (selectRepository env w) = Some t -> t ∈ map fullName repos).
Proof. exact (loadRepositories_shape env w). Qed.

Lemma runDelete_result env target silent w :
  fst (runDelete env target silent w) = exit_ok (deleteProcess env)
  /\ List.filter isDeleteCommand (trace (snd (runDelete env target silent w)))
     = (List.filter isDeleteCommand (trace w) ++ [GhCommand (deleteCommand target)])%list.
Proof.
  unfold runDelete, bind. rewrite executeGhCommand_plain. cbn [gh_success gh_stderr].
  destruct (exit_ok (deleteProcess env)), silent; cbn [negb];
    repeat match goal with |- context [if ?b then _ else _] => destruct b end;
    unfold emit, ret; cbn [fst snd trace]; (split; [done|]);
    rewrite ?filter_snoc_other by done;
    apply filter_snoc_kind, deleteCommand_kind.
Qed.

(** The question that is asked before a deletion. *)
Lemma confirmation_text target :
  isDeleteCommand
    (ShowWarning ("Are you sure you want to delete repository " +:+ Create.dquote
                  +:+ target +:+ Create.dquote +:+ "? This action cannot be undone."))
  = false.
Proof. done. Qed.

Lemma deleteRepository_run env repoName silent w :
  deleteRepository env repoName silent w
  = match (if Create.truthy repoName then ret repoName else selectRepository env) w with
    | (None, w1) => (false, w1)
    | (Some target, w1) =>
        if silent then runDelete env target true w1
        else
          let asked :=
            mkWorld (S (clock w1)) (script w1)
              (trace w1 ++ [ShowWarning ("Are you sure you want to delete repository "
                                         +:+ Create.dquote +:+ target
                                         +:+ Create.dquote
                                         +:+ "? This action cannot be undone.")]) in
          if bool_decide (confirmation env = Some "Delete")
          then runDelete env target false asked
          else (false, asked)
    end.
Proof.
  unfold deleteRepository, bind.
  destruct ((if Create.truthy repoName then ret repoName else selectRepository env) w)
    as [[target|] w1]; [|done].
  destruct silent; cbn [negb]; [done|].
  unfold emit, tick, ret. by case_bool_decide.
Qed.

(** X14.  Without the answer [Delete] to the confirmation, a deletion
    that is not silent runs no [gh repo delete] and returns false. *)
Theorem delete_needs_confirmation env repoName :
  confirmation env <> Some "Delete" ->
  avoids isDeleteCommand (deleteRepository env repoName false)
  /\ forall w, fst (deleteRepository env repoName false w) = false.
Proof.
  intros Hc'. pose proof (bool_decide_eq_false_2 _ Hc') as Hc. clear Hc'.
  assert (H : forall w,
            List.filter isDeleteCommand (trace (snd (deleteRepository env repoName false w)))
            = List.filter isDeleteCommand (trace w)
            /\ fst (deleteRepository env repoName false w) = false).
  { intros w. rewrite deleteRepository_run.
    destruct ((if Create.truthy repoName then ret repoName else selectRepository env) w)
      as [[target|] w1] eqn:Hsel.
    - apply target_stage in Hsel as [Hsel _]. cbv zeta. rewrite Hc.
      cbn [fst snd trace]. by rewrite filter_snoc_other.
    - destruct (Create.truthy repoName) eqn:Hn.
      + unfold ret in Hsel. injection Hsel as Hr _. by rewrite Hr in Hn.
      + pose proof (avoids_delete_selectRepository env w) as Hav.
        rewrite Hsel in Hav. done. }
  split; [intros w; apply H|intros w; apply H].
Qed.

Lemma delete_needs_confirmation_witness :
  avoids isDeleteCommand
    (deleteRepository (Runs.deleteEnv (Some "Cancel"))
       (Some "octo/demo") false)
  /\ forall w,
      fst (deleteRepository (Runs.deleteEnv (Some "Cancel"))
             (Some "octo/demo") false w) = false.
Proof.
  apply (delete_needs_confirmation
           (Runs.deleteEnv (Some "Cancel"))
           (Some "octo/demo")).
  discriminate.
Defined.

(** X17.  [deleteRepository] returns true only when the command
    succeeded, after the answer [Delete] unless the deletion is silent, and
    after exactly one [gh repo delete], for the repository that was named
    or for one that was offered. *)
Theorem delete_reports_success env repoName silent w :
  fst (deleteRepository env repoName silent w) = true ->
  exit_ok (deleteProcess env) = true
  /\ (silent = false -> confirmation env = Some "Delete")
  /\ exists target,
      (if Create.truthy repoName then repoName = Some target
       else target ∈ map fullName (fst (loadRepositories env w)))
      /\ List.filter isDeleteCommand (trace (snd (deleteRepository env repoName silent w)))
         = (List.filter isDeleteCommand (trace w) ++ [GhCommand (deleteCommand target)])%list.
Proof.
  rewrite deleteRepository_run.
  destruct ((if Create.truthy repoName then ret repoName else selectRepository env) w)
    as [[target|] w1] eqn:Hsel; [|done].
  apply target_stage in Hsel as [Hsel Htarget].
  destruct silent.
  - destruct (runDelete_result env target true w1) as [Hr Ht]. rewrite Hr, Ht, Hsel.
    intros Hok. split; [done|]. split; [done|]. by exists target.
  - cbv zeta. case_bool_decide as Hc; [|done].
    match goal with |- context [runDelete env target false ?w2] =>
      destruct (runDelete_result env target false w2) as [Hr Ht] end.
    rewrite Hr, Ht. cbn [trace]. rewrite filter_snoc_other by done. rewrite Hsel.
    intros Hok. split; [done|]. split; [done|]. by exists target.
Qed.

Lemma delete_reports_success_witness :
  exit_ok (deleteProcess (Runs.deleteEnv (Some "Delete"))) = true
  /\ (false = false -> confirmation (Runs.deleteEnv (Some "Delete")) = Some "Delete")
  /\ exists target,
      (if Create.truthy (Some "octo/demo") then Some "octo/demo" = Some target
       else target ∈ map fullName
                       (fst (loadRepositories (Runs.deleteEnv (Some "Delete")) Runs.idle)))
      /\ List.filter isDeleteCommand
           (trace (snd (deleteRepository (Runs.deleteEnv (Some "Delete"))
                          (Some "octo/demo") false Runs.idle)))
         = (List.filter isDeleteCommand (trace Runs.idle)
            ++ [GhCommand (deleteCommand target)])%list.
Proof.
  apply (delete_reports_success (Runs.deleteEnv (Some "Delete")) (Some "octo/demo") false
           Runs.idle).
  vm_compute. reflexivity.
Defined.

(** X15.  The silent deletion of a named repository is the run that the
    creation flow relies on: the one command [gh repo delete], no message,
    and the result is whether the command succeeded. *)
Theorem silent_delete_runs_only_the_command env repoName w :
  repoName <> "" ->
  deleteRepository env (Some repoName) true w
  = Create.deleteRepositorySilently (deleteProcess env) repoName w
  /\ trace (snd (deleteRepository env (Some repoName) true w))
     = (trace w ++ [GhCommand ("gh repo delete " +:+ repoName +:+ " --yes")])%list
  /\ fst (deleteRepository env (Some repoName) true w) = exit_ok (deleteProcess env).
Proof.
  intros Hne.
  assert (Hrun : deleteRepository env (Some repoName) true w
                 = (exit_ok (deleteProcess env),
                    mkWorld (S (clock w)) (script w)
                      (trace w ++ [GhCommand (deleteCommand repoName)]))).
  { rewrite deleteRepository_run.
    unfold Create.truthy. rewrite bool_decide_eq_false_2 by done. cbn [negb].
    unfold ret at 1. unfold runDelete, bind. rewrite executeGhCommand_plain.
    cbn [gh_success]. by destruct (exit_ok (deleteProcess env)). }
  rewrite Hrun. split; [|done].
  unfold Create.deleteRepositorySilently, bind. fold (deleteCommand repoName).
  by rewrite executeGhCommand_plain.
Qed.

Lemma silent_delete_runs_only_the_command_witness :
  deleteRepository (Runs.deleteEnv None)
    (Some "octo/demo") true Runs.idle
  = Create.deleteRepositorySilently Samples.fine "octo/demo" Runs.idle
  /\ trace (snd (deleteRepository
                   (Runs.deleteEnv None)
                   (Some "octo/demo") true Runs.idle))
     = ([] ++ [GhCommand ("gh repo delete " +:+ "octo/demo" +:+ " --yes")])%list
  /\ fst (deleteRepository
            (Runs.deleteEnv None)
            (Some "octo/demo") true Runs.idle)
     = true.
Proof.
  apply (silent_delete_runs_only_the_command
           (Runs.deleteEnv None)
           "octo/demo" Runs.idle).
  discriminate.
Defined.

End Deletion.

(** ** The stages of the creation flow *)

Section LateStages.
Import Trace Create.

(** The events that the two properties below are about: the error about
    the name of the repository, and the branch without an issue. *)
Variable P : Event -> bool.
Hypothesis P_kind :
  forall e, P e = true ->
    (exists msg, e = ShowError msg
                 /\ Validation.startsWith msg "Invalid repository name: " = true)
    \/ (exists repo branch, e = GhBranch repo branch).

Variable env : Env.
Hypothesis branch_linked :
  (forall repo branch, P (GhBranch repo branch) = false)
  \/ (exists r, issue_result (issued env) = Some r /\ (0 < number r)%Z).

(** An event of another kind. *)
Ltac other_kind :=
  apply avoids_emit;
  match goal with
  | |- P ?e = false =>
      let H := fresh in
      destruct (P e) eqn:H; [exfalso|reflexivity];
      apply P_kind in H as [(? & H & ?)|(? & ? & H)];
      [ first [ discriminate H
              | injection H as <-;
                match goal with Hs : Validation.startsWith _ _ = true |- _ =>
                  vm_compute in Hs; discriminate Hs end ]
      | discriminate H ]
  end.

Ltac stage_solve :=
  repeat (intros; cbv zeta;
    match goal with
    | |- avoids _ _ => solve [auto 1 with avoid nocore]
    | |- avoids _ (emit _) => other_kind
    | |- avoids _ (bind _ _) => apply avoids_bind
    | |- avoids _ (if ?b then _ else _) => destruct b
    | |- avoids _ (match ?x with _ => _ end) => destruct x
    end).

Lemma avoids_stage_handleCancellation full :
  avoids P (handleCancellationAfterCreation env full).
Proof.
  unfold handleCancellationAfterCreation, deleteRepositorySilently, executeGhCommand.
  stage_solve.
Qed.

Lemma avoids_stage_unlessCancelled full k :
  avoids P k -> avoids P (unlessCancelled env full k).
Proof.
  intros Hk. pose proof (avoids_stage_handleCancellation full).
  unfold unlessCancelled, cancelRequested. stage_solve.
Qed.

Lemma avoids_stageSetup o full repoPath errors :
  avoids P (stageSetup env o full repoPath errors).
Proof. unfold stageSetup, reportStandard, cancelRequested. stage_solve. Qed.

Lemma avoids_stageClone o full errors : avoids P (stageClone env o full errors).
Proof.
  pose proof (avoids_stageSetup o full).
  unfold stageClone. destruct (o_setupWorkspace o); [|done].
  apply avoids_stage_unlessCancelled. stage_solve.
Qed.

Lemma avoids_stageBranch o full issueNumber errors :
  (forall repo branch, P (GhBranch repo branch) = false)
  \/ o_createBranch o = false
  \/ (exists n, issueNumber = Some n /\ (0 < n)%Z) ->
  avoids P (stageBranch env o full issueNumber errors).
Proof.
  intros Hsafe. pose proof (avoids_stageClone o full) as Hclone.
  unfold stageBranch. destruct (o_createBranch o) eqn:Hb; [|done]. cbv zeta.
  destruct issueNumber as [n|].
  - destruct (n <=? 0)%Z eqn:Hn; cbn [fst snd].
    + destruct Hsafe as [HP|[?|(m & [= <-] & Hm)]]; [|done|lia].
      apply avoids_stage_unlessCancelled. cbv zeta.
      destruct (negb _); [done|].
      apply avoids_bind; [by apply avoids_emit|]. stage_solve.
    + apply avoids_stage_unlessCancelled. stage_solve.
  - cbn [fst snd]. destruct Hsafe as [HP|[?|(m & ? & _)]]; [|done|done].
    apply avoids_stage_unlessCancelled. cbv zeta.
    destruct (negb _); [done|].
    apply avoids_bind; [by apply avoids_emit|]. stage_solve.
Qed.

Lemma avoids_stageIssue o full errors :
  (o_createBranch o = true -> o_createIssue o = true) ->
  avoids P (stageIssue env o full errors).
Proof.
  intros Ho. unfold stageIssue. destruct (o_createIssue o) eqn:Hi.
  - apply avoids_stage_unlessCancelled.
    apply avoids_bind; [other_kind|]. intros _.
    apply avoids_bind; [apply avoids_tick|]. intros _. cbv zeta.
    destruct branch_linked as [HP|(r & Hr & Hpos)].
    + destruct (issue_result (issued env)); apply avoids_stageBranch; by left.
    + rewrite Hr. apply avoids_stageBranch. right. right. by exists (number r).
  - apply avoids_stageBranch. right. left.
    destruct (o_createBranch o); [by specialize (Ho eq_refl)|done].
Qed.

Lemma avoids_stageSettings o full errors :
  (o_createBranch o = true -> o_createIssue o = true) ->
  avoids P (stageSettings env o full errors).
Proof.
  intros Ho. pose proof (fun errors => avoids_stageIssue o full errors Ho) as Hissue.
  unfold stageSettings. destruct (o_settings o) as [settings|]; [|done].
  apply avoids_stage_unlessCancelled.
  apply avoids_bind.
  - unfold applyRepositorySettings. stage_solve.
  - intros r. by destruct (_ && _).
Qed.

Lemma avoids_stageCreate o full :
  (o_createBranch o = true -> o_createIssue o = true) ->
  avoids P (stageCreate env o full).
Proof.
  intros Ho. pose proof (fun errors => avoids_stageSettings o full errors Ho) as Hsettings.
  unfold stageCreate, cancelRequested, executeGhCommand. stage_solve.
Qed.

Lemma avoids_stage_modifyRepository menv repoName :
  avoids P (Modify.modifyRepository menv repoName).
Proof.
  pose proof (avoids_collectModifications P) as Hcol.
  unfold Modify.modifyRepository, Modify.selectRepository, applyRepositorySettings.
  stage_solve.
Qed.

Lemma avoids_stageExists o full :
  (o_createBranch o = true -> o_createIssue o = true) ->
  avoids P (stageExists env o full).
Proof.
  intros Ho. pose proof (avoids_stageCreate o full Ho) as Hcreate.
  pose proof (avoids_stage_modifyRepository (modifyEnv env) (Some full)) as Hmod.
  unfold stageExists, cancelRequested, deleteRepositorySilently, executeGhCommand.
  stage_solve.
Qed.

Lemma avoids_stage_createRepository : avoids P (createRepository env).
Proof.
  assert (Howner : P (ShowError "Owner not selected. Please go back and select an owner.")
                   = false).
  { destruct (P _) eqn:H; [exfalso|done].
    apply P_kind in H as [(? & H & Hs)|(? & ? & H)]; [|done].
    injection H as <-. vm_compute in Hs. done. }
  unfold createRepository, cancelRequested.
  apply avoids_bind; [apply avoids_poll|]. intros c. destruct c; [apply avoids_ret|].
  apply avoids_bind; [apply avoids_tick|]. intros _.
  destruct (negb (ghInstalled env)); [other_kind|].
  apply avoids_bind; [apply avoids_tick|]. intros _.
  destruct (negb (ghAuthenticated env)); [other_kind|].
  apply avoids_bind; [apply avoids_poll|]. intros c. destruct c; [apply avoids_ret|].
  apply (avoids_bind_with P
           (fun r => forall o, r = Some o ->
              Validation.validateRepoName (o_name o) = Validation.ok
              /\ (o_createBranch o = true -> o_createIssue o = true))).
  - by apply avoids_collectUserInputs.
  - intros w o Ho. split.
    + by apply (collectUserInputs_names (wizard env) w o).
    + by apply (collectUserInputs_branch (wizard env) w o).
  - intros [o|] Ho; [|apply avoids_ret]. destruct (Ho o eq_refl) as [Hname Hbranch].
    apply avoids_bind; [apply avoids_poll|]. intros c. destruct c; [apply avoids_ret|].
    cbv zeta. rewrite Hname. cbn [Validation.valid Validation.ok negb].
    by apply avoids_stageExists.
Qed.

End LateStages.

(** X22.  The creation flow never shows the error about a repository
    name that is not valid: the wizard returns only names that
    [validateRepoName] accepts. *)
Theorem repository_name_error_never_shown env :
  Trace.avoids Trace.isInvalidRepoName (Create.createRepository env).
Proof.
  apply avoids_stage_createRepository.
  - intros e He. left. destruct e; try done. by exists msg.
  - by left.
Qed.

(** X23.  When the issue is created with a positive number, the creation
    flow never calls [createBranch]: a branch that is wanted is linked to
    the issue. *)
Theorem branch_linked_when_issue_created env r :
  Create.issue_result (Create.issued env) = Some r ->
  (0 < Create.number r)%Z ->
  Trace.avoids Trace.isPlainBranch (Create.createRepository env).
Proof.
  intros Hr Hpos. apply avoids_stage_createRepository.
  - intros e He. right. destruct e; try done. by eexists _, _.
  - right. by exists r.
Qed.

Lemma branch_linked_when_issue_created_witness :
  Trace.avoids Trace.isPlainBranch
    (Create.createRepository (Samples.flowEnv None false false)).
Proof.
  apply (branch_linked_when_issue_created (Samples.flowEnv None false false)
           (Create.mkIssue 1 "https://github.com/me/repo/issues/1")).
  - reflexivity.
  - reflexivity.
Defined.

(** ** A prompt that is dismissed *)

Section Escape.

(** X25.  In the creation wizard, dismissing the first prompt of a turn
    ends the wizard without a result, at every step that shows a prompt:
    the name step when an owner is selected, the branch step unless the
    issue answer is "No", and every other step but the last. *)
Theorem create_escape_cancels env wz w :
  head (script w) = Some Dismiss \/ script w = [] ->
  Create.currentStep wz <> Create.DONE ->
  (Create.currentStep wz = Create.NAME ->
   Create.truthy (Create.selectedOwner (Create.state wz) ≫= value) = true) ->
  (Create.currentStep wz = Create.BRANCH ->
   Create.label_is (Create.createIssue (Create.state wz)) "No" = false) ->
  fst (Create.iteration env wz w) = Create.Return None.
Proof.
  intros Hd Hdone Hname Hbranch.
  assert (Hpick : forall items dflt, fst (Create.pickOrDefault items dflt w) = None).
  { intros items dflt. unfold Create.pickOrDefault, showPick, nextResponse, bind, ret.
    cbn. destruct Hd as [Hd|Hd]; rewrite Hd; done. }
  assert (Hchoice : forall options dflt k,
            fst (Create.choice wz options dflt k w) = Create.Return None).
  { intros options dflt k. unfold Create.choice, bind. cbv zeta.
    specialize (Hpick (addBackOption options (Create.canGoBack wz))
                  (find_item dflt (addBackOption options (Create.canGoBack wz)))).
    destruct (Create.pickOrDefault _ _ w) as [r w1]. cbn [fst] in Hpick. by subst. }
  assert (Hinput : fst (showInputBox w) = None).
  { unfold showInputBox, nextResponse, bind, ret. cbn.
    destruct Hd as [Hd|Hd]; rewrite Hd; done. }
  assert (Hvalid : forall validate, fst (showValidatedInputBox validate w) = None).
  { intros validate. unfold showValidatedInputBox.
    destruct Hd as [Hd|Hd].
    - destruct (script w) as [|r rest]; [cbn in Hd; discriminate|].
      cbn in Hd. injection Hd as ->. reflexivity.
    - rewrite Hd. done. }
  unfold Create.iteration, Create.polled, bind.
  destruct (poll_cases (Create.token env) w) as [E|E]; rewrite E; [done|].
  destruct wz as [st s]. cbn [Create.currentStep Create.state] in *.
  destruct s; try done.
  - unfold Create.stepOwner, bind, showPick, nextResponse, ret. cbn.
    destruct Hd as [Hd|Hd]; rewrite Hd; done.
  - unfold Create.stepName. cbv zeta. cbn [Create.state]. rewrite (Hname eq_refl).
    cbn [negb]. unfold bind, ret.
    specialize (Hvalid (Create.validateNameInput env
                          (default "" (Create.selectedOwner st ≫= value)))).
    destruct (showValidatedInputBox _ w) as [r w1]. cbn [fst] in Hvalid. by subst.
  - unfold Create.stepDescription, Create.polled, bind. rewrite E. unfold ret.
    destruct (showInputBox w) as [r w1]. cbn [fst] in Hinput. by subst.
  - unfold Create.stepVisibility, Create.polled, bind. rewrite E. apply Hchoice.
  - unfold Create.stepTemplate, Create.polled, bind. rewrite E. apply Hchoice.
  - unfold Create.stepReadme, Create.polled, bind. rewrite E. apply Hchoice.
  - unfold Create.stepLicense. apply Hchoice.
  - unfold Create.stepIssue, Create.polled, bind. rewrite E. apply Hchoice.
  - unfold Create.stepBranch, Create.polled, bind. rewrite E. cbn [Create.state].
    rewrite (Hbranch eq_refl). apply Hchoice.
  - unfold Create.stepWorkspace, Create.polled, bind. rewrite E. apply Hchoice.
  - unfold Create.stepAdvanced, Create.polled, bind. rewrite E. apply Hchoice.
Qed.

Lemma create_escape_cancels_witness :
  fst (Create.iteration Samples.wizardEnv Samples.onIssue (mkWorld 0 [Dismiss] []))
  = Create.Return None.
Proof.
  apply (create_escape_cancels Samples.wizardEnv Samples.onIssue (mkWorld 0 [Dismiss] [])).
  - left. reflexivity.
  - discriminate.
  - discriminate.
  - discriminate.
Defined.



End Escape.
